(** * Sp3ctra code-review agents: a shallow embedding and its properties

    The Python agents under [scripts/code_review] are embedded as Rocq
    functions.  A Python [str] is a list of Unicode code points, a [dict]
    is an insertion-ordered association list, the regular expressions of
    the [re] module are terms of a small backtracking matcher, and
    [hashlib.md5] is the MD5 function of RFC 1321 on the UTF-8 encoding. *)

From Stdlib Require Import ZArith List Bool Lia String Ascii Sorted DecimalString QArith.
Import ListNotations.
Local Open Scope Z_scope.

Set Implicit Arguments.

(* ================================================================== *)
(** * Text: Python strings as lists of code points *)
(* ================================================================== *)

Module Text.

Definition char := Z.
Definition text := list char.

(** ASCII literals of the development, read as code points. *)
Definition of_string (s : string) : text :=
  List.map (fun a => Z.of_N (N_of_ascii a)) (list_ascii_of_string s).

Definition NL : char := 10.
Definition SPACE : char := 32.
Definition SLASH : char := 47.
Definition STAR : char := 42.

(** [str.isspace] / the class [\s] of [re] on [str] patterns: the code
    points for which CPython's [Py_UNICODE_ISSPACE] holds. *)
Definition isspace (c : char) : bool :=
  ((9 <=? c) && (c <=? 13)) || ((28 <=? c) && (c <=? 32))
  || (c =? 133) || (c =? 160) || (c =? 5760)
  || ((8192 <=? c) && (c <=? 8202))
  || (c =? 8232) || (c =? 8233) || (c =? 8239) || (c =? 8287) || (c =? 12288).

Definition text_eqb (a b : text) : bool :=
  if list_eq_dec Z.eq_dec a b then true else false.

(** [s.startswith(p)] *)
Fixpoint startswith (p s : text) : bool :=
  match p, s with
  | [], _ => true
  | _ :: _, [] => false
  | a :: p', b :: s' => (a =? b) && startswith p' s'
  end.

(** [p in s] for strings: substring search. *)
Fixpoint contains (p s : text) : bool :=
  startswith p s ||
  match s with
  | [] => false
  | _ :: s' => contains p s'
  end.

(** [s.count(c)] for a one-character string. *)
Fixpoint count_char (c : char) (s : text) : Z :=
  match s with
  | [] => 0
  | d :: s' => (if d =? c then 1 else 0) + count_char c s'
  end.

(** [s.lstrip()], [s.rstrip()] and [s.strip()] *)
Fixpoint lstrip (s : text) : text :=
  match s with
  | [] => []
  | c :: s' => if isspace c then lstrip s' else s
  end.

Definition rstrip (s : text) : text := rev (lstrip (rev s)).

Definition strip (s : text) : text := rstrip (lstrip s).

(** [s.split('\n')]: the pieces between line feeds; never empty. *)
Fixpoint split_lines (s : text) : list text :=
  match s with
  | [] => [[]]
  | c :: s' =>
      if c =? NL then [] :: split_lines s'
      else match split_lines s' with
           | [] => [[c]]
           | l :: ls => (c :: l) :: ls
           end
  end.

(** ['\n'.join(ls)] *)
Fixpoint join_lines (ls : list text) : text :=
  match ls with
  | [] => []
  | [l] => l
  | l :: ls' => l ++ NL :: join_lines ls'
  end.

(** Signs of the report lines that are not ASCII, as code points. *)
Definition WARNING_SIGN : text := [9888; 65039].
Definition INFO_SIGN : text := [8505; 65039].
Definition CHECK_MARK : text := [9989].
Definition CROSS_MARK : text := [10060].
Definition THUMBS_UP : text := [128077].
Definition SIREN : text := [128680].
Definition CLIPBOARD : text := [128203].
Definition BAR_CHART : text := [128202].
Definition LIGHT_BULB : text := [128161].
Definition BOOKMARK_TABS : text := [128209].
Definition MEMO : text := [128221].

(** [len(s)] *)
Definition len {A} (s : list A) : Z := Z.of_nat (List.length s).

End Text.

Import Text.

(* ================================================================== *)
(** * hashlib.md5 over the UTF-8 encoding *)
(* ================================================================== *)

Module MD5.

Definition mask32 (x : Z) : Z := Z.land x 4294967295.

Definition add32 (x y : Z) : Z := mask32 (x + y).

Definition rotl32 (x n : Z) : Z :=
  mask32 (Z.lor (Z.shiftl x n) (Z.shiftr x (32 - n))).

Definition not32 (x : Z) : Z := Z.lxor x 4294967295.

Definition K : list Z :=
  [ 0xd76aa478; 0xe8c7b756; 0x242070db; 0xc1bdceee; 0xf57c0faf; 0x4787c62a;
    0xa8304613; 0xfd469501; 0x698098d8; 0x8b44f7af; 0xffff5bb1; 0x895cd7be;
    0x6b901122; 0xfd987193; 0xa679438e; 0x49b40821; 0xf61e2562; 0xc040b340;
    0x265e5a51; 0xe9b6c7aa; 0xd62f105d; 0x02441453; 0xd8a1e681; 0xe7d3fbc8;
    0x21e1cde6; 0xc33707d6; 0xf4d50d87; 0x455a14ed; 0xa9e3e905; 0xfcefa3f8;
    0x676f02d9; 0x8d2a4c8a; 0xfffa3942; 0x8771f681; 0x6d9d6122; 0xfde5380c;
    0xa4beea44; 0x4bdecfa9; 0xf6bb4b60; 0xbebfbc70; 0x289b7ec6; 0xeaa127fa;
    0xd4ef3085; 0x04881d05; 0xd9d4d039; 0xe6db99e5; 0x1fa27cf8; 0xc4ac5665;
    0xf4292244; 0x432aff97; 0xab9423a7; 0xfc93a039; 0x655b59c3; 0x8f0ccc92;
    0xffeff47d; 0x85845dd1; 0x6fa87e4f; 0xfe2ce6e0; 0xa3014314; 0x4e0811a1;
    0xf7537e82; 0xbd3af235; 0x2ad7d2bb; 0xeb86d391 ].

Definition S : list Z :=
  [ 7; 12; 17; 22; 7; 12; 17; 22; 7; 12; 17; 22; 7; 12; 17; 22;
    5; 9; 14; 20; 5; 9; 14; 20; 5; 9; 14; 20; 5; 9; 14; 20;
    4; 11; 16; 23; 4; 11; 16; 23; 4; 11; 16; 23; 4; 11; 16; 23;
    6; 10; 15; 21; 6; 10; 15; 21; 6; 10; 15; 21; 6; 10; 15; 21 ].

Definition nthZ (l : list Z) (i : Z) : Z := nth (Z.to_nat i) l 0.

(** Little-endian bytes of a word, [n] of them. *)
Fixpoint le_bytes (n : nat) (x : Z) : list Z :=
  match n with
  | O => []
  | Datatypes.S n' => Z.land x 255 :: le_bytes n' (Z.shiftr x 8)
  end.

Fixpoint le_word (bs : list Z) : Z :=
  match bs with
  | [] => 0
  | b :: bs' => Z.lor b (Z.shiftl (le_word bs') 8)
  end.

(** Padding: a one bit, zeros up to 56 modulo 64, then the bit length. *)
Definition pad (msg : list Z) : list Z :=
  let n := len msg in
  let zeros := (55 - n) mod 64 in
  msg ++ 128 :: repeat 0 (Z.to_nat zeros) ++ le_bytes 8 (8 * n).

Fixpoint words (n : nat) (bs : list Z) : list Z :=
  match n with
  | O => []
  | Datatypes.S n' => le_word (firstn 4 bs) :: words n' (skipn 4 bs)
  end.

Record regs := { rA : Z; rB : Z; rC : Z; rD : Z }.

Definition init : regs :=
  {| rA := 0x67452301; rB := 0xefcdab89; rC := 0x98badcfe; rD := 0x10325476 |}.

Definition round (M : list Z) (r : regs) (i : Z) : regs :=
  let '(Build_regs a b c d) := r in
  let '(f, g) :=
    if i <? 16 then (Z.lor (Z.land b c) (Z.land (not32 b) d), i)
    else if i <? 32 then (Z.lor (Z.land d b) (Z.land (not32 d) c), (5 * i + 1) mod 16)
    else if i <? 48 then (Z.lxor (Z.lxor b c) d, (3 * i + 5) mod 16)
    else (Z.lxor c (Z.lor b (not32 d)), (7 * i) mod 16) in
  let f' := add32 (add32 (add32 f a) (nthZ K i)) (nthZ M g) in
  {| rA := d; rB := add32 b (rotl32 f' (nthZ S i)); rC := b; rD := c |}.

Definition rounds : list Z := List.map Z.of_nat (seq 0 64).

Definition compress (h : regs) (block : list Z) : regs :=
  let r := fold_left (round (words 16 block)) rounds h in
  {| rA := add32 (rA h) (rA r); rB := add32 (rB h) (rB r);
     rC := add32 (rC h) (rC r); rD := add32 (rD h) (rD r) |}.

Fixpoint blocks (fuel : nat) (h : regs) (bs : list Z) : regs :=
  match fuel, bs with
  | Datatypes.S fuel', _ :: _ => blocks fuel' (compress h (firstn 64 bs)) (skipn 64 bs)
  | _, _ => h
  end.

(** The 16 digest bytes. *)
Definition digest (msg : list Z) : list Z :=
  let p := pad msg in
  let h := blocks (List.length p) init p in
  le_bytes 4 (rA h) ++ le_bytes 4 (rB h) ++ le_bytes 4 (rC h) ++ le_bytes 4 (rD h).

Definition hex_digit (n : Z) : ascii :=
  ascii_of_N (Z.to_N (if n <? 10 then 48 + n else 87 + n)).

Fixpoint hex (bs : list Z) : string :=
  match bs with
  | [] => EmptyString
  | b :: bs' => String (hex_digit (Z.shiftr b 4)) (String (hex_digit (Z.land b 15)) (hex bs'))
  end.

(** [hashlib.md5(data).hexdigest()] *)
Definition hexdigest (msg : list Z) : string := hex (digest msg).

(** [str.encode()]: UTF-8; a lone surrogate raises [UnicodeEncodeError]. *)
Definition encode_char (c : char) : option (list Z) :=
  if c <? 0 then None
  else if c <? 128 then Some [c]
  else if c <? 2048 then Some [192 + Z.shiftr c 6; 128 + Z.land c 63]
  else if (55296 <=? c) && (c <=? 57343) then None
  else if c <? 65536 then
    Some [224 + Z.shiftr c 12; 128 + Z.land (Z.shiftr c 6) 63; 128 + Z.land c 63]
  else if c <? 1114112 then
    Some [240 + Z.shiftr c 18; 128 + Z.land (Z.shiftr c 12) 63;
          128 + Z.land (Z.shiftr c 6) 63; 128 + Z.land c 63]
  else None.

Fixpoint encode (s : text) : option (list Z) :=
  match s with
  | [] => Some []
  | c :: s' =>
      match encode_char c, encode s' with
      | Some b, Some bs => Some (b ++ bs)
      | _, _ => None
      end
  end.

End MD5.

(* ================================================================== *)
(** * agent_duplication.py: normalisation and digest *)
(* ================================================================== *)

Module Normalizer.

Definition head_is (c : char) (s : text) : bool :=
  match s with
  | d :: _ => d =? c
  | [] => false
  end.

(** [re.sub(r'//.*$', '', code, flags=re.MULTILINE)]: from the leftmost
    [//] of a line up to, and not including, its line feed.  The flag
    says whether the scan is inside such a match. *)
Fixpoint sub_line_comments (in_comment : bool) (s : text) : text :=
  match s with
  | [] => []
  | c :: r =>
      if in_comment then
        if c =? NL then c :: sub_line_comments false r
        else sub_line_comments true r
      else if (c =? SLASH) && head_is SLASH r then sub_line_comments true r
      else c :: sub_line_comments false r
  end.

(** The text after the first [*/] of [s], when there is one. *)
Fixpoint find_close (s : text) : option text :=
  match s with
  | [] => None
  | c :: r =>
      match r with
      | [] => None
      | d :: r' => if (c =? STAR) && (d =? SLASH) then Some r' else find_close r
      end
  end.

Definition is_some {A} (o : option A) : bool :=
  match o with Some _ => true | None => false end.

(** [re.sub(r'/\*.*?\*/', '', code, flags=re.DOTALL)]: at a [/*] that has
    a [*/] after it, the match runs to the first such [*/]; a [/*] that is
    never closed stays.  The flag says whether the scan is inside a match. *)
Fixpoint sub_block_comments (in_comment : bool) (s : text) : text :=
  match s with
  | [] => []
  | c :: r =>
      if in_comment then
        match r with
        | [] => []
        | d :: r' =>
            if (c =? STAR) && (d =? SLASH) then sub_block_comments false r'
            else sub_block_comments true r
        end
      else
        match r with
        | [] => [c]
        | d :: r' =>
            if (c =? SLASH) && (d =? STAR) && is_some (find_close r')
            then sub_block_comments true r'
            else c :: sub_block_comments false r
        end
  end.

(** [re.sub(r'\s+', ' ', code)]: every maximal run of white space becomes
    one space.  The flag says whether the previous character was white. *)
Fixpoint sub_whitespace (in_run : bool) (s : text) : text :=
  match s with
  | [] => []
  | c :: r =>
      if isspace c then
        if in_run then sub_whitespace true r
        else SPACE :: sub_whitespace true r
      else c :: sub_whitespace false r
  end.

(** [DuplicationDetectorAgent.normalize_code] *)
Definition normalize_code (code : text) : text :=
  let code := sub_line_comments false code in
  let code := sub_block_comments false code in
  let code := sub_whitespace false code in
  strip code.

(** [DuplicationDetectorAgent.get_code_hash]; [None] when [encode] raises. *)
Definition get_code_hash (code : text) : option string :=
  let normalized := normalize_code code in
  option_map MD5.hexdigest (MD5.encode normalized).

(** ** Shapes of text the passes produce *)

(** No two adjacent slashes. *)
Fixpoint no_dslash (s : text) : bool :=
  match s with
  | [] => true
  | c :: r => negb ((c =? SLASH) && head_is SLASH r) && no_dslash r
  end.

(** [r] continues a [/] into a [/*] that is closed later. *)
Definition opens_block (r : text) : bool :=
  match r with
  | [] => false
  | d :: r' => (d =? STAR) && is_some (find_close r')
  end.

(** No [/*] that is closed later. *)
Fixpoint no_block (s : text) : bool :=
  match s with
  | [] => true
  | c :: r => negb ((c =? SLASH) && opens_block r) && no_block r
  end.

(** White space occurs only as single spaces; the flag says whether a
    space comes just before. *)
Fixpoint single_spaced (after_space : bool) (s : text) : bool :=
  match s with
  | [] => true
  | c :: r =>
      if isspace c then (c =? SPACE) && negb after_space && single_spaced true r
      else single_spaced false r
  end.

(** Deleting every white-space character: two texts that are equal after
    this differ only in white space. *)
Definition remove_whitespace (s : text) : text :=
  filter (fun c => negb (isspace c)) s.

(** Two texts differ only in the make-up of their white-space runs: one
    is reached from the other by writing one white-space character for
    two adjacent ones, or two for one, where the one is a line feed
    exactly when one of the two is. *)
Inductive same_layout : text -> text -> Prop :=
| layout_refl x : same_layout x x
| layout_sym x y : same_layout x y -> same_layout y x
| layout_trans x y z : same_layout x y -> same_layout y z -> same_layout x z
| layout_run u v a b k :
    isspace a = true -> isspace b = true -> isspace k = true ->
    (k =? NL) = (a =? NL) || (b =? NL) ->
    same_layout (u ++ a :: b :: v) (u ++ k :: v).

End Normalizer.

(* ================================================================== *)
(** * The [re] module: a backtracking matcher *)
(* ================================================================== *)

Module Regex.

Section Matcher.

(** [str.isalnum] beyond ASCII: the interpreter's Unicode table, which
    the class [\w] consults for code points from 128 on. *)
Variable unicode_alnum : char -> bool.

(** The class [\w] on [str] patterns. *)
Definition isword (c : char) : bool :=
  if c <? 128 then
    ((48 <=? c) && (c <=? 57)) || ((65 <=? c) && (c <=? 90))
    || ((97 <=? c) && (c <=? 122)) || (c =? 95)
  else unicode_alnum c.

(** The patterns of the agents: literals, one character of a class, a
    class under [*], [+] or the lazy [*?], [\b], [^], capturing groups
    and concatenation. *)
Inductive regex :=
| Lit (s : text)
| Cls (p : char -> bool)
| Star (p : char -> bool)
| Plus (p : char -> bool)
| LazyStar (p : char -> bool)
| WordB
| Bol
| Group (n : nat) (r : regex)
| Seq (r1 r2 : regex).

Fixpoint seqs (rs : list regex) : regex :=
  match rs with
  | [] => Lit []
  | [r] => r
  | r :: rs' => Seq r (seqs rs')
  end.

(** A position in the subject: the character before it, the text from
    it on, and the groups captured so far (latest first). *)
Record mstate := { prev : option char; rest : text; caps : list (nat * text) }.

Variable R : Type.

Fixpoint star_greedy (p : char -> bool) (k : option char -> text -> option R)
  (pv : option char) (s : text) : option R :=
  match s with
  | c :: s' =>
      if p c then
        match star_greedy p k (Some c) s' with
        | Some x => Some x
        | None => k pv s
        end
      else k pv s
  | [] => k pv s
  end.

Fixpoint star_lazy (p : char -> bool) (k : option char -> text -> option R)
  (pv : option char) (s : text) : option R :=
  match k pv s with
  | Some x => Some x
  | None =>
      match s with
      | c :: s' => if p c then star_lazy p k (Some c) s' else None
      | [] => None
      end
  end.

Definition opt_word (o : option char) : bool :=
  match o with Some c => isword c | None => false end.

(** Match [r] at [st], then the continuation [k]; the first success in
    the order a backtracking engine tries the alternatives. *)
Fixpoint run (r : regex) (k : mstate -> option R) (st : mstate) : option R :=
  match r with
  | Lit l =>
      if startswith l (rest st) then
        k {| prev := match rev l with c :: _ => Some c | [] => prev st end;
             rest := skipn (List.length l) (rest st);
             caps := caps st |}
      else None
  | Cls p =>
      match rest st with
      | c :: s' => if p c then k {| prev := Some c; rest := s'; caps := caps st |} else None
      | [] => None
      end
  | Star p =>
      star_greedy p (fun pv s => k {| prev := pv; rest := s; caps := caps st |})
        (prev st) (rest st)
  | Plus p =>
      match rest st with
      | c :: s' =>
          if p c then
            star_greedy p (fun pv s => k {| prev := pv; rest := s; caps := caps st |})
              (Some c) s'
          else None
      | [] => None
      end
  | LazyStar p =>
      star_lazy p (fun pv s => k {| prev := pv; rest := s; caps := caps st |})
        (prev st) (rest st)
  | WordB =>
      if xorb (opt_word (prev st)) (opt_word (hd_error (rest st))) then k st else None
  | Bol =>
      match prev st with None => k st | Some _ => None end
  | Group n r' =>
      run r'
        (fun st' =>
           let consumed :=
             firstn (List.length (rest st) - List.length (rest st')) (rest st) in
           k {| prev := prev st'; rest := rest st'; caps := (n, consumed) :: caps st' |})
        st
  | Seq r1 r2 => run r1 (run r2 k) st
  end.

End Matcher.

(** A match object: its groups. *)
Definition match_obj := list (nat * text).

(** [m.group(n)] *)
Fixpoint group (m : match_obj) (n : nat) : option text :=
  match m with
  | [] => None
  | (i, t) :: m' => if Nat.eqb i n then Some t else group m' n
  end.

Section Api.
Variable unicode_alnum : char -> bool.

(** [re.match(r, s)] *)
Definition re_match (r : regex) (s : text) : option match_obj :=
  run unicode_alnum r (fun st => Some (caps st)) {| prev := None; rest := s; caps := [] |}.

Fixpoint search_from (r : regex) (pv : option char) (s : text) : option match_obj :=
  match run unicode_alnum r (fun st => Some (caps st))
          {| prev := pv; rest := s; caps := [] |} with
  | Some m => Some m
  | None =>
      match s with
      | c :: s' => search_from r (Some c) s'
      | [] => None
      end
  end.

(** [re.search(r, s)] *)
Definition re_search (r : regex) (s : text) : option match_obj :=
  search_from r None s.

End Api.

Definition is_char (c : char) : char -> bool := fun d => d =? c.
Definition not_char (c : char) : char -> bool := fun d => negb (d =? c).
Definition any_char : char -> bool := fun _ => true.

End Regex.

(* ================================================================== *)
(** * Python dictionaries, in insertion order *)
(* ================================================================== *)

Module Dict.

Section Dict.
Variables (K V : Type) (eqb : K -> K -> bool).

Definition dict := list (K * V).

(** [d[k] = v]: an existing key keeps its place and takes the new value;
    a new key goes last. *)
Fixpoint set (d : dict) (k : K) (v : V) : dict :=
  match d with
  | [] => [(k, v)]
  | (k', v') :: d' => if eqb k' k then (k, v) :: d' else (k', v') :: set d' k v
  end.

Fixpoint get (d : dict) (k : K) : option V :=
  match d with
  | [] => None
  | (k', v') :: d' => if eqb k' k then Some v' else get d' k
  end.

End Dict.

End Dict.

(* ================================================================== *)
(** * agent_duplication.py: function extraction *)
(* ================================================================== *)

Module Extractor.
Import Regex.

Definition LBRACE : char := 123.
Definition RBRACE : char := 125.
Definition LPAREN : char := 40.
Definition RPAREN : char := 41.

(** [enumerate(l, start)] *)
Fixpoint enumerate {A} (start : Z) (l : list A) : list (Z * A) :=
  match l with
  | [] => []
  | x :: l' => (start, x) :: enumerate (start + 1) l'
  end.

(** Truth value of [current_func]: [None] and the empty string are false. *)
Definition truthy (o : option text) : bool :=
  match o with
  | Some (_ :: _) => true
  | _ => false
  end.

(** A retained function: its name, its text and its first line. *)
Definition span := (text * (text * Z))%type.

Definition span_name (s : span) : text := fst s.
Definition span_code (s : span) : text := fst (snd s).
Definition span_start (s : span) : Z := snd (snd s).

(** The last line of a span: its text is the join of its lines. *)
Definition span_end (s : span) : Z := span_start s + count_char NL (span_code s).

(** The local variables of the scanning loop of [extract_functions]. *)
Record scan (F : Type) := {
  functions : F;
  current_func : option text;
  current_func_start : Z;
  brace_count : Z;
  func_lines : list text
}.

Section Loop.

(** What [re.match(func_pattern, line)] gives: [None], or [group(2)]. *)
Variable func_match : text -> option text.

(** The store of retained functions and its assignment
    [functions[name] = (code, start)]. *)
Variable F : Type.
Variable store : F -> text -> text * Z -> F.

Definition brace_delta (line : text) : Z :=
  count_char LBRACE line - count_char RBRACE line.

(** One iteration of [for i, line in enumerate(lines, 1)]. *)
Definition step (st : scan F) (il : Z * text) : scan F :=
  let '(i, line) := il in
  match func_match line, truthy (current_func st) with
  | Some name, false =>
      {| functions := functions st;
         current_func := Some name;
         current_func_start := i;
         brace_count := brace_delta line;
         func_lines := [line] |}
  | _, true =>
      let lines' := func_lines st ++ [line] in
      let count' := brace_count st + brace_delta line in
      if count' =? 0 then
        let func_code := join_lines lines' in
        {| functions :=
             match current_func st with
             | Some name =>
                 if len func_code >? 100
                 then store (functions st) name (func_code, current_func_start st)
                 else functions st
             | None => functions st
             end;
           current_func := None;
           current_func_start := current_func_start st;
           brace_count := count';
           func_lines := [] |}
      else
        {| functions := functions st;
           current_func := current_func st;
           current_func_start := current_func_start st;
           brace_count := count';
           func_lines := lines' |}
  | None, false => st
  end.

Definition scan_lines (empty : F) (lines : list text) : scan F :=
  fold_left step (enumerate 1 lines)
    {| functions := empty; current_func := None; current_func_start := 0;
       brace_count := 0; func_lines := [] |}.

End Loop.

Section Extract.
Variable unicode_alnum : char -> bool.

(** [func_pattern = r'^(\w+[\w\s\*]+)\s+(\w+)\s*\([^)]*\)\s*{'] *)
Definition func_pattern : regex :=
  let w := isword unicode_alnum in
  seqs [ Bol;
         Group 1 (Seq (Plus w) (Plus (fun c => w c || isspace c || (c =? STAR))));
         Plus isspace;
         Group 2 (Plus w);
         Star isspace;
         Lit [LPAREN]; Star (not_char RPAREN); Lit [RPAREN];
         Star isspace;
         Lit [LBRACE] ].

(** [match = re.match(func_pattern, line)] and, on a match, [match.group(2)]. *)
Definition func_match (line : text) : option text :=
  match re_match unicode_alnum func_pattern line with
  | Some m => group m 2
  | None => None
  end.

(** [DuplicationDetectorAgent.extract_functions].  The argument is what
    [f.read()] gives, [None] when opening or decoding raises; the
    [except] clause then leaves the dictionary empty. *)
Definition extract_functions (content : option text) : Dict.dict text (text * Z) :=
  match content with
  | None => []
  | Some content =>
      functions (scan_lines func_match (Dict.set text_eqb) [] (split_lines content))
  end.

(** The assignments [functions[name] = ...] the loop makes, in order. *)
Definition retained_spans (content : text) : list span :=
  functions
    (scan_lines func_match (fun tr name v => tr ++ [(name, v)]) [] (split_lines content)).

End Extract.

(** Braces are balanced: every closing brace has its opening brace before
    it and none stays open. *)
Fixpoint balanced_from (depth : Z) (s : text) : bool :=
  match s with
  | [] => depth =? 0
  | c :: r =>
      if c =? LBRACE then balanced_from (depth + 1) r
      else if c =? RBRACE then (0 <? depth) && balanced_from (depth - 1) r
      else balanced_from depth r
  end.

Definition balanced (s : text) : bool := balanced_from 0 s.

(** A span lies before another: it ends above the other's first line. *)
Definition span_before (a b : span) : Prop := span_end a < span_start b.

(** What a retained span satisfies by itself. *)
Definition span_ok (s : span) : Prop :=
  1 <= span_start s <= span_end s /\ 100 < len (span_code s).

End Extractor.

(* ================================================================== *)
(** * Issues and the effects of an agent *)
(* ================================================================== *)

Module Issue.

Inductive severity := ERROR | WARNING | INFO.

Definition severity_eqb (a b : severity) : bool :=
  match a, b with
  | ERROR, ERROR | WARNING, WARNING | INFO, INFO => true
  | _, _ => false
  end.

(** The location keys of an issue dictionary: ['file'] and ['line'], or
    the ['locations'] list of the duplication agent. *)
Inductive place :=
| At (file : text) (line : Z)
| Locations (locs : list (text * Z)).

(** The dictionary [add_issue] appends. *)
Record issue := {
  severity_of : severity;
  category : text;
  where_ : place;
  message : text
}.

(** [issue.get('file', 'N/A')] and [issue.get('line', 0)] *)
Definition issue_file (i : issue) : text :=
  match where_ i with
  | At f _ => f
  | Locations _ => of_string "N/A"
  end.

Definition issue_line (i : issue) : Z :=
  match where_ i with
  | At _ l => l
  | Locations _ => 0
  end.

(** [str(n)] for an integer. *)
Definition decimal (n : Z) : text := of_string (NilEmpty.string_of_int (Z.to_int n)).

End Issue.

(** Python statements over a mutable state: a computation ends with a
    value or with an exception on its way up, and in both cases leaves the
    state as it made it. *)
Module Py.

Definition M (S A : Type) : Type := S -> option A * S.

Definition ret {S A} (x : A) : M S A := fun s => (Some x, s).

Definition raise {S A} : M S A := fun s => (None, s).

Definition bind {S A B} (c : M S A) (k : A -> M S B) : M S B :=
  fun s =>
    match c s with
    | (Some x, s') => k x s'
    | (None, s') => (None, s')
    end.

Definition modify {S} (f : S -> S) : M S unit := fun s => (Some tt, f s).

(** [try: c  except Exception: h] *)
Definition try_except {S A} (c : M S A) (h : M S A) : M S A :=
  fun s =>
    match c s with
    | (Some x, s') => (Some x, s')
    | (None, s') => h s'
    end.

(** [for x in l: body(x)] *)
Fixpoint for_each {S X} (l : list X) (body : X -> M S unit) : M S unit :=
  match l with
  | [] => ret tt
  | x :: l' => bind (body x) (fun _ => for_each l' body)
  end.

(** An optional value that raises when absent: a file that cannot be
    opened or decoded. *)
Definition of_option {S A} (o : option A) : M S A :=
  match o with
  | Some x => ret x
  | None => raise
  end.

End Py.

Declare Scope py_scope.
Delimit Scope py_scope with py.
Notation "x <- c ;; k" := (Py.bind c (fun x => k))
  (at level 61, c at next level, right associativity) : py_scope.
Notation "c ;;; k" := (Py.bind c (fun _ => k))
  (at level 61, right associativity) : py_scope.

(* ================================================================== *)
(** * agent_duplication.py: the duplicate groups *)
(* ================================================================== *)

Module DuplicationIndex.
Import Issue Extractor.

(** An entry of [hash_map]: file, function name, first line. *)
Definition location := (text * text * Z)%type.

Definition loc_file (l : location) : text := fst (fst l).
Definition loc_name (l : location) : text := snd (fst l).
Definition loc_line (l : location) : Z := snd l.

Definition digest_eqb (a b : string) : bool := String.eqb a b.

(** [hash_map[code_hash].append(loc)] on a [defaultdict(list)]. *)
Definition append_loc (hash_map : Dict.dict string (list location))
  (code_hash : string) (loc : location) : Dict.dict string (list location) :=
  match Dict.get digest_eqb hash_map code_hash with
  | Some locs => Dict.set digest_eqb hash_map code_hash (locs ++ [loc])
  | None => Dict.set digest_eqb hash_map code_hash [loc]
  end.

Definition state := list issue.

(** [self.add_issue(category, locations, message, severity)] *)
Definition add_issue (cat : text) (locs : list (text * Z)) (msg : text) (sev : severity)
  : Py.M state unit :=
  Py.modify (fun issues =>
    issues ++ [{| severity_of := sev; category := cat;
                  where_ := Locations locs; message := msg |}]).

Definition vst_locs (locations : list location) : list location :=
  filter (fun loc => contains (of_string "vst/") (loc_file loc)) locations.

Definition src_locs (locations : list location) : list location :=
  filter (fun loc => contains (of_string "src/") (loc_file loc)) locations.

(** Truth value of a list. *)
Definition nonempty {A} (l : list A) : bool :=
  match l with [] => false | _ :: _ => true end.

(** The test under which a group is reported, lines 120 to 125. *)
Definition reported (locations : list location) : bool :=
  (len locations >? 1) && nonempty (vst_locs locations) && nonempty (src_locs locations).

Definition first_name (locations : list location) : text :=
  match locations with
  | [] => []
  | loc :: _ => loc_name loc
  end.

(** The issue a reported group gives. *)
Definition group_issue (locations : list location) : issue :=
  {| severity_of := WARNING;
     category := of_string "Code Duplication - Cross-boundary";
     where_ := Locations (List.map (fun loc => (loc_file loc, loc_line loc)) locations);
     message :=
       of_string "Function '" ++ first_name locations
         ++ of_string "' duplicated between VST and standalone. Consider refactoring into shared library." |}.

(** The loop over [hash_map.items()], lines 119 to 131. *)
Definition report_groups (hash_map : Dict.dict string (list location)) : Py.M state unit :=
  Py.for_each hash_map (fun entry =>
    let locations := snd entry in
    if len locations >? 1 then
      if nonempty (vst_locs locations) && nonempty (src_locs locations) then
        add_issue (of_string "Code Duplication - Cross-boundary")
          (List.map (fun loc => (loc_file loc, loc_line loc)) locations)
          (of_string "Function '" ++ first_name locations
             ++ of_string "' duplicated between VST and standalone. Consider refactoring into shared library.")
          WARNING
      else Py.ret tt
    else Py.ret tt).

Section Index.
Variable unicode_alnum : char -> bool.

(** A file of the corpus: its path relative to the project root and what
    reading it gives. *)
Definition source_file := (text * option text)%type.

(** The body of the three scanning loops: every function of the file goes
    under its digest.  [get_code_hash] raises when the text cannot be
    encoded. *)
Definition index_file (hash_map : Dict.dict string (list location)) (f : source_file)
  : option (Dict.dict string (list location)) :=
  fold_left
    (fun acc (fn : span) =>
       match acc, Normalizer.get_code_hash (span_code fn) with
       | Some hm, Some code_hash =>
           Some (append_loc hm code_hash (fst f, span_name fn, span_start fn))
       | _, _ => None
       end)
    (extract_functions unicode_alnum (snd f)) (Some hash_map).

Definition index_files (files : list source_file)
  (hash_map : Dict.dict string (list location))
  : option (Dict.dict string (list location)) :=
  fold_left
    (fun acc f => match acc with Some hm => index_file hm f | None => None end)
    files (Some hash_map).

(** [path.name]: the last component of a path. *)
Fixpoint until_slash (s : text) : text :=
  match s with
  | [] => []
  | c :: r => if c =? SLASH then [] else c :: until_slash r
  end.

Definition file_name (path : text) : text := rev (until_slash (rev path)).

(** [DuplicationDetectorAgent.find_duplicate_functions].  The arguments
    are the files [vst_dir.glob("*.cpp")], [src_dir.rglob("*.c")] and
    [src_dir.rglob("*.cpp")] yield. *)
Definition find_duplicate_functions
  (vst_cpp src_c src_cpp : list source_file) : Py.M state unit :=
  let vst_cpp' :=
    filter (fun f => negb (text_eqb (file_name (fst f)) (of_string "global_stubs.c"))) vst_cpp in
  (hash_map <- Py.of_option (index_files (vst_cpp' ++ src_c ++ src_cpp) []) ;;
   report_groups hash_map)%py.

End Index.

(** The two trees of the corpus. *)
Inductive root := VstTree | StandaloneTree.

Definition root_eq_dec (a b : root) : {a = b} + {a <> b}.
Proof. decide equality. Defined.

(** The tree a file was enumerated from: the files of [vst_dir] are
    [vst/source/NAME], those of [src_dir] are below [src/]. *)
Definition root_of (path : text) : root :=
  if startswith (of_string "vst/source/") path then VstTree else StandaloneTree.

(** The set of root identifiers among the members of a group. *)
Definition root_ids (locations : list location) : list root :=
  nodup root_eq_dec (List.map (fun loc => root_of (loc_file loc)) locations).

(** Paths as the enumeration makes them: a name directly under
    [vst/source/], or a path under [src/]. *)
Definition vst_path (p : text) : Prop :=
  exists name, p = of_string "vst/source/" ++ name /\ ~ In SLASH name.

Definition standalone_path (p : text) : Prop :=
  exists rest, p = of_string "src/" ++ rest.

End DuplicationIndex.

(* ================================================================== *)
(** * agent_metrics.py: the quality assessment *)
(* ================================================================== *)

Module Metrics.
Import Issue.

(** An entry of [metrics['complex_functions']]. *)
Record func_info := {
  fn_name : text;
  fn_file : text;
  fn_line : Z;
  fn_ccn : Z
}.

(** The keys of [self.metrics] the assessment reads; a key that was never
    set is [None].  The measured averages are exact rationals here. *)
Record metrics := {
  avg_ccn : option Q;
  complex_functions : option (list func_info);
  avg_comment_ratio : option Q
}.

(** [d.get(key, default)] *)
Definition get {A} (o : option A) (default : A) : A :=
  match o with
  | Some x => x
  | None => default
  end.

Definition Qgtb (x y : Q) : bool := negb (Qle_bool x y).
Definition Qltb (x y : Q) : bool := negb (Qle_bool y x).

(** The four tests of the scoring block. *)
Definition complexity_high (m : metrics) : bool := Qgtb (get (avg_ccn m) 0%Q) 10%Q.
Definition many_complex (m : metrics) : bool := len (get (complex_functions m) []) >? 5.
Definition ratio_low (m : metrics) : bool := Qltb (get (avg_comment_ratio m) 0%Q) (1 # 10)%Q.
Definition ratio_high (m : metrics) : bool := Qgtb (get (avg_comment_ratio m) 0%Q) (1 # 2)%Q.

(** The scoring block of [generate_report], lines 282 to 294: the score
    and, for every deduction made, its amount beside the line appended to
    the report. *)
Definition scoring (m : metrics) : Z * list (Z * text) :=
  let score := 100 in
  let trail := [] in
  let '(score, trail) :=
    if complexity_high m then
      (score - 20,
       trail ++ [(20, of_string "  " ++ WARNING_SIGN
                        ++ of_string "  Average complexity above recommended threshold")])
    else (score, trail) in
  let '(score, trail) :=
    if many_complex m then
      (score - 15,
       trail ++ [(15, of_string "  " ++ WARNING_SIGN ++ of_string "  "
                        ++ decimal (len (get (complex_functions m) []))
                        ++ of_string " functions with high complexity")])
    else (score, trail) in
  let '(score, trail) :=
    if ratio_low m then
      (score - 10,
       trail ++ [(10, of_string "  " ++ WARNING_SIGN ++ of_string "  Low comment ratio (< 10%)")])
    else if ratio_high m then
      (score - 5,
       trail ++ [(5, of_string "  " ++ INFO_SIGN
                       ++ of_string "  High comment ratio (> 50%), may indicate over-documentation")])
    else (score, trail) in
  (score, trail).

Definition quality_score (m : metrics) : Z := fst (scoring m).
Definition deductions (m : metrics) : list Z := List.map fst (snd (scoring m)).

Definition sum (l : list Z) : Z := fold_right Z.add 0 l.

(** The verdict appended after the deductions, lines 296 to 303. *)
Inductive verdict := Excellent | Good | NeedsImprovement | Poor.

Definition verdict_of (score : Z) : verdict :=
  if score >=? 80 then Excellent
  else if score >=? 60 then Good
  else if score >=? 40 then NeedsImprovement
  else Poor.

Definition verdict_line (score : Z) : text :=
  let head sign := NL :: of_string "  " ++ sign in
  let tail word := of_string "Quality Score: " ++ decimal score ++ of_string "/100 - " ++ word in
  match verdict_of score with
  | Excellent => head CHECK_MARK ++ of_string " " ++ tail (of_string "Excellent!")
  | Good => head THUMBS_UP ++ of_string " " ++ tail (of_string "Good")
  | NeedsImprovement => head WARNING_SIGN ++ of_string "  " ++ tail (of_string "Needs Improvement")
  | Poor => head CROSS_MARK ++ of_string " " ++ tail (of_string "Poor")
  end.

(** Every test that holds for [m] holds for [m']. *)
Definition conditions_le (m m' : metrics) : Prop :=
  (complexity_high m = true -> complexity_high m' = true)
  /\ (many_complex m = true -> many_complex m' = true)
  /\ (ratio_low m = true -> ratio_low m' = true)
  /\ (ratio_high m = true -> ratio_high m' = true).

(** The per-function thresholds of [parse_lizard_output], lines 95 to
    126, on one entry of [function_list]. *)
Record lizard_function := {
  lz_name : text;
  lz_file : text;
  lz_line : Z;
  lz_ccn : Z;
  lz_nloc : Z;
  lz_params : Z
}.

Definition complex_of (fs : list lizard_function) : list lizard_function :=
  filter (fun f => lz_ccn f >? 15) fs.
Definition long_of (fs : list lizard_function) : list lizard_function :=
  filter (fun f => lz_nloc f >? 100) fs.
Definition high_param_of (fs : list lizard_function) : list lizard_function :=
  filter (fun f => lz_params f >? 6) fs.

End Metrics.

(* ================================================================== *)
(** * agent_ai_bias.py: commented-out code *)
(* ================================================================== *)

Module AIBias.
Import Issue.

Definition state := list issue.

(** [self.add_issue(category, file, line, message, severity)] *)
Definition add_issue (cat file : text) (line : Z) (msg : text) (sev : severity)
  : state -> state :=
  fun issues =>
    issues ++ [{| severity_of := sev; category := cat;
                  where_ := At file line; message := msg |}].

(** The characters that make a comment look like code. *)
Definition code_patterns : list char := [123; 125; 40; 41; 59; 61].

(** [stripped.startswith('//')] with a code pattern in what follows. *)
Definition is_comment (line : text) : bool :=
  startswith (of_string "//") (strip line).

Definition looks_like_code (line : text) : bool :=
  let uncommented := strip (skipn 2 (strip line)) in
  existsb (fun p => contains [p] uncommented) code_patterns.

Definition qualifies (line : text) : bool := is_comment line && looks_like_code line.

(** The loop variables of [check_dead_code] with the issues so far. *)
Record dead_code := {
  commented_code_start : option Z;
  commented_lines : Z;
  issues : state
}.

Definition report_block (file : text) (st : dead_code) : state :=
  if commented_lines st >=? 3 then
    add_issue (of_string "AI Bias - Dead Code") file
      (Metrics.get (commented_code_start st) 0)
      (of_string "Block of " ++ decimal (commented_lines st)
         ++ of_string " lines of commented-out code. Remove or uncomment.")
      WARNING (issues st)
  else issues st.

(** One iteration of [for i, line in enumerate(lines, 1)]. *)
Definition step (file : text) (st : dead_code) (il : Z * text) : dead_code :=
  let '(i, line) := il in
  if is_comment line then
    if looks_like_code line then
      {| commented_code_start :=
           match commented_code_start st with
           | None => Some i
           | Some s => Some s
           end;
         commented_lines := commented_lines st + 1;
         issues := issues st |}
    else
      {| commented_code_start := None; commented_lines := 0;
         issues := report_block file st |}
  else
    {| commented_code_start := None; commented_lines := 0;
       issues := report_block file st |}.

(** The body of the loop over files for one file, given [f.readlines()]. *)
Definition check_dead_code_file (file : text) (lines : list text) (found : state) : state :=
  issues
    (fold_left (step file) (Extractor.enumerate 1 lines)
       {| commented_code_start := None; commented_lines := 0; issues := found |}).

(** [AIBiasDetectorAgent.check_dead_code]: the files of
    [vst_dir.glob("*.cpp")] with what [readlines] gives, [None] when the
    file cannot be opened or decoded. *)
Definition check_dead_code (files : list (text * option (list text))) : Py.M state unit :=
  Py.for_each files (fun f =>
    (lines <- Py.of_option (snd f) ;;
     Py.modify (check_dead_code_file (fst f) lines))%py).

Definition with_severity (sev : severity) (l : list issue) : list issue :=
  filter (fun i => severity_eqb (severity_of i) sev) l.

Definition ROBOT : text := [129302].

(** One block of [generate_report]: the issues of one severity. *)
Definition severity_block (sev_name icon : text) (issues_list : list issue) : list text :=
  match issues_list with
  | [] => []
  | _ :: _ =>
      [icon ++ of_string " " ++ sev_name ++ of_string "S:"; repeat 45 80]
      ++ flat_map
           (fun issue =>
              [ of_string "  [" ++ category issue ++ of_string "]";
                of_string "  File: " ++ issue_file issue ++ of_string ":"
                  ++ decimal (issue_line issue);
                of_string "  " ++ LIGHT_BULB ++ of_string " " ++ message issue;
                [] ])
           issues_list
  end.

(** [AIBiasDetectorAgent.generate_report] *)
Definition generate_report (found : state) : text :=
  let errors := with_severity ERROR found in
  let warnings := with_severity WARNING found in
  let info := with_severity INFO found in
  join_lines
    ([ repeat 61 80; ROBOT ++ of_string " AI VIBE CODING BIAS REPORT"; repeat 61 80; [];
       BAR_CHART ++ of_string " Summary: " ++ decimal (len errors) ++ of_string " errors, "
         ++ decimal (len warnings) ++ of_string " warnings, "
         ++ decimal (len info) ++ of_string " info";
       [] ]
     ++ severity_block (of_string "ERROR") CROSS_MARK errors
     ++ severity_block (of_string "WARNING") WARNING_SIGN warnings
     ++ severity_block (of_string "INFO") INFO_SIGN info
     ++ (match errors, warnings, info with
         | [], [], [] => [CHECK_MARK ++ of_string " No AI bias issues found!"]
         | _, _, _ => []
         end)
     ++ [repeat 61 80]).

End AIBias.

(* ================================================================== *)
(** * agent_architecture.py: the audio callback *)
(* ================================================================== *)

Module Architecture.
Import Issue Regex Extractor.

Definition state := list issue.

(** [self.add_issue(category, file, line, message, severity)] *)
Definition add_issue (cat file : text) (line : Z) (msg : text) (sev : severity)
  : Py.M state unit :=
  Py.modify (fun issues =>
    issues ++ [{| severity_of := sev; category := cat;
                  where_ := At file line; message := msg |}]).

Section Checks.
Variable unicode_alnum : char -> bool.

(** [r'void\s+Sp3ctraAudioProcessor::processBlock\s*\([^)]+\)\s*{(.*?)\n}']
    under [re.DOTALL] *)
Definition processblock_pattern : regex :=
  seqs [ Lit (of_string "void"); Plus isspace;
         Lit (of_string "Sp3ctraAudioProcessor::processBlock");
         Star isspace;
         Lit [LPAREN]; Plus (not_char RPAREN); Lit [RPAREN];
         Star isspace;
         Lit [LBRACE];
         Group 1 (LazyStar any_char);
         Lit [NL; RBRACE] ].

(** The table [unsafe_patterns]. *)
Definition unsafe_patterns : list (regex * text) :=
  let w := isword unicode_alnum in
  [ (seqs [WordB; Lit (of_string "malloc"); Star isspace; Lit [LPAREN]],
     of_string "malloc() call (RT-unsafe)");
    (seqs [WordB; Lit (of_string "new"); Plus isspace; Plus w],
     of_string "new operator (RT-unsafe)");
    (seqs [WordB; Lit (of_string "delete"); Plus isspace],
     of_string "delete operator (RT-unsafe)");
    (seqs [WordB; Lit (of_string "std::mutex")],
     of_string "Mutex lock (RT-unsafe if blocking)");
    (seqs [WordB; Lit (of_string "printf"); Star isspace; Lit [LPAREN]],
     of_string "printf() call (RT-unsafe)");
    (seqs [WordB; Lit (of_string "juce::Logger")],
     of_string "Logger call (RT-unsafe, use in non-RT thread only)");
    (seqs [WordB; Lit (of_string "std::cout")],
     of_string "std::cout (RT-unsafe)") ].

Definition processor_path : text := of_string "vst/source/PluginProcessor.cpp".

Definition found (r : regex) (s : text) : bool :=
  Normalizer.is_some (re_search unicode_alnum r s).

(** [ArchitectureReviewAgent.check_rt_audio_safety]; the argument is what
    reading [PluginProcessor.cpp] gives, [None] when it cannot be read. *)
Definition check_rt_audio_safety (processor : option text) : Py.M state unit :=
  (content <- Py.of_option processor ;;
   match re_search unicode_alnum processblock_pattern content with
   | Some m =>
       let processblock_code := Metrics.get (group m 1) [] in
       Py.for_each (enumerate 1 (split_lines processblock_code)) (fun il =>
         Py.for_each unsafe_patterns (fun pd =>
           if found (fst pd) (snd il)
              && negb (startswith (of_string "//") (strip (snd il)))
           then
             add_issue (of_string "RT-Audio Safety") processor_path (fst il)
               (snd pd ++ of_string " in processBlock: " ++ strip (snd il)) ERROR
           else Py.ret tt))
   | None => Py.ret tt
   end)%py.

End Checks.

End Architecture.

(* ================================================================== *)
(** * run_code_review.py: the orchestrator *)
(* ================================================================== *)

Module Orchestrator.
Import Issue.

(** A registered agent: its name and what [agent.run()] does to
    [agent.issues], ending with the report or with an exception. *)
Record agent := {
  agent_name : text;
  run : Py.M (list issue) text
}.

(** [agent.issues] after [run()], and whether [run()] returned. *)
Definition issues_after (a : agent) : list issue := snd (run a []).
Definition report_of (a : agent) : option text := fst (run a []).

(** An element of [all_issues[severity]]. *)
Definition item := (text * issue)%type.
Definition item_agent (x : item) : text := fst x.
Definition item_issue (x : item) : issue := snd x.

(** [self.individual_reports] and [self.all_issues]. *)
Record orchestrator := {
  individual_reports : list (text * text);
  errors : list item;
  warnings : list item;
  infos : list item
}.

Definition empty : orchestrator :=
  {| individual_reports := []; errors := []; warnings := []; infos := [] |}.

(** [self.all_issues[severity]] *)
Definition bucket (sev : severity) (o : orchestrator) : list item :=
  match sev with
  | ERROR => errors o
  | WARNING => warnings o
  | INFO => infos o
  end.

(** [self.all_issues[severity].append({'agent': agent_name, 'issue': issue})] *)
Definition collect (name : text) (o : orchestrator) (i : issue) : orchestrator :=
  match severity_of i with
  | ERROR =>
      {| individual_reports := individual_reports o; errors := errors o ++ [(name, i)];
         warnings := warnings o; infos := infos o |}
  | WARNING =>
      {| individual_reports := individual_reports o; errors := errors o;
         warnings := warnings o ++ [(name, i)]; infos := infos o |}
  | INFO =>
      {| individual_reports := individual_reports o; errors := errors o;
         warnings := warnings o; infos := infos o ++ [(name, i)] |}
  end.

(** The body of the loop of [run_all_agents]: the [try] block and its
    [except Exception], which only prints. *)
Definition run_agent (o : orchestrator) (a : agent) : orchestrator :=
  match run a [] with
  | (Some report, found) =>
      let o' :=
        {| individual_reports := individual_reports o ++ [(agent_name a, report)];
           errors := errors o; warnings := warnings o; infos := infos o |} in
      fold_left (collect (agent_name a)) found o'
  | (None, _) => o
  end.

(** [CodeReviewOrchestrator.run_all_agents] *)
Definition run_all_agents (agents : list agent) : orchestrator :=
  fold_left run_agent agents empty.

(** What an agent adds to a bucket: its issues of that severity under
    its name when [run()] returned, nothing when it raised. *)
Definition contribution (sev : severity) (a : agent) : list item :=
  match report_of a with
  | Some _ =>
      List.map (fun i => (agent_name a, i))
        (filter (fun i => severity_eqb (severity_of i) sev) (issues_after a))
  | None => []
  end.

(** The reports and the issues of the agents whose [run()] returned. *)
Definition returned_reports (agents : list agent) : list (text * text) :=
  flat_map
    (fun a => match report_of a with
              | Some report => [(agent_name a, report)]
              | None => []
              end)
    agents.

Definition returned_issues (agents : list agent) : list issue :=
  flat_map
    (fun a => match report_of a with
              | Some _ => issues_after a
              | None => []
              end)
    agents.

(** [any(key in cat for cat in categories)] over the categories of a
    bucket. *)
Definition any_category (key : string) (items : list item) : bool :=
  existsb (fun x => contains (of_string key) (category (item_issue x))) items.

Definition rt_safety_text : text :=
  of_string ("CRITICAL: Fix RT-audio safety violations in processBlock(). "
             ++ "Remove any malloc/new/logging/mutex operations from the audio callback.").
Definition architecture_text : text :=
  of_string ("Review architectural separation of concerns. Ensure PluginProcessor, "
             ++ "Sp3ctraCore, and UI components have clear responsibilities.").
Definition duplication_text : text :=
  of_string ("Refactor duplicated code into shared libraries. This will improve "
             ++ "maintainability and reduce the risk of divergent implementations.").
Definition ai_bias_text : text :=
  of_string ("Clean up AI-generated code artifacts (excessive comments, placeholders, "
             ++ "dead code). This will improve code readability and maintainability.").
Definition ui_text : text :=
  of_string ("Standardize UI components (colors, fonts, layouts). Create a theme/style "
             ++ "guide to ensure consistent user experience.").
Definition config_text : text :=
  of_string ("Ensure all VST configuration uses APVTS for DAW integration. "
             ++ "Avoid .ini file dependencies in plugin code.").
Definition isolation_text : text :=
  of_string ("Verify that multiple VST instances can coexist without conflicts. "
             ++ "Eliminate global state and singleton patterns.").
Definition positive_text : text :=
  of_string "Code quality looks good! Continue maintaining best practices.".

(** The rules of [_generate_recommendations] on the warning categories,
    in the order the method tries them. *)
Definition warning_rules : list (string * text) :=
  [ ("Architecture", architecture_text);
    ("Duplication", duplication_text);
    ("AI Bias", ai_bias_text);
    ("UI", ui_text);
    ("Config", config_text);
    ("Instance Isolation", isolation_text) ]%string.

(** [CodeReviewOrchestrator._generate_recommendations] *)
Definition generate_recommendations (o : orchestrator) : list text :=
  let recommendations := [] in
  let recommendations :=
    if any_category "RT-Audio Safety" (errors o)
    then recommendations ++ [rt_safety_text] else recommendations in
  let recommendations :=
    fold_left
      (fun recs rule =>
         if any_category (fst rule) (warnings o) then recs ++ [snd rule] else recs)
      warning_rules recommendations in
  match recommendations with
  | [] => [positive_text]
  | _ :: _ => recommendations
  end.

Definition rule (c : char) : text := repeat c 80.

(** The critical-issues part of [generate_consolidated_report], lines 107
    to 119: the lines appended to [report]. *)
Definition critical_lines (o : orchestrator) : list text :=
  if len (errors o) >? 0 then
    [SIREN ++ of_string " CRITICAL ISSUES (Errors):"; rule 45]
    ++ flat_map
         (fun x =>
            let issue := item_issue x in
            [ of_string "  [" ++ item_agent x ++ of_string "] " ++ category issue;
              of_string "  Location: " ++ issue_file issue ++ of_string ":"
                ++ decimal (issue_line issue);
              of_string "  Message: " ++ message issue;
              [] ])
         (errors o)
  else [CHECK_MARK ++ of_string " No critical errors found!"; []].

(** The recommendation lines, lines 126 to 129. *)
Definition recommendation_lines (o : orchestrator) : list text :=
  List.map (fun ir => decimal (fst ir) ++ of_string ". " ++ snd ir)
    (Extractor.enumerate 1 (generate_recommendations o)).

(** [s.replace(" ", "_")] *)
Definition replace_space (s : text) : text :=
  List.map (fun c => if c =? SPACE then 95 else c) s.

Section Main.

(** The directory of the reports, the paths that can be written, and the
    texts [generate_consolidated_report] and [json.dumps] give for the
    whole state. *)
Variable reports_dir : text.
Variable writable : text -> bool.
Variable consolidated_text : orchestrator -> text.
Variable summary_json : orchestrator -> text.

(** The interpreter's [str.lower]. *)
Variable str_lower : text -> text.

(** [agent_name.lower().replace(" ", "_") + "_report.txt"]: the file name
    of an agent's report. *)
Definition report_filename (name : text) : text :=
  replace_space (str_lower name) ++ of_string "_report.txt".

Definition files := Dict.dict text text.

(** [path.write_text(content)] *)
Definition write_text (path content : text) : Py.M files unit :=
  fun fs =>
    if writable path then (Some tt, Dict.set text_eqb fs path content)
    else (None, fs).

Definition in_reports (name : text) : text := reports_dir ++ SLASH :: name.

(** [CodeReviewOrchestrator.save_reports] *)
Definition save_reports (o : orchestrator) : Py.M files text :=
  (Py.for_each (individual_reports o) (fun nr =>
     write_text (in_reports (report_filename (fst nr))) (snd nr)) ;;;
   write_text (in_reports (of_string "CONSOLIDATED_REPORT.txt")) (consolidated_text o) ;;;
   write_text (in_reports (of_string "summary.json")) (summary_json o) ;;;
   Py.ret (in_reports (of_string "CONSOLIDATED_REPORT.txt")))%py.

(** [main]: run the agents, save the reports, return 0. *)
Definition main (agents : list agent) : Py.M files Z :=
  let orchestrator := run_all_agents agents in
  (_ <- save_reports orchestrator ;;
   Py.ret 0)%py.

(** The status [sys.exit(main())] ends the process with: the value
    returned, or 1 when an exception reaches the top. *)
Definition exit_code (agents : list agent) (fs : files) : Z :=
  match fst (main agents fs) with
  | Some status => status
  | None => 1
  end.

End Main.

(** The key of the order the specification names: category, then file,
    then line. *)
Fixpoint text_compare (a b : text) : comparison :=
  match a, b with
  | [], [] => Eq
  | [], _ :: _ => Lt
  | _ :: _, [] => Gt
  | x :: a', y :: b' =>
      match x ?= y with
      | Eq => text_compare a' b'
      | c => c
      end
  end.

Definition key_compare (i j : issue) : comparison :=
  match text_compare (category i) (category j) with
  | Eq =>
      match text_compare (issue_file i) (issue_file j) with
      | Eq => issue_line i ?= issue_line j
      | c => c
      end
  | c => c
  end.

Definition key_le (x y : item) : Prop := key_compare (item_issue x) (item_issue y) <> Gt.

End Orchestrator.

(* ================================================================== *)
(** * Notions the further properties are stated with *)
(* ================================================================== *)

Module Slices.

(** The lines of a file from line [first] to line [last], counted from 1. *)
Definition lines_between (lines : list text) (first last : Z) : list text :=
  skipn (Z.to_nat (first - 1)) (firstn (Z.to_nat last) lines).

End Slices.

Module RegexShape.
Import Regex.

(** A pattern without a capturing group. *)
Fixpoint groupless (r : regex) : bool :=
  match r with
  | Group _ _ => false
  | Seq r1 r2 => groupless r1 && groupless r2
  | _ => true
  end.

End RegexShape.

Module DeadCodeSpec.
Import Issue AIBias.

(** The issue for a block of [count] lines that starts at line [first]. *)
Definition block_issue (file : text) (first count : Z) : issue :=
  {| severity_of := WARNING;
     category := of_string "AI Bias - Dead Code";
     where_ := At file first;
     message := of_string "Block of " ++ decimal count
                  ++ of_string " lines of commented-out code. Remove or uncomment." |}.

(** A file ends in a line that does not extend a run, or has no line. *)
Definition run_closed (lines : list text) : Prop :=
  lines = [] \/ exists before l, lines = before ++ [l] /\ qualifies l = false.

End DeadCodeSpec.

Module Encoding.

(** A Unicode scalar value: a code point that is not a surrogate. *)
Definition scalar (c : char) : Prop :=
  0 <= c < 1114112 /\ ~ (55296 <= c <= 57343).

End Encoding.

Module CallbackSpec.
Import Issue Regex Architecture.

(** What an issue of the audio callback check says about a line of the
    captured body: the number counts the lines of the body from 1. *)
Definition flags (unicode_alnum : char -> bool) (body : list text) (x : issue) : Prop :=
  severity_of x = ERROR
  /\ category x = of_string "RT-Audio Safety"
  /\ exists n l pd,
       where_ x = At processor_path (Z.of_nat n + 1)
       /\ nth_error body n = Some l
       /\ startswith (of_string "//") (strip l) = false
       /\ In pd (unsafe_patterns unicode_alnum)
       /\ found unicode_alnum (fst pd) l = true
       /\ message x = snd pd ++ of_string " in processBlock: " ++ strip l.

End CallbackSpec.

Module IndexSpec.
Import Issue Extractor DuplicationIndex Encoding.

(** What reading a file gives when it can be opened and decoded: a text
    of Unicode scalar values. *)
Definition decoded (f : source_file) : Prop :=
  match snd f with
  | Some content => Forall scalar content
  | None => True
  end.

(** The files the three loops of [find_duplicate_functions] scan, in the
    order they scan them. *)
Definition scanned (vst_cpp src_c src_cpp : list source_file) : list source_file :=
  filter (fun f => negb (text_eqb (file_name (fst f)) (of_string "global_stubs.c"))) vst_cpp
  ++ src_c ++ src_cpp.

(** [loc] is the entry of a function extracted from one of the files,
    and [h] is the digest of its text. *)
Definition indexed (unicode_alnum : char -> bool) (files : list source_file)
  (h : string) (loc : location) : Prop :=
  exists f s,
    In f files
    /\ In s (extract_functions unicode_alnum (snd f))
    /\ loc = (fst f, span_name s, span_start s)
    /\ Normalizer.get_code_hash (span_code s) = Some h.

End IndexSpec.

(* ================================================================== *)
(** * agent_ai_bias.py: naming styles *)
(* ================================================================== *)

Module Finder.
Import Regex.

Section Findall.
Variable unicode_alnum : char -> bool.

(** One attempt at a position: the groups of the match and the number
    of characters left after it. *)
Definition match_at (r : regex) (pv : option char) (s : text) : option (match_obj * nat) :=
  run unicode_alnum r (fun st => Some (caps st, List.length (rest st)))
    {| prev := pv; rest := s; caps := [] |}.

(** [re.finditer] for a pattern that matches no empty text: the matches
    from left to right, each search starting where the match before
    ended.  [skip] counts the characters of the last match still to pass. *)
Fixpoint finditer_from (r : regex) (skip : nat) (pv : option char) (s : text)
  : list match_obj :=
  match s with
  | [] => []
  | c :: s' =>
      match skip with
      | S n => finditer_from r n (Some c) s'
      | O =>
          match match_at r pv s with
          | Some (m, remaining) =>
              m :: finditer_from r (List.length s - remaining - 1) (Some c) s'
          | None => finditer_from r 0 (Some c) s'
          end
      end
  end.

(** [re.findall(r, s)] for a pattern with one group: the texts of the
    group. *)
Definition findall (r : regex) (s : text) : list text :=
  List.map (fun m => Metrics.get (group m 1) []) (finditer_from r 0 None s).

End Findall.

End Finder.

Module Naming.
Import Issue Regex Finder.

Inductive style := camelCase | PascalCase | snake_case | UPPER_CASE.

(** The keys of [naming_styles], in the order of the dictionary. *)
Definition styles : list style := [camelCase; PascalCase; snake_case; UPPER_CASE].

Definition style_name (s : style) : text :=
  match s with
  | camelCase => of_string "camelCase"
  | PascalCase => of_string "PascalCase"
  | snake_case => of_string "snake_case"
  | UPPER_CASE => of_string "UPPER_CASE"
  end.

Definition UNDERSCORE : char := 95.

(** The classes [a-z], [A-Z] and [0-9]. *)
Definition is_lower (c : char) : bool := (97 <=? c) && (c <=? 122).
Definition is_upper (c : char) : bool := (65 <=? c) && (c <=? 90).
Definition is_digit (c : char) : bool := (48 <=? c) && (c <=? 57).

(** [[a-z_]], [[a-zA-Z0-9_]] and [[=\(]] *)
Definition ident_start (c : char) : bool := is_lower c || (c =? UNDERSCORE).
Definition ident_char (c : char) : bool :=
  is_lower c || is_upper c || is_digit c || (c =? UNDERSCORE).
Definition assign_or_call (c : char) : bool := (c =? 61) || (c =? 40).

(** [r'\b(ID)\s*[=\(]'] where [ID] stands for [[a-z_]] followed by
    [[a-zA-Z0-9_]] under a star *)
Definition identifier_pattern : regex :=
  seqs [ WordB;
         Group 1 (Seq (Cls ident_start) (Star ident_char));
         Star isspace;
         Cls assign_or_call ].

(** [r'^[a-z]+[A-Z]'] and [r'^[A-Z][a-z]+[A-Z]'] *)
Definition camel_pattern : regex := seqs [Bol; Plus is_lower; Cls is_upper].
Definition pascal_pattern : regex := seqs [Bol; Cls is_upper; Plus is_lower; Cls is_upper].

(** [', '.join(l)] *)
Fixpoint join_comma (l : list text) : text :=
  match l with
  | [] => []
  | [x] => x
  | x :: l' => x ++ of_string ", " ++ join_comma l'
  end.

(** Code points of ASCII, and the case mappings on them. *)
Definition ascii (c : char) : Prop := 0 <= c < 128.
Definition ascii_lower (s : text) : text :=
  List.map (fun c => if is_upper c then c + 32 else c) s.
Definition ascii_upper (s : text) : text :=
  List.map (fun c => if is_lower c then c - 32 else c) s.

(** The count per file of one style, a [defaultdict(int)], and the four
    of [naming_styles]. *)
Definition counts := Dict.dict text Z.

Record naming_styles := {
  camel : counts;
  pascal : counts;
  snake : counts;
  upper : counts
}.

Definition no_counts : naming_styles :=
  {| camel := []; pascal := []; snake := []; upper := [] |}.

(** [naming_styles[style]] *)
Definition table (ns : naming_styles) (s : style) : counts :=
  match s with
  | camelCase => camel ns
  | PascalCase => pascal ns
  | snake_case => snake ns
  | UPPER_CASE => upper ns
  end.

(** [d[file] += 1] *)
Definition bump (d : counts) (file : text) : counts :=
  Dict.set text_eqb d file (Metrics.get (Dict.get text_eqb d file) 0 + 1).

Definition bump_style (ns : naming_styles) (s : style) (file : text) : naming_styles :=
  match s with
  | camelCase =>
      {| camel := bump (camel ns) file; pascal := pascal ns;
         snake := snake ns; upper := upper ns |}
  | PascalCase =>
      {| camel := camel ns; pascal := bump (pascal ns) file;
         snake := snake ns; upper := upper ns |}
  | snake_case =>
      {| camel := camel ns; pascal := pascal ns;
         snake := bump (snake ns) file; upper := upper ns |}
  | UPPER_CASE =>
      {| camel := camel ns; pascal := pascal ns;
         snake := snake ns; upper := bump (upper ns) file |}
  end.

Section Check.

(** The interpreter's table for [\w], its [str.lower] and [str.upper],
    and the order in which it iterates over the set of these strings. *)
Variable unicode_alnum : char -> bool.
Variables str_lower str_upper : text -> text.
Variable set_order : list text -> list text.

(** [re.findall] of the identifier pattern in [content] *)
Definition identifiers (content : text) : list text :=
  findall unicode_alnum identifier_pattern content.

(** The [if]/[elif] chain on one identifier: the style counted, if any. *)
Definition style_of (identifier : text) : option style :=
  if Normalizer.is_some (re_match unicode_alnum camel_pattern identifier) then
    Some camelCase
  else if Normalizer.is_some (re_match unicode_alnum pascal_pattern identifier) then
    Some PascalCase
  else if contains [UNDERSCORE] identifier && text_eqb (str_lower identifier) identifier then
    Some snake_case
  else if text_eqb (str_upper identifier) identifier && (len identifier >? 2) then
    Some UPPER_CASE
  else None.

Definition count_identifier (file : text) (ns : naming_styles) (identifier : text)
  : naming_styles :=
  match style_of identifier with
  | Some s => bump_style ns s file
  | None => ns
  end.

(** The body of the loop over the files; [None] when the file cannot be
    opened or decoded. *)
Definition count_file (ns : naming_styles) (f : text * option text) : option naming_styles :=
  match snd f with
  | Some content => Some (fold_left (count_identifier (fst f)) (identifiers content) ns)
  | None => None
  end.

Definition count_files (files : list (text * option text)) : option naming_styles :=
  fold_left
    (fun acc f => match acc with Some ns => count_file ns f | None => None end)
    files (Some no_counts).

(** The keys of the four tables, of which the loop takes the set. *)
Definition all_files (ns : naming_styles) : list text :=
  flat_map (fun s => List.map fst (table ns s)) styles.

(** [[style for style, files in naming_styles.items()
      if file in files and files[file] > 5]] *)
Definition styles_used (ns : naming_styles) (file : text) : list style :=
  filter
    (fun s => match Dict.get text_eqb (table ns s) file with
              | Some n => n >? 5
              | None => false
              end)
    styles.

Definition report_file (ns : naming_styles) (file : text) : Py.M AIBias.state unit :=
  let used := styles_used ns file in
  if len used >? 2 then
    Py.modify
      (AIBias.add_issue (of_string "AI Bias - Inconsistent Naming") file 0
         (of_string "File uses " ++ decimal (len used)
            ++ of_string " different naming styles: "
            ++ join_comma (List.map style_name used))
         WARNING)
  else Py.ret tt.

(** [AIBiasDetectorAgent.check_inconsistent_naming]: the files of
    [vst_dir.glob("*.cpp")] with what [f.read()] gives. *)
Definition check_inconsistent_naming (files : list (text * option text))
  : Py.M AIBias.state unit :=
  (ns <- Py.of_option (count_files files) ;;
   Py.for_each (set_order (all_files ns)) (report_file ns))%py.

End Check.

(** What the identifier pattern captures: a lower-case letter or an
    underscore, then letters, digits and underscores. *)
Definition shaped (identifier : text) : Prop :=
  exists c r,
    identifier = c :: r
    /\ ident_start c = true
    /\ Forall (fun d => ident_char d = true) r.

(** The only issue the check can give for a file. *)
Definition three_styles_issue (file : text) : issue :=
  {| severity_of := WARNING;
     category := of_string "AI Bias - Inconsistent Naming";
     where_ := At file 0;
     message :=
       of_string "File uses 3 different naming styles: camelCase, snake_case, UPPER_CASE" |}.

End Naming.

(* ================================================================== *)
(** * agent_metrics.py: the file metrics *)
(* ================================================================== *)

Module FileMetrics.
Import Metrics.

(** An entry of [metrics['file_metrics']]. *)
Record file_metric := {
  fm_file : text;
  total_lines : Z;
  code_lines : Z;
  comment_lines : Z;
  blank_lines : Z;
  functions : Z;
  comment_ratio : Q
}.

(** [self.metrics]: the keys the assessment reads and the keys
    [calculate_file_metrics] sets besides. *)
Record agent_metrics := {
  scored : metrics;
  file_metrics : option (list file_metric);
  total_files : option Z;
  total_code_lines : option Z;
  total_comment_lines : option Z
}.

(** [self.metrics = {}] *)
Definition no_metrics : agent_metrics :=
  {| scored := {| avg_ccn := None; complex_functions := None; avg_comment_ratio := None |};
     file_metrics := None; total_files := None;
     total_code_lines := None; total_comment_lines := None |}.

(** [not line.strip()] *)
Definition is_blank (line : text) : bool :=
  match strip line with
  | [] => true
  | _ :: _ => false
  end.

(** The test of a comment line: the stripped line starts with [//],
    with a slash and a star, or with a star. *)
Definition is_comment_line (line : text) : bool :=
  let stripped := strip line in
  startswith (of_string "//") stripped
  || startswith [SLASH; STAR] stripped
  || startswith [STAR] stripped.

(** [sum(1 for line in lines if test(line))] *)
Definition count_lines (test : text -> bool) (lines : list text) : Z :=
  fold_left (fun n line => if test line then n + 1 else n) lines 0.

(** [sum(values)] on integers: from 0, left to right. *)
Definition sum_Z (values : list Z) : Z := fold_left Z.add values 0.

Section Agent.

(** The number of matches of the function heuristic in the text of a
    file, [len(re.findall(..., re.MULTILINE))], and what the analysis with
    lizard does to [self.metrics] when the tool is there. *)
Variable count_functions : text -> Z.
Variable lizard_analysis : agent_metrics -> agent_metrics.

(** The interpreter's floating-point arithmetic, a float being given by
    its exact value: [a / b] on two integers, [sum(values)] on a list of
    floats that is not empty, and [x / n] on a float and an integer. *)
Variable int_true_div : Z -> Z -> Q.
Variable float_sum : list Q -> Q.
Variable float_div_int : Q -> Z -> Q.

(** The body of the loop over the files, given [cpp_file.name] and
    [f.readlines()]. *)
Definition measure (name : text) (lines : list text) : file_metric :=
  let total := len lines in
  let blank := count_lines is_blank lines in
  let comment := count_lines is_comment_line lines in
  {| fm_file := name;
     total_lines := total;
     code_lines := total - blank - comment;
     comment_lines := comment;
     blank_lines := blank;
     functions := count_functions (List.concat lines);
     comment_ratio := if total >? 0 then int_true_div comment total else 0%Q |}.

(** The loop over [vst_dir.glob("*.cpp")]: [None] when a file cannot be
    opened. *)
Fixpoint measure_files (files : list (text * option (list text)))
  : option (list file_metric) :=
  match files with
  | [] => Some []
  | (name, Some lines) :: files' =>
      match measure_files files' with
      | Some rest => Some (measure name lines :: rest)
      | None => None
      end
  | (_, None) :: _ => None
  end.

(** [CodeMetricsAgent.calculate_file_metrics] *)
Definition calculate_file_metrics (files : list (text * option (list text)))
  : Py.M agent_metrics unit :=
  (fms <- Py.of_option (measure_files files) ;;
   Py.modify (fun st =>
     {| scored :=
          {| avg_ccn := avg_ccn (scored st);
             complex_functions := complex_functions (scored st);
             avg_comment_ratio :=
               Some (match fms with
                     | [] => 0%Q
                     | _ :: _ =>
                         float_div_int (float_sum (List.map comment_ratio fms)) (len fms)
                     end) |};
        file_metrics := Some fms;
        total_files := Some (len fms);
        total_code_lines := Some (sum_Z (List.map code_lines fms));
        total_comment_lines := Some (sum_Z (List.map comment_lines fms)) |}))%py.

(** [CodeMetricsAgent.run_lizard_analysis]: nothing when lizard is not
    installed. *)
Definition run_lizard_analysis (lizard_available : bool) : Py.M agent_metrics unit :=
  if lizard_available then Py.modify lizard_analysis else Py.ret tt.

(** [CodeMetricsAgent.run] up to the report: the metrics the report is
    made from. *)
Definition run (lizard_available : bool) (files : list (text * option (list text)))
  : Py.M agent_metrics unit :=
  (calculate_file_metrics files ;;;
   run_lizard_analysis lizard_available)%py.

End Agent.

(** The counts of an entry are not negative and add up to the lines of
    the file. *)
Definition consistent (fm : file_metric) : Prop :=
  0 <= code_lines fm /\ 0 <= comment_lines fm /\ 0 <= blank_lines fm
  /\ total_lines fm = code_lines fm + comment_lines fm + blank_lines fm.

End FileMetrics.

(* ================================================================== *)
(** * agent_duplication.py: configuration handling *)
(* ================================================================== *)

Module ConfigHandling.
Import Issue DuplicationIndex.

Definition config_patterns : list text :=
  List.map of_string ["udp_port"; "udp_address"; "sensor_dpi"; "log_level"]%string.

(** An element of [config_handlers[pattern]]: file, line number and the
    stripped line. *)
Definition handler := (text * Z * text)%type.

Definition handler_file (h : handler) : text := fst (fst h).
Definition handler_line (h : handler) : Z := snd (fst h).

Definition text_eq_dec : forall a b : text, {a = b} + {a <> b} := list_eq_dec Z.eq_dec.

(** [len(set(h[0] for h in handlers))] *)
Definition unique_files (handlers : list handler) : Z :=
  len (nodup text_eq_dec (List.map handler_file handlers)).

Section Check.

(** The interpreter's [str.lower]. *)
Variable str_lower : text -> text.

(** [[(i+1, line) for i, line in enumerate(lines) if pattern in line.lower()]] *)
Definition matches (pattern : text) (lines : list text) : list (Z * text) :=
  List.map (fun il => (fst il + 1, snd il))
    (filter (fun il => contains pattern (str_lower (snd il)))
       (Extractor.enumerate 0 lines)).

(** [config_handlers[pattern].extend(new)] on a [defaultdict(list)]. *)
Definition extend (config_handlers : Dict.dict text (list handler)) (pattern : text)
  (new : list handler) : Dict.dict text (list handler) :=
  Dict.set text_eqb config_handlers pattern
    (Metrics.get (Dict.get text_eqb config_handlers pattern) [] ++ new).

(** The body of the loop over the files, given the path and [f.read()]. *)
Definition scan_file (config_handlers : Dict.dict text (list handler))
  (path content : text) : Dict.dict text (list handler) :=
  let lines := split_lines content in
  fold_left
    (fun handlers pattern =>
       let found := matches pattern lines in
       if nonempty found then
         extend handlers pattern
           (List.map (fun m => (path, fst m, strip (snd m))) found)
       else handlers)
    config_patterns config_handlers.

(** The loop over [vst_dir.glob("*.cpp")]; [None] when a file cannot be
    opened or decoded. *)
Fixpoint scan_files (config_handlers : Dict.dict text (list handler))
  (files : list (text * option text)) : option (Dict.dict text (list handler)) :=
  match files with
  | [] => Some config_handlers
  | (path, Some content) :: files' => scan_files (scan_file config_handlers path content) files'
  | (_, None) :: _ => None
  end.

(** The issue for a key handled in too many files. *)
Definition config_issue (config_key : text) (handlers : list handler) : issue :=
  {| severity_of := WARNING;
     category := of_string "Code Duplication - Config Handling";
     where_ := Locations (List.map (fun h => (handler_file h, handler_line h)) handlers);
     message :=
       of_string "Configuration '" ++ config_key ++ of_string "' is handled in "
         ++ decimal (unique_files handlers)
         ++ of_string " different files. Consider centralizing." |}.

(** [DuplicationDetectorAgent.find_duplicate_config_handling] *)
Definition find_duplicate_config_handling (files : list (text * option text))
  : Py.M state unit :=
  (config_handlers <- Py.of_option (scan_files [] files) ;;
   Py.for_each config_handlers (fun entry =>
     let handlers := snd entry in
     if unique_files handlers >? 2 then
       add_issue (of_string "Code Duplication - Config Handling")
         (List.map (fun h => (handler_file h, handler_line h)) handlers)
         (of_string "Configuration '" ++ fst entry ++ of_string "' is handled in "
            ++ decimal (unique_files handlers)
            ++ of_string " different files. Consider centralizing.")
         WARNING
     else Py.ret tt))%py.

End Check.

(** What an issue of the check says: a WARNING of the category, for one
    of the four keys, over lines of at least three of the files. *)
Definition spread (files : list (text * option text)) (i : issue) : Prop :=
  exists config_key handlers,
    i = config_issue config_key handlers
    /\ In config_key config_patterns
    /\ 3 <= unique_files handlers
    /\ incl (List.map handler_file handlers) (List.map fst files).

End ConfigHandling.

Module SpanSpec.
Import Extractor.

(** As many opening as closing braces. *)
Definition even_braces (code : text) : Prop :=
  count_char LBRACE code = count_char RBRACE code.

End SpanSpec.

(* ================================================================== *)
(** * What a dictionary keeps of a list of assignments *)
(* ================================================================== *)

Module SpanOrder.
Import Extractor.

(** Two spans share no line. *)
Definition span_apart (a b : span) : Prop := span_before a b \/ span_before b a.

(** The names of a list, each at the place of its first occurrence. *)
Fixpoint first_occurrences (names : list text) : list text :=
  match names with
  | [] => []
  | n :: r => n :: filter (fun m => negb (text_eqb n m)) (first_occurrences r)
  end.

(** The text and first line of the last span of a list under a name. *)
Fixpoint last_under (name : text) (spans : list span) : option (text * Z) :=
  match spans with
  | [] => None
  | s :: r =>
      match last_under name r with
      | Some v => Some v
      | None => if text_eqb (span_name s) name then Some (snd s) else None
      end
  end.

End SpanOrder.

(* ================================================================== *)
(** * Texts that differ in white space and comments *)
(* ================================================================== *)

Module Comments.
Import Normalizer.

(** The last character is a slash. *)
Fixpoint ends_slash (s : text) : bool :=
  match s with
  | [] => false
  | c :: r =>
      match r with
      | [] => c =? SLASH
      | _ :: _ => ends_slash r
      end
  end.

(** The text ends inside a line comment: its last line has two adjacent
    slashes.  The flag says whether the line had them before the text. *)
Fixpoint line_open (open : bool) (s : text) : bool :=
  match s with
  | [] => open
  | c :: r =>
      if open then line_open (negb (c =? NL)) r
      else line_open ((c =? SLASH) && head_is SLASH r) r
  end.

(** No line feed. *)
Definition one_line (s : text) : bool := forallb (fun c => negb (c =? NL)) s.

(** The text is at the end of a line: nothing follows, or a line feed. *)
Definition ends_line (s : text) : bool :=
  match s with
  | [] => true
  | c :: _ => c =? NL
  end.

(** No [/*]. *)
Fixpoint no_open (s : text) : bool :=
  match s with
  | [] => true
  | c :: r => negb ((c =? SLASH) && head_is STAR r) && no_open r
  end.

(** Two texts differ only in white space and comments:
    - in the make-up of their white-space runs ([same_layout]);
    - in a white-space character at the start or at the end;
    - in what a line has after a [//];
    - in a line comment, from a [//] that follows no slash to the end of
      its line, that one has and the other has not;
    - in a block comment that one has and the other has not: the first
      [/*] of the text, outside a line comment and after no slash, up to
      the first [*/] after it, with no [//] inside and no slash just
      after. *)
Inductive same_code : text -> text -> Prop :=
| code_refl x : same_code x x
| code_sym x y : same_code x y -> same_code y x
| code_trans x y z : same_code x y -> same_code y z -> same_code x z
| code_layout x y : same_layout x y -> same_code x y
| code_edge_l w x : isspace w = true -> same_code (w :: x) x
| code_edge_r w x : isspace w = true -> same_code (x ++ [w]) x
| code_line_text u c1 c2 v :
    one_line c1 = true -> one_line c2 = true ->
    same_code (u ++ SLASH :: SLASH :: c1 ++ v) (u ++ SLASH :: SLASH :: c2 ++ v)
| code_line_comment u c v :
    ends_slash u = false -> one_line c = true -> ends_line v = true ->
    same_code (u ++ SLASH :: SLASH :: c ++ v) (u ++ v)
| code_block_comment u c v :
    no_open u = true -> line_open false u = false -> ends_slash u = false ->
    no_dslash c = true -> find_close c = None ->
    head_is SLASH v = false ->
    same_code (u ++ SLASH :: STAR :: c ++ STAR :: SLASH :: v) (u ++ v).

End Comments.
(* ================================================================== *)
(** * Sample inputs *)
(* ================================================================== *)

Module Samples.

(** A table for inputs that are ASCII only: [\w] never consults it. *)
Definition ascii_table : char -> bool := fun _ => false.

(** A file given line by line. *)
Definition file_of (lines : list string) : text :=
  join_lines (List.map of_string lines).

(** Two functions with different names. *)
Definition two_functions : text :=
  file_of
    [ "static int foo(int a) {";
      "  int result = a + 1; /* first function, padded so that the text is long enough */";
      "  return result + 0 + 0 + 0;";
      "}";
      "static int bar(int a) {";
      "  int result = a + 2; /* second function, padded so that the text is long enough */";
      "  return result + 0 + 0 + 0;";
      "}" ]%string.

(** The same with an overload of the first function after the second. *)
Definition overloaded_functions : text :=
  file_of
    [ "static int foo(int a) {";
      "  int result = a + 1; /* first function, padded so that the text is long enough */";
      "  return result + 0 + 0 + 0;";
      "}";
      "static int bar(int a) {";
      "  int result = a + 2; /* second function, padded so that the text is long enough */";
      "  return result + 0 + 0 + 0;";
      "}";
      "static int foo(float a) {";
      "  int result = (int) a + 3; /* an overload, padded so that the text is long enough */";
      "  return result + 0 + 0 + 0;";
      "}" ]%string.

(** One function of more than 100 characters. *)
Definition one_function : text :=
  file_of
    [ "static int foo(int a) {";
      "  int result = a + 1; /* first function, padded so that the text is long enough */";
      "  return result + 0 + 0 + 0;";
      "}" ]%string.

(** Two files of the standalone tree, in a directory named [vst], with
    the same function. *)
Definition standalone_vst_dir : list (text * option text) :=
  [ (of_string "src/vst/adapter_a.c", Some one_function);
    (of_string "src/vst/adapter_b.c", Some one_function) ].

(** One file of each tree with the same function. *)
Definition plugin_file : list (text * option text) :=
  [ (of_string "vst/source/Core.cpp", Some one_function) ].

Definition standalone_file : list (text * option text) :=
  [ (of_string "src/core/core.c", Some one_function) ].

(** A file with a block of three commented-out statements and a
    statement after it, and a file that cannot be read. *)
Definition commented_file : text * option (list text) :=
  (of_string "vst/source/Y.cpp",
   Some (List.map of_string
           [ "// int a = 1;"; "// int b = 2;"; "// foo(a, b);"; "int c = 3;" ]%string)).

Definition unreadable_file : text * option (list text) :=
  (of_string "vst/source/X.cpp", None).

(** A scanner that looks for commented-out code in the two files, and
    one that looks at the first file only. *)
Definition failing_scanner : Orchestrator.agent :=
  {| Orchestrator.agent_name := of_string "AI Bias Detection";
     Orchestrator.run :=
       (AIBias.check_dead_code [commented_file; unreadable_file] ;;;
        fun found => (Some (AIBias.generate_report found), found))%py |}.

Definition sound_scanner : Orchestrator.agent :=
  {| Orchestrator.agent_name := of_string "Second Scanner";
     Orchestrator.run :=
       (AIBias.check_dead_code [commented_file] ;;;
        fun found => (Some (AIBias.generate_report found), found))%py |}.

(** The same block in a second file, and a scanner that meets the files
    in the order a directory listing may give them. *)
Definition commented_file_a : text * option (list text) :=
  (of_string "vst/source/A.cpp", snd commented_file).

Definition unordered_scanner : Orchestrator.agent :=
  {| Orchestrator.agent_name := of_string "AI Bias Detection";
     Orchestrator.run :=
       (AIBias.check_dead_code [commented_file; commented_file_a] ;;;
        fun found => (Some (AIBias.generate_report found), found))%py |}.

(** A scanner that reports the lock in the audio callback. *)
Definition processor_source : text :=
  file_of
    [ "#include <mutex>";
      "void Sp3ctraAudioProcessor::processBlock(juce::AudioBuffer<float>& buffer, juce::MidiBuffer& midi)";
      "{";
      "    std::lock_guard<std::mutex> lock(stateMutex);";
      "}";
      "" ]%string.

Definition architecture_scanner : Orchestrator.agent :=
  {| Orchestrator.agent_name := of_string "Architecture Review";
     Orchestrator.run :=
       (Architecture.check_rt_audio_safety ascii_table (Some processor_source) ;;;
        Py.ret (of_string "report"))%py |}.

(** Metrics without any key set, and with a high average complexity. *)
Definition no_metrics : Metrics.metrics :=
  {| Metrics.avg_ccn := None; Metrics.complex_functions := None;
     Metrics.avg_comment_ratio := None |}.

Definition complex_metrics : Metrics.metrics :=
  {| Metrics.avg_ccn := Some (12 # 1)%Q; Metrics.complex_functions := None;
     Metrics.avg_comment_ratio := None |}.

(** Metrics with every test false. *)
Definition fine_metrics : Metrics.metrics :=
  {| Metrics.avg_ccn := Some (4 # 1)%Q; Metrics.complex_functions := Some [];
     Metrics.avg_comment_ratio := Some (1 # 5)%Q |}.

(** A group with one member of each tree. *)
Definition mixed_group : list DuplicationIndex.location :=
  [ (of_string "vst/source/Core.cpp", of_string "foo", 1);
    (of_string "src/core/core.c", of_string "foo", 1) ].

(** Two identifiers with the same MD5 digest (a published collision). *)
Definition collision_a : text :=
  of_string "TEXTCOLLBYfGiJUETHQ4hAcKSMd5zYpgqf1YRDhkmxHkhPWptrkoyz28wnI9V0aHeAuaKnak".

Definition collision_b : text :=
  of_string "TEXTCOLLBYfGiJUETHQ4hEcKSMd5zYpgqf1YRDhkmxHkhPWptrkoyz28wnI9V0aHeAuaKnak".

(** The function of [one_function] as the plug-in holds it: another
    comment, another layout. *)
Definition one_function_reformatted : text :=
  file_of
    [ "static int foo(int a) {";
      "	int result = a + 1;    // the same statement, commented and indented in another way";
      "";
      "	return result + 0 + 0 + 0;";
      "}" ]%string.

Definition reformatted_plugin_file : list (text * option text) :=
  [ (of_string "vst/source/Core.cpp", Some one_function_reformatted) ].

(** Three files of the plug-in that mention one configuration key, and
    a scanner that looks for keys handled in several files. *)
Definition config_files : list (text * option text) :=
  [ (of_string "vst/source/A.cpp", Some (of_string "int UDP_Port = 1;"));
    (of_string "vst/source/B.cpp",
     Some (join_lines [of_string "x"; of_string "  udp_port++;  "]));
    (of_string "vst/source/C.cpp", Some (of_string "udp_port = udp_port + 1;")) ].

Definition config_scanner : Orchestrator.agent :=
  {| Orchestrator.agent_name := of_string "Code Duplication";
     Orchestrator.run :=
       (ConfigHandling.find_duplicate_config_handling Naming.ascii_lower config_files ;;;
        Py.ret (of_string "report"))%py |}.

(** Floating-point operations that round nothing, for inputs on which
    the interpreter's do not round either. *)
Definition exact_div (a b : Z) : Q := (inject_Z a / inject_Z b)%Q.
Definition exact_sum (values : list Q) : Q := fold_left Qplus values 0%Q.
Definition exact_div_int (x : Q) (n : Z) : Q := (x / inject_Z n)%Q.

End Samples.

(* ================================================================== *)
(** * Properties *)
(* ================================================================== *)

Module TextFacts.

Lemma text_eqb_eq (a b : text) : text_eqb a b = true <-> a = b.
Proof.
  unfold text_eqb. destruct (list_eq_dec Z.eq_dec a b); split; congruence.
Qed.

End TextFacts.

(** ** The MD5 model on the RFC 1321 test suite *)

Module MD5Facts.
Import MD5.

Example md5_empty : hexdigest [] = "d41d8cd98f00b204e9800998ecf8427e"%string.
Proof. vm_compute. reflexivity. Qed.

Example md5_abc :
  option_map hexdigest (encode (of_string "abc"))
  = Some "900150983cd24fb0d6963f7d28e17f72"%string.
Proof. vm_compute. reflexivity. Qed.

Example md5_alphabet :
  option_map hexdigest (encode (of_string "abcdefghijklmnopqrstuvwxyz"))
  = Some "c3fcd3d76192e4007dfb496cca67e13b"%string.
Proof. vm_compute. reflexivity. Qed.

Example md5_two_blocks :
  option_map hexdigest (encode (of_string
    "12345678901234567890123456789012345678901234567890123456789012345678901234567890"))
  = Some "57edf4a22be3c955ac49da2e2107b67a"%string.
Proof. vm_compute. reflexivity. Qed.

End MD5Facts.

(* ================================================================== *)
(** ** normalize_code *)
(* ================================================================== *)

Module NormalizerFacts.
Import Normalizer.

Ltac split_andb :=
  repeat match goal with
         | H : _ && _ = true |- _ => apply andb_true_iff in H; destruct H
         | H : negb _ = true |- _ => apply negb_true_iff in H
         end.

(** *** Line comments *)

Lemma head_sub_line_comments r :
  head_is SLASH r = false -> head_is SLASH (sub_line_comments false r) = false.
Proof.
  destruct r as [|d r]; simpl; auto.
  intros H. rewrite H. simpl. exact H.
Qed.

Lemma no_dslash_sub_line_comments s :
  forall b, no_dslash (sub_line_comments b s) = true.
Proof.
  induction s as [|c r IH]; intros b; simpl; auto.
  destruct b.
  - destruct (c =? NL) eqn:E; auto.
    simpl. rewrite IH, andb_true_r.
    apply Z.eqb_eq in E. subst c. reflexivity.
  - destruct ((c =? SLASH) && head_is SLASH r) eqn:E; auto.
    simpl. rewrite IH, andb_true_r.
    destruct (c =? SLASH); simpl in *; auto.
    rewrite head_sub_line_comments; auto.
Qed.

Lemma sub_line_comments_id s :
  no_dslash s = true -> sub_line_comments false s = s.
Proof.
  induction s as [|c r IH]; simpl; auto.
  intros H. split_andb. rewrite H. f_equal. auto.
Qed.

Lemma no_dslash_app_r p q : no_dslash (p ++ q) = true -> no_dslash q = true.
Proof.
  induction p as [|c p IH]; simpl; auto.
  intros H. split_andb. auto.
Qed.

Lemma head_is_app c p q : head_is c p = true -> head_is c (p ++ q) = true.
Proof. destruct p; simpl; auto. discriminate. Qed.

Lemma no_dslash_app_l p q : no_dslash (p ++ q) = true -> no_dslash p = true.
Proof.
  induction p as [|c p IH]; simpl; auto.
  intros H. split_andb. rewrite IH, andb_true_r by assumption.
  destruct (c =? SLASH); simpl in *; auto.
  destruct (head_is SLASH p) eqn:E; auto.
  rewrite (head_is_app _ _ q E) in H. discriminate.
Qed.

(** *** Block comments *)

Lemma find_close_eq c d r :
  find_close (c :: d :: r)
  = if (c =? STAR) && (d =? SLASH) then Some r else find_close (d :: r).
Proof. reflexivity. Qed.

Lemma find_close_skip c r :
  (c =? STAR) && head_is SLASH r = false -> find_close (c :: r) = find_close r.
Proof.
  destruct r as [|d r]; [reflexivity|].
  rewrite find_close_eq. simpl. intros ->. reflexivity.
Qed.

Lemma find_close_cons_inv c r :
  find_close (c :: r) = None ->
  (c =? STAR) && head_is SLASH r = false /\ find_close r = None.
Proof.
  destruct r as [|d r].
  - intros _. rewrite andb_false_r. auto.
  - rewrite find_close_eq. simpl.
    destruct ((c =? STAR) && (d =? SLASH)); [discriminate | auto].
Qed.

Lemma find_close_suffix s :
  forall rest, find_close s = Some rest ->
  exists pre, s = pre ++ rest /\ (List.length rest < List.length s)%nat.
Proof.
  induction s as [|c r IH]; intros rest H; [discriminate|].
  destruct r as [|d r]; [discriminate|].
  rewrite find_close_eq in H.
  destruct ((c =? STAR) && (d =? SLASH)).
  - injection H as <-. exists [c; d]. split; [reflexivity | simpl; lia].
  - destruct (IH _ H) as (pre & E & L).
    exists (c :: pre). rewrite E at 1. split; [reflexivity | simpl in *; lia].
Qed.

Lemma find_close_app s q :
  forall rest, find_close s = Some rest -> find_close (s ++ q) = Some (rest ++ q).
Proof.
  induction s as [|c r IH]; intros rest H; [discriminate|].
  destruct r as [|d r]; [discriminate|].
  rewrite find_close_eq in H.
  change ((c :: d :: r) ++ q) with (c :: d :: (r ++ q)).
  rewrite find_close_eq.
  destruct ((c =? STAR) && (d =? SLASH)).
  - injection H as <-. reflexivity.
  - apply (IH _ H).
Qed.

Lemma sub_block_outside_eq c d r :
  sub_block_comments false (c :: d :: r)
  = if (c =? SLASH) && (d =? STAR) && is_some (find_close r)
    then sub_block_comments true r
    else c :: sub_block_comments false (d :: r).
Proof. reflexivity. Qed.

Lemma sub_block_outside_opens c r :
  sub_block_comments false (c :: r)
  = if (c =? SLASH) && opens_block r
    then sub_block_comments true (tl r)
    else c :: sub_block_comments false r.
Proof.
  destruct r as [|d r].
  - simpl. rewrite andb_false_r. reflexivity.
  - rewrite sub_block_outside_eq. simpl. rewrite andb_assoc. reflexivity.
Qed.

(** Inside a comment the scan resumes after the first [*/]: the match of
    the lazy [.*?]. *)
Lemma sub_block_inside r :
  sub_block_comments true r
  = match find_close r with
    | Some rest => sub_block_comments false rest
    | None => []
    end.
Proof.
  induction r as [|c r IH]; [reflexivity|].
  destruct r as [|d r]; [reflexivity|].
  rewrite find_close_eq.
  change (sub_block_comments true (c :: d :: r))
    with (if (c =? STAR) && (d =? SLASH) then sub_block_comments false r
          else sub_block_comments true (d :: r)).
  destruct ((c =? STAR) && (d =? SLASH)); auto.
Qed.

Lemma sub_block_no_close r :
  find_close r = None -> sub_block_comments false r = r.
Proof.
  induction r as [|c r IH]; auto.
  intros H. destruct (find_close_cons_inv _ _ H) as [_ H'].
  rewrite sub_block_outside_opens.
  destruct r as [|d r]; simpl.
  - rewrite andb_false_r. reflexivity.
  - destruct (find_close_cons_inv _ _ H') as [_ H''].
    rewrite H''. simpl. rewrite !andb_false_r. f_equal. auto.
Qed.

Lemma sub_block_head r :
  head_is SLASH r = false ->
  sub_block_comments false r
  = match r with
    | [] => []
    | d :: r1 => d :: sub_block_comments false r1
    end.
Proof.
  destruct r as [|d r]; auto.
  simpl head_is. intros H. rewrite sub_block_outside_opens, H. reflexivity.
Qed.

Lemma sub_block_shape n :
  forall s, (List.length s <= n)%nat -> no_dslash s = true ->
  no_dslash (sub_block_comments false s) = true
  /\ no_block (sub_block_comments false s) = true.
Proof.
  induction n as [|n IH]; intros s Hlen Hd.
  - destruct s; [auto | simpl in Hlen; lia].
  - destruct s as [|c r]; [auto|].
    rewrite sub_block_outside_opens.
    destruct ((c =? SLASH) && opens_block r) eqn:E.
    + destruct r as [|d r]; [simpl in E; rewrite andb_false_r in E; discriminate|].
      simpl tl.
      rewrite sub_block_inside.
      destruct (find_close r) as [rest|] eqn:F; [|auto].
      destruct (find_close_suffix _ F) as (pre & Epre & L).
      apply IH.
      * simpl in Hlen. lia.
      * apply (no_dslash_app_r (c :: d :: pre)). simpl app. rewrite <- Epre. exact Hd.
    + simpl in Hd. split_andb.
      destruct (IH r) as [I1 I2]; [simpl in Hlen; lia | assumption |].
      simpl. rewrite I1, I2, !andb_true_r.
      destruct (c =? SLASH); simpl in *; auto.
      rewrite (sub_block_head _ H).
      destruct r as [|d r]; auto.
      simpl in *. rewrite H. split; auto.
      destruct (d =? STAR); simpl in *; auto.
      destruct (find_close r) eqn:F; [discriminate|].
      rewrite (sub_block_no_close _ F), F. reflexivity.
Qed.

Lemma sub_block_comments_id s :
  no_block s = true -> sub_block_comments false s = s.
Proof.
  induction s as [|c r IH]; auto.
  simpl no_block. intros H. split_andb.
  rewrite sub_block_outside_opens, H. f_equal. auto.
Qed.

Lemma no_block_app_r p q : no_block (p ++ q) = true -> no_block q = true.
Proof.
  induction p as [|c p IH]; simpl; auto.
  intros H. split_andb. auto.
Qed.

Lemma opens_block_app p q : opens_block p = true -> opens_block (p ++ q) = true.
Proof.
  destruct p as [|d p]; simpl; [discriminate|].
  intros H. split_andb. rewrite H. simpl.
  destruct (find_close p) eqn:F; [|discriminate].
  rewrite (find_close_app _ q F). reflexivity.
Qed.

Lemma no_block_app_l p q : no_block (p ++ q) = true -> no_block p = true.
Proof.
  induction p as [|c p IH]; simpl; auto.
  intros H. split_andb. rewrite IH, andb_true_r by assumption.
  destruct (c =? SLASH); simpl in *; auto.
  destruct (opens_block p) eqn:E; auto.
  rewrite (opens_block_app _ q E) in H. discriminate.
Qed.

(** *** White space *)

Lemma head_sub_whitespace x r :
  isspace x = false -> head_is x r = false ->
  head_is x (sub_whitespace false r) = false.
Proof.
  intros Hx. destruct r as [|d r]; cbn [head_is sub_whitespace]; auto.
  intros H. destruct (isspace d) eqn:E; cbn [head_is]; auto.
  destruct (Z.eqb_spec SPACE x) as [<-|]; auto.
Qed.

Lemma find_close_sub_whitespace s :
  forall b, find_close s = None -> find_close (sub_whitespace b s) = None.
Proof.
  induction s as [|c r IH]; intros b H; auto.
  destruct (find_close_cons_inv _ _ H) as [H1 H2].
  simpl. destruct (isspace c) eqn:E.
  - destruct b; auto.
    rewrite find_close_skip; auto.
  - rewrite find_close_skip; auto.
    destruct (c =? STAR); simpl in *; auto.
    apply head_sub_whitespace; auto.
Qed.

Lemma opens_block_sub_whitespace r :
  opens_block r = false -> opens_block (sub_whitespace false r) = false.
Proof.
  destruct r as [|d r]; simpl; auto.
  intros H. destruct (isspace d) eqn:E; simpl; auto.
  destruct (d =? STAR); simpl in *; auto.
  destruct (find_close r) eqn:F; [discriminate|].
  rewrite (find_close_sub_whitespace _ false F). reflexivity.
Qed.

Lemma no_block_sub_whitespace s :
  forall b, no_block s = true -> no_block (sub_whitespace b s) = true.
Proof.
  induction s as [|c r IH]; intros b H; auto.
  simpl in H. split_andb.
  simpl. destruct (isspace c) eqn:E.
  - destruct b; simpl; auto.
  - simpl. rewrite IH, andb_true_r by assumption.
    destruct (c =? SLASH); simpl in *; auto.
    rewrite opens_block_sub_whitespace; auto.
Qed.

Lemma no_dslash_sub_whitespace s :
  forall b, no_dslash s = true -> no_dslash (sub_whitespace b s) = true.
Proof.
  induction s as [|c r IH]; intros b H; auto.
  simpl in H. split_andb.
  simpl. destruct (isspace c) eqn:E.
  - destruct b; simpl; auto.
  - simpl. rewrite IH, andb_true_r by assumption.
    destruct (c =? SLASH); simpl in *; auto.
    rewrite head_sub_whitespace; auto.
Qed.

Lemma single_spaced_sub_whitespace s :
  forall b, single_spaced b (sub_whitespace b s) = true.
Proof.
  induction s as [|c r IH]; intros b; auto.
  simpl. destruct (isspace c) eqn:E.
  - destruct b; simpl; auto.
  - simpl. rewrite E. auto.
Qed.

Lemma sub_whitespace_id s :
  forall b, single_spaced b s = true -> sub_whitespace b s = s.
Proof.
  induction s as [|c r IH]; intros b H; auto.
  simpl in *. destruct (isspace c) eqn:E.
  - split_andb. apply Z.eqb_eq in H. subst. f_equal. auto.
  - f_equal. auto.
Qed.

(** *** strip *)

Lemma lstrip_suffix s : exists p, s = p ++ lstrip s.
Proof.
  induction s as [|c r [p IH]]; [exists []; reflexivity|].
  simpl. destruct (isspace c).
  - exists (c :: p). simpl. f_equal. exact IH.
  - exists []. reflexivity.
Qed.

Lemma rstrip_prefix s : exists q, s = rstrip s ++ q.
Proof.
  unfold rstrip. destruct (lstrip_suffix (rev s)) as [p E].
  exists (rev p). rewrite <- rev_app_distr, <- E, rev_involutive. reflexivity.
Qed.

Lemma lstrip_fixed s :
  match s with [] => True | c :: _ => isspace c = false end -> lstrip s = s.
Proof. destruct s as [|c r]; simpl; auto. intros ->. reflexivity. Qed.

Lemma lstrip_head s :
  match lstrip s with [] => True | c :: _ => isspace c = false end.
Proof.
  induction s as [|c r IH]; simpl; auto.
  destruct (isspace c) eqn:E; auto.
Qed.

Lemma lstrip_idem s : lstrip (lstrip s) = lstrip s.
Proof. apply lstrip_fixed, lstrip_head. Qed.

Lemma rstrip_idem s : rstrip (rstrip s) = rstrip s.
Proof. unfold rstrip. rewrite rev_involutive, lstrip_idem. reflexivity. Qed.

Lemma lstrip_rstrip s :
  match s with [] => True | c :: _ => isspace c = false end ->
  lstrip (rstrip s) = rstrip s.
Proof.
  intros H. apply lstrip_fixed.
  destruct (rstrip_prefix s) as [q E].
  destruct (rstrip s) as [|c r]; auto.
  rewrite E in H. exact H.
Qed.

Lemma strip_idem s : strip (strip s) = strip s.
Proof.
  unfold strip. rewrite (lstrip_rstrip (lstrip s)) by apply lstrip_head.
  apply rstrip_idem.
Qed.

Lemma single_spaced_lstrip s :
  forall b, single_spaced b s = true -> single_spaced false (lstrip s) = true.
Proof.
  induction s as [|c r IH]; intros b H; auto.
  simpl in *. destruct (isspace c) eqn:E.
  - split_andb. eauto.
  - simpl. rewrite E. exact H.
Qed.

Lemma single_spaced_app_l p q :
  forall b, single_spaced b (p ++ q) = true -> single_spaced b p = true.
Proof.
  induction p as [|c p IH]; intros b H; auto.
  simpl in *. destruct (isspace c).
  - split_andb. rewrite H, H1. simpl. eauto.
  - eauto.
Qed.

Section Shape.
Variable P : text -> bool.
Hypothesis P_app_l : forall p q, P (p ++ q) = true -> P p = true.
Hypothesis P_app_r : forall p q, P (p ++ q) = true -> P q = true.

Lemma shape_strip s : P s = true -> P (strip s) = true.
Proof.
  intros H. unfold strip.
  destruct (lstrip_suffix s) as [p E].
  destruct (rstrip_prefix (lstrip s)) as [q E'].
  apply (P_app_l _ q). rewrite <- E'.
  apply (P_app_r p). rewrite <- E. exact H.
Qed.
End Shape.

(** *** White-space runs *)

Lemma isspace_neq c x : isspace c = true -> isspace x = false -> (c =? x) = false.
Proof.
  intros Hc Hx. destruct (Z.eqb_spec c x); auto. subst. congruence.
Qed.

(** Equal, or two white-space characters against one at the same place. *)
Definition near (x y : text) : Prop :=
  x = y \/
  exists u v a b k,
    isspace a = true /\ isspace b = true /\ isspace k = true
    /\ x = u ++ a :: b :: v /\ y = u ++ k :: v.

Lemma near_cons c x y : near x y -> near (c :: x) (c :: y).
Proof.
  intros [-> | (u & v & a & b & k & Ha & Hb & Hk & -> & ->)]; [left; reflexivity|].
  right. exists (c :: u), v, a, b, k. auto.
Qed.

Section Run.
Variables (a b k : char) (v : text).
Hypothesis Ha : isspace a = true.
Hypothesis Hb : isspace b = true.
Hypothesis Hk : isspace k = true.

Lemma near_here x : near (a :: b :: x) (k :: x).
Proof. right. exists [], x, a, b, k. auto. Qed.

Lemma head_is_run x u r r' :
  isspace x = false ->
  head_is x (u ++ a :: r) = head_is x (u ++ k :: r').
Proof.
  intros Hx. destruct u; simpl; auto.
  rewrite !isspace_neq; auto.
Qed.

Lemma sub_line_comments_run :
  (k =? NL) = (a =? NL) || (b =? NL) ->
  forall u f,
    near (sub_line_comments f (u ++ a :: b :: v)) (sub_line_comments f (u ++ k :: v)).
Proof.
  intros Hnl. induction u as [|c u IH]; intros f.
  - simpl app. destruct f.
    + cbn [sub_line_comments]. rewrite Hnl.
      rewrite (isspace_neq b SLASH), andb_false_l by auto.
      destruct (a =? NL) eqn:Ea; simpl orb.
      * apply Z.eqb_eq in Ea. rewrite Ea. right.
        assert (Ek : k = NL) by (apply Z.eqb_eq; rewrite Hnl; reflexivity).
        exists [], (sub_line_comments false v), NL, b, NL.
        subst. auto.
      * destruct (b =? NL) eqn:Eb; [|left; reflexivity].
        apply Z.eqb_eq in Eb, Hnl. subst. left. reflexivity.
    + cbn [sub_line_comments].
      rewrite (isspace_neq a SLASH), (isspace_neq b SLASH), (isspace_neq k SLASH) by auto.
      rewrite !andb_false_l. apply near_here.
  - simpl app. cbn [sub_line_comments]. destruct f.
    + destruct (c =? NL); auto using near_cons.
    + rewrite (head_is_run SLASH u (b :: v) v) by reflexivity.
      destruct ((c =? SLASH) && head_is SLASH (u ++ k :: v)); auto using near_cons.
Qed.

Lemma find_close_run u :
  is_some (find_close (u ++ a :: b :: v)) = is_some (find_close (u ++ k :: v)).
Proof.
  induction u as [|c u IH].
  - simpl app. rewrite !find_close_skip; auto;
      rewrite isspace_neq; auto.
  - simpl app. destruct u as [|d u].
    + simpl app in *. rewrite !find_close_eq.
      rewrite (isspace_neq a SLASH), (isspace_neq k SLASH), !andb_false_r by auto.
      exact IH.
    + simpl app in *. rewrite !find_close_eq.
      destruct ((c =? STAR) && (d =? SLASH)); auto.
Qed.

Lemma opens_block_run u :
  opens_block (u ++ a :: b :: v) = opens_block (u ++ k :: v).
Proof.
  destruct u as [|d u]; simpl.
  - rewrite !isspace_neq; auto.
  - rewrite find_close_run. reflexivity.
Qed.

Lemma sub_block_inside_eq c r :
  sub_block_comments true (c :: r)
  = if (c =? STAR) && head_is SLASH r then sub_block_comments false (tl r)
    else sub_block_comments true r.
Proof.
  destruct r as [|d r]; simpl.
  - rewrite andb_false_r. reflexivity.
  - reflexivity.
Qed.

Lemma sub_block_comments_run n :
  forall u f, (List.length u <= n)%nat ->
    near (sub_block_comments f (u ++ a :: b :: v)) (sub_block_comments f (u ++ k :: v)).
Proof.
  assert (Hbase : forall f,
    near (sub_block_comments f (a :: b :: v)) (sub_block_comments f (k :: v))).
  { intros [|].
    - rewrite !sub_block_inside_eq.
      rewrite (isspace_neq a STAR), (isspace_neq b STAR), (isspace_neq k STAR) by auto.
      left. reflexivity.
    - rewrite !sub_block_outside_opens.
      rewrite (isspace_neq a SLASH), (isspace_neq b SLASH), (isspace_neq k SLASH) by auto.
      apply near_here. }
  induction n as [|n IH]; intros u f Hlen.
  - destruct u; [apply Hbase | simpl in Hlen; lia].
  - destruct u as [|c u]; [apply Hbase|].
    simpl app. simpl in Hlen. destruct f.
    + rewrite !sub_block_inside_eq.
      rewrite (head_is_run SLASH u (b :: v) v) by reflexivity.
      destruct ((c =? STAR) && head_is SLASH (u ++ k :: v)) eqn:E.
      * destruct u as [|d u].
        { simpl in E. rewrite (isspace_neq k SLASH), andb_false_r in E by auto.
          discriminate. }
        simpl. apply IH. simpl in Hlen. lia.
      * apply IH. lia.
    + rewrite !sub_block_outside_opens, opens_block_run.
      destruct ((c =? SLASH) && opens_block (u ++ k :: v)) eqn:E.
      * destruct u as [|d u].
        { simpl in E. rewrite (isspace_neq k STAR), andb_false_r in E by auto.
          discriminate. }
        simpl. apply IH. simpl in Hlen. lia.
      * apply near_cons, IH. lia.
Qed.

Lemma sub_whitespace_run u :
  forall f, sub_whitespace f (u ++ a :: b :: v) = sub_whitespace f (u ++ k :: v).
Proof.
  induction u as [|c u IH]; intros f; simpl.
  - rewrite Ha, Hb, Hk. destruct f; reflexivity.
  - destruct (isspace c); [destruct f|]; rewrite IH; reflexivity.
Qed.

End Run.

Lemma sub_block_comments_near x y :
  near x y -> near (sub_block_comments false x) (sub_block_comments false y).
Proof.
  intros [-> | (u & v & a & b & k & Ha & Hb & Hk & -> & ->)]; [left; reflexivity|].
  eapply sub_block_comments_run; eauto.
Qed.

Lemma sub_whitespace_near x y :
  near x y -> sub_whitespace false x = sub_whitespace false y.
Proof.
  intros [-> | (u & v & a & b & k & Ha & Hb & Hk & -> & ->)]; [reflexivity|].
  apply sub_whitespace_run; auto.
Qed.

Lemma normalize_code_run u v a b k :
  isspace a = true -> isspace b = true -> isspace k = true ->
  (k =? NL) = (a =? NL) || (b =? NL) ->
  normalize_code (u ++ a :: b :: v) = normalize_code (u ++ k :: v).
Proof.
  intros Ha Hb Hk Hnl. unfold normalize_code. f_equal.
  apply sub_whitespace_near, sub_block_comments_near.
  apply sub_line_comments_run; auto.
Qed.

Lemma normalize_code_layout x y : same_layout x y -> normalize_code x = normalize_code y.
Proof.
  induction 1; try congruence.
  apply normalize_code_run; auto.
Qed.

(** *** The normal form *)

Lemma normalize_code_shape x :
  let n := normalize_code x in
  no_dslash n = true /\ no_block n = true /\ single_spaced false n = true.
Proof.
  unfold normalize_code.
  set (l := sub_line_comments false x).
  assert (Hl : no_dslash l = true) by apply no_dslash_sub_line_comments.
  destruct (sub_block_shape l (le_n _) Hl) as [Hb1 Hb2].
  set (b := sub_block_comments false l) in *.
  cbv zeta. repeat split.
  - apply (shape_strip no_dslash no_dslash_app_l no_dslash_app_r).
    apply no_dslash_sub_whitespace, Hb1.
  - apply (shape_strip no_block no_block_app_l no_block_app_r).
    apply no_block_sub_whitespace, Hb2.
  - unfold strip.
    destruct (rstrip_prefix (lstrip (sub_whitespace false b))) as [q E].
    apply (single_spaced_app_l _ q). rewrite <- E.
    apply (single_spaced_lstrip _ false), single_spaced_sub_whitespace.
Qed.

(** A text of the three shapes that [strip] leaves alone is its own
    canonical text. *)
Lemma normalize_code_fixed (n : text) :
  no_dslash n = true -> no_block n = true -> single_spaced false n = true ->
  strip n = n -> normalize_code n = n.
Proof.
  intros Hd Hb Hs Hn. unfold normalize_code.
  rewrite (sub_line_comments_id _ Hd), (sub_block_comments_id _ Hb),
    (sub_whitespace_id _ _ Hs).
  exact Hn.
Qed.

Lemma normalize_code_stripped (x : text) : strip (normalize_code x) = normalize_code x.
Proof. unfold normalize_code. apply strip_idem. Qed.

(** C2. [normalize_code] is idempotent: normalising a normalised text
    gives it back, for every text. *)
Theorem normalize_code_idempotent (x : text) :
  normalize_code (normalize_code x) = normalize_code x.
Proof.
  destruct (normalize_code_shape x) as (Hd & Hb & Hs).
  apply normalize_code_fixed; auto using normalize_code_stripped.
Qed.

(** Every text has the digest of its canonical text. *)
Lemma get_code_hash_normalized (a : text) :
  get_code_hash (normalize_code a) = get_code_hash a.
Proof.
  destruct (normalize_code_shape a) as (Hd & Hb & Hs).
  unfold get_code_hash.
  rewrite normalize_code_fixed; auto using normalize_code_stripped.
Qed.

(** C1 as stated fails in each clause: [x=1;] and [x = 1;] differ only in
    white space and get different digests; two texts that begin with a
    block comment and differ only in what the comment says get different
    digests, the one comment having a [//] inside; two different
    identifiers, free of white space and comments, get the same digest. *)
Lemma get_code_hash_claim_fails :
  (remove_whitespace (of_string "x=1;") = remove_whitespace (of_string "x = 1;")
   /\ get_code_hash (of_string "x=1;") <> get_code_hash (of_string "x = 1;"))
  /\ (let c1 := of_string " http://x " in
      let c2 := of_string " z " in
      let v := of_string " a;" ++ NL :: of_string " b; /* y */ c;" in
      find_close c1 = None /\ find_close c2 = None
      /\ get_code_hash (of_string "/*" ++ c1 ++ of_string "*/" ++ v)
         <> get_code_hash (of_string "/*" ++ c2 ++ of_string "*/" ++ v))
  /\ (Samples.collision_a <> Samples.collision_b
      /\ normalize_code Samples.collision_a = Samples.collision_a
      /\ normalize_code Samples.collision_b = Samples.collision_b
      /\ get_code_hash Samples.collision_a = get_code_hash Samples.collision_b).
Proof.
  split; [split | split; [cbv zeta; split; [|split] | split; [|split; [|split]]]].
  - vm_compute. reflexivity.
  - vm_compute. discriminate.
  - vm_compute. reflexivity.
  - vm_compute. reflexivity.
  - vm_compute. discriminate.
  - vm_compute. discriminate.
  - vm_compute. reflexivity.
  - vm_compute. reflexivity.
  - vm_compute. reflexivity.
Qed.

End NormalizerFacts.

(* ================================================================== *)
(** ** extract_functions *)
(* ================================================================== *)

Module DictFacts.
Import Dict.

Section Facts.
Variable V : Type.

Abbreviation tset := (@Dict.set text V text_eqb).

Lemma set_fresh (d : dict text V) k v :
  ~ In k (List.map fst d) -> tset d k v = d ++ [(k, v)].
Proof.
  induction d as [|[k' v'] d IH]; simpl; auto.
  intros H. destruct (text_eqb k' k) eqn:E.
  - apply TextFacts.text_eqb_eq in E. tauto.
  - f_equal. apply IH. tauto.
Qed.

(** Replaying assignments to distinct keys gives the assignments. *)
Lemma replay_distinct (tr : list (text * V)) :
  forall acc, NoDup (List.map fst (acc ++ tr)) ->
  fold_left (fun d kv => tset d (fst kv) (snd kv)) tr acc = acc ++ tr.
Proof.
  induction tr as [|[k v] tr IH]; intros acc H; simpl.
  - rewrite app_nil_r. reflexivity.
  - rewrite set_fresh.
    + rewrite IH; rewrite <- app_assoc; [reflexivity | exact H].
    + rewrite map_app in H. simpl in H.
      apply NoDup_remove_2 in H. intros Hin. apply H, in_or_app. auto.
Qed.

End Facts.
End DictFacts.

Module ExtractorFacts.
Import Extractor.

Definition nl_free (l : text) : Prop := count_char NL l = 0.

Lemma count_char_app c a b : count_char c (a ++ b) = count_char c a + count_char c b.
Proof. induction a as [|x a IH]; simpl; [reflexivity | rewrite IH; lia]. Qed.

Lemma split_lines_nonempty s : split_lines s <> [].
Proof.
  destruct s as [|c s]; simpl; [discriminate|].
  destruct (c =? NL); [discriminate|].
  destruct (split_lines s); discriminate.
Qed.

Lemma split_lines_nl_free s : Forall nl_free (split_lines s).
Proof.
  induction s as [|c s IH]; simpl.
  - repeat constructor.
  - destruct (c =? NL) eqn:E.
    + constructor; [reflexivity | exact IH].
    + destruct (split_lines s) as [|l ls]; [repeat constructor; unfold nl_free; simpl; rewrite E; reflexivity|].
      inversion IH; subst. constructor; auto.
      unfold nl_free in *. simpl. rewrite E. lia.
Qed.

(** Joining and splitting are inverse on lines without line feeds. *)
Lemma join_split s : join_lines (split_lines s) = s.
Proof.
  induction s as [|c s IH]; simpl; auto.
  destruct (c =? NL) eqn:E.
  - apply Z.eqb_eq in E. subst c.
    pose proof (split_lines_nonempty s) as Hne.
    destruct (split_lines s) as [|l ls]; [congruence|].
    change (join_lines ([] :: l :: ls)) with (NL :: join_lines (l :: ls)).
    f_equal. exact IH.
  - pose proof (split_lines_nonempty s) as Hne.
    destruct (split_lines s) as [|l ls]; [congruence|].
    rewrite <- IH. destruct ls; reflexivity.
Qed.

Lemma count_join ls :
  Forall nl_free ls -> ls <> [] -> count_char NL (join_lines ls) = len ls - 1.
Proof.
  unfold len. induction ls as [|l ls IH]; intros H Hne; [congruence|].
  inversion H as [|? ? Hl Hls]; subst.
  destruct ls as [|l' ls].
  - simpl. exact Hl.
  - change (join_lines (l :: l' :: ls)) with (l ++ NL :: join_lines (l' :: ls)).
    rewrite count_char_app.
    change (count_char NL (NL :: join_lines (l' :: ls)))
      with (1 + count_char NL (join_lines (l' :: ls))).
    rewrite IH by (auto; discriminate).
    unfold nl_free in Hl. rewrite Hl. simpl List.length. lia.
Qed.

Lemma StronglySorted_snoc {A} (R : A -> A -> Prop) l x :
  StronglySorted R l -> Forall (fun y => R y x) l -> StronglySorted R (l ++ [x]).
Proof.
  induction 1 as [|a l Hs IH Ha]; intros Hx; simpl.
  - repeat constructor.
  - inversion Hx; subst. constructor; auto.
    apply Forall_app. auto.
Qed.

Section Loop.
Variable func_match : text -> option text.

Abbreviation tstore := (fun (tr : list span) name v => tr ++ [(name, v)]).
Abbreviation dstore := (Dict.set (V := text * Z) text_eqb).
Abbreviation replay := (fold_left (fun d (kv : span) => dstore d (fst kv) (snd kv))).

(** The dictionary the loop builds is the replay of its assignments. *)
Definition related (sd : scan (Dict.dict text (text * Z))) (st : scan (list span)) : Prop :=
  functions sd = replay (functions st) []
  /\ current_func sd = current_func st
  /\ current_func_start sd = current_func_start st
  /\ brace_count sd = brace_count st
  /\ func_lines sd = func_lines st.

Lemma step_related sd st il :
  related sd st ->
  related (step func_match dstore sd il) (step func_match tstore st il).
Proof.
  intros (Hf & Hc & Hs & Hb & Hl). destruct il as [i line].
  unfold step. rewrite Hc, Hs, Hb, Hl.
  destruct (func_match line), (truthy (current_func st));
    try destruct (_ =? 0); unfold related; simpl; repeat split; auto;
    destruct (current_func st); auto;
    destruct (_ >? 100); auto;
    rewrite fold_left_app, <- Hf; reflexivity.
Qed.

Lemma scan_related lines :
  forall sd st, related sd st ->
  related (fold_left (step func_match dstore) lines sd)
          (fold_left (step func_match tstore) lines st).
Proof.
  induction lines as [|il lines IH]; intros sd st H; simpl; auto.
  apply IH, step_related, H.
Qed.

(** The invariant of the loop before line [i]. *)
Definition inv (i : Z) (st : scan (list span)) : Prop :=
  1 <= i
  /\ StronglySorted span_before (functions st)
  /\ Forall (fun s => span_ok s /\
                      span_end s < (if truthy (current_func st)
                                    then current_func_start st else i))
       (functions st)
  /\ (truthy (current_func st) = true ->
      1 <= current_func_start st
      /\ current_func_start st + len (func_lines st) = i
      /\ 1 <= len (func_lines st)
      /\ Forall nl_free (func_lines st)).

Lemma len_snoc {A} (l : list A) x : len (l ++ [x]) = len l + 1.
Proof. unfold len. rewrite length_app. simpl. lia. Qed.

Lemma step_inv i line st :
  nl_free line -> inv i st -> inv (i + 1) (step func_match tstore st (i, line)).
Proof.
  intros Hline (Hi & Hs & Hall & Hcur).
  unfold step.
  destruct (truthy (current_func st)) eqn:Ht.
  - destruct (Hcur eq_refl) as (H1 & H2 & H3 & H4).
    assert (Hstep :
      inv (i + 1)
        (let lines' := func_lines st ++ [line] in
         let count' := brace_count st + brace_delta line in
         if count' =? 0
         then {| functions :=
                   match current_func st with
                   | Some name =>
                       if len (join_lines lines') >? 100
                       then functions st ++ [(name, (join_lines lines', current_func_start st))]
                       else functions st
                   | None => functions st
                   end;
                 current_func := None;
                 current_func_start := current_func_start st;
                 brace_count := count';
                 func_lines := [] |}
         else {| functions := functions st;
                 current_func := current_func st;
                 current_func_start := current_func_start st;
                 brace_count := count';
                 func_lines := lines' |})).
    { cbv zeta. destruct (_ =? 0).
      - unfold inv. simpl.
        assert (Hold : Forall (fun s => span_ok s /\ span_end s < i + 1) (functions st)).
        { eapply Forall_impl; [|exact Hall]. simpl. intros s [? ?]. split; auto. lia. }
        destruct (current_func st) as [name|]; [|discriminate].
        destruct (len (join_lines (func_lines st ++ [line])) >? 100) eqn:Hlen;
          [|repeat split; auto; try lia; discriminate].
        assert (Hend : span_end (name, (join_lines (func_lines st ++ [line]),
                                        current_func_start st)) = i).
        { unfold span_end, span_start, span_code. simpl.
          rewrite count_join.
          - rewrite len_snoc. lia.
          - apply Forall_app. split; auto.
          - destruct (func_lines st); discriminate. }
        repeat split; try lia; try discriminate.
        + apply StronglySorted_snoc; auto.
          eapply Forall_impl; [|exact Hall]. simpl.
          intros s [_ Hlt]. exact Hlt.
        + apply Forall_app. split; auto.
          constructor; [|constructor].
          split; [|rewrite Hend; lia].
          unfold span_ok. rewrite Hend.
          unfold span_start, span_code. simpl.
          apply Z.gtb_lt in Hlen. lia.
      - unfold inv. simpl. rewrite Ht. repeat split; auto; try lia.
        + rewrite len_snoc. lia.
        + rewrite len_snoc. lia.
        + apply Forall_app. split; auto. }
    destruct (func_match line); exact Hstep.
  - destruct (func_match line) as [name|].
    + unfold inv. simpl. repeat split; auto; try lia.
      all: try (unfold len; simpl; lia).
      all: try (repeat constructor; exact Hline).
      eapply Forall_impl; [|exact Hall]. simpl. intros s [? ?]. split; auto.
      destruct name; lia.
    + unfold inv. rewrite Ht. repeat split; auto; try lia; try discriminate.
      eapply Forall_impl; [|exact Hall]. simpl. intros s [? ?]. split; auto. lia.
Qed.

Lemma scan_inv lines :
  forall i st, Forall nl_free lines -> inv i st ->
  inv (i + len lines) (fold_left (step func_match tstore) (enumerate i lines) st).
Proof.
  induction lines as [|l lines IH]; intros i st Hl H; simpl.
  - unfold len. simpl. rewrite Z.add_0_r. exact H.
  - inversion Hl; subst.
    replace (i + len (l :: lines)) with (i + 1 + len lines)
      by (unfold len; simpl List.length; lia).
    apply IH; auto. apply step_inv; auto.
Qed.

Lemma retained_sorted lines :
  Forall nl_free lines ->
  let tr := functions (scan_lines func_match tstore [] lines) in
  StronglySorted span_before tr /\ Forall span_ok tr.
Proof.
  intros Hl. unfold scan_lines.
  match goal with |- context [fold_left _ _ ?s] => set (st0 := s) end.
  assert (H0 : inv 1 st0).
  { unfold inv, st0. simpl. repeat split; try lia; try constructor; discriminate. }
  destruct (scan_inv Hl H0) as (_ & Hs & Hall & _).
  cbv zeta. split; auto.
  eapply Forall_impl; [|exact Hall]. simpl. tauto.
Qed.

Lemma dict_is_replay lines :
  functions (scan_lines func_match dstore [] lines)
  = replay (functions (scan_lines func_match tstore [] lines)) [].
Proof.
  unfold scan_lines.
  match goal with
  | |- functions (fold_left _ ?l ?s) = _ =>
      destruct (@scan_related l s
                  {| functions := ([] : list span); current_func := None;
                     current_func_start := 0; brace_count := 0; func_lines := [] |})
        as [H _]
  end.
  - unfold related. simpl. auto.
  - exact H.
Qed.

End Loop.

Section Extract.
Variable unicode_alnum : char -> bool.

(** Without a repeated name the dictionary lists the retained spans in
    the order the scan closed them. *)
Lemma extract_functions_retained content :
  NoDup (List.map span_name (retained_spans unicode_alnum content)) ->
  extract_functions unicode_alnum (Some content) = retained_spans unicode_alnum content.
Proof.
  intros H. unfold extract_functions, retained_spans.
  rewrite dict_is_replay.
  apply (DictFacts.replay_distinct (V := text * Z) _ []). exact H.
Qed.

End Extract.

(** C4 as stated fails: with balanced braces and an overloaded name, the
    dictionary keeps the first place of the name and the last span under
    it, so the spans come back with first lines 9 and 5. *)
Lemma extract_functions_overload_unordered :
  balanced Samples.overloaded_functions = true
  /\ List.map (fun s => (span_start s, span_end s))
       (extract_functions Samples.ascii_table (Some Samples.overloaded_functions))
     = [(9, 12); (5, 8)]
  /\ ~ StronglySorted span_before
         (extract_functions Samples.ascii_table (Some Samples.overloaded_functions)).
Proof.
  split; [vm_compute; reflexivity|].
  split; [vm_compute; reflexivity|].
  intros H. vm_compute in H.
  apply StronglySorted_inv in H. destruct H as [_ H].
  inversion H as [|? ? Hlt _]; subst.
  vm_compute in Hlt. discriminate.
Qed.

End ExtractorFacts.

(* ================================================================== *)
(** ** find_duplicate_functions *)
(* ================================================================== *)

Module DuplicationIndexFacts.
Import Issue Extractor DuplicationIndex.

Lemma contains_cons p c s : contains p (c :: s) = startswith p (c :: s) || contains p s.
Proof. reflexivity. Qed.

Lemma startswith_app p s : startswith p (p ++ s) = true.
Proof. induction p as [|c p IH]; simpl; auto. rewrite Z.eqb_refl. exact IH. Qed.

Lemma contains_prefix p s : contains p (p ++ s) = true.
Proof.
  destruct (p ++ s) eqn:E; simpl; rewrite <- E, startswith_app; reflexivity.
Qed.

Lemma contains_app_r p u s : contains p s = true -> contains p (u ++ s) = true.
Proof.
  intros H. induction u as [|c u IH]; auto.
  simpl app. rewrite contains_cons, IH. apply orb_true_r.
Qed.

(** A text without a slash has no [src/] in it, whatever comes before
    its first three characters. *)
Lemma startswith_needs_slash c1 c2 c3 s :
  startswith [c1; c2; c3; SLASH] s = true -> In SLASH s.
Proof.
  destruct s as [|x1 [|x2 [|x3 [|x4 s]]]]; cbn [startswith];
    rewrite ?andb_false_r; try discriminate.
  intros H.
  apply andb_true_iff in H as [_ H].
  apply andb_true_iff in H as [_ H].
  apply andb_true_iff in H as [_ H].
  apply andb_true_iff in H as [H _].
  apply Z.eqb_eq in H. rewrite <- H. simpl. auto.
Qed.

Lemma no_slash_no_src s :
  ~ In SLASH s -> contains (of_string "src/") s = false.
Proof.
  induction s as [|c s IH]; intros H; [reflexivity|].
  rewrite contains_cons, IH by (simpl in H; tauto).
  rewrite orb_false_r.
  destruct (startswith (of_string "src/") (c :: s)) eqn:E; auto.
  apply startswith_needs_slash in E. tauto.
Qed.

Lemma vst_path_facts p :
  vst_path p ->
  contains (of_string "vst/") p = true
  /\ contains (of_string "src/") p = false
  /\ root_of p = VstTree.
Proof.
  intros (name & -> & Hname). split; [|split].
  - change (of_string "vst/source/") with (of_string "vst/" ++ of_string "source/").
    rewrite <- app_assoc. apply contains_prefix.
  - change (of_string "vst/source/")
      with [118; 115; 116; 47; 115; 111; 117; 114; 99; 101; 47].
    simpl app. rewrite !contains_cons.
    rewrite (no_slash_no_src _ Hname). reflexivity.
  - unfold root_of. rewrite startswith_app. reflexivity.
Qed.

Lemma standalone_path_facts p :
  standalone_path p ->
  contains (of_string "src/") p = true /\ root_of p = StandaloneTree.
Proof.
  intros (rest & ->). split.
  - apply contains_prefix.
  - reflexivity.
Qed.

Lemma nonempty_filter {A} (f : A -> bool) l : nonempty (filter f l) = existsb f l.
Proof.
  induction l as [|x l IH]; simpl; auto.
  destruct (f x); simpl; auto.
Qed.

(** A set of roots has two members exactly when both trees are in it. *)
Lemma two_roots (l : list root) :
  (2 <= List.length (nodup root_eq_dec l))%nat <-> In VstTree l /\ In StandaloneTree l.
Proof.
  split.
  - intros H.
    pose proof (NoDup_nodup root_eq_dec l) as Hnd.
    assert (Hin : forall r, In r (nodup root_eq_dec l) -> In r l)
      by (intros r; apply nodup_In).
    destruct (nodup root_eq_dec l) as [|a [|b m]]; simpl in H; try lia.
    inversion Hnd as [|? ? Hab _]; subst.
    assert (a <> b) by (intros ->; apply Hab; simpl; auto).
    destruct a, b; try congruence; split; apply Hin; simpl; auto.
  - intros [Hv Hs].
    apply (NoDup_incl_length (l := [VstTree; StandaloneTree])).
    + repeat constructor; simpl; intuition discriminate.
    + intros r [<- | [<- | []]]; apply nodup_In; assumption.
Qed.

(** X8. On paths as the enumeration makes them, with no [vst/] inside a
    path of the standalone tree, a group is reported exactly when its
    members come from both trees. *)
Lemma reported_iff_two_roots (locations : list location) :
  Forall (fun loc =>
            vst_path (loc_file loc)
            \/ (standalone_path (loc_file loc)
                /\ contains (of_string "vst/") (loc_file loc) = false))
    locations ->
  reported locations = true <-> (2 <= List.length (root_ids locations))%nat.
Proof.
  intros Hwf. unfold reported, root_ids, vst_locs, src_locs.
  rewrite two_roots, !nonempty_filter, !in_map_iff.
  assert (Hv : existsb (fun loc => contains (of_string "vst/") (loc_file loc)) locations = true
               <-> exists loc, root_of (loc_file loc) = VstTree /\ In loc locations).
  { rewrite existsb_exists. split; intros (loc & H1 & H2); exists loc.
    - split; auto. rewrite Forall_forall in Hwf.
      destruct (Hwf _ H1) as [Hp | [_ Hc]]; [apply vst_path_facts, Hp | congruence].
    - split; auto. rewrite Forall_forall in Hwf.
      destruct (Hwf _ H2) as [Hp | [Hp _]]; [apply vst_path_facts, Hp|].
      apply standalone_path_facts in Hp. destruct Hp as [_ Hp]. congruence. }
  assert (Hs : existsb (fun loc => contains (of_string "src/") (loc_file loc)) locations = true
               <-> exists loc, root_of (loc_file loc) = StandaloneTree /\ In loc locations).
  { rewrite existsb_exists. split; intros (loc & H1 & H2); exists loc.
    - split; auto. rewrite Forall_forall in Hwf.
      destruct (Hwf _ H1) as [Hp | [Hp _]]; [|apply standalone_path_facts, Hp].
      apply vst_path_facts in Hp. destruct Hp as (_ & Hp & _). congruence.
    - split; auto. rewrite Forall_forall in Hwf.
      destruct (Hwf _ H2) as [Hp | [Hp _]]; [|apply standalone_path_facts, Hp].
      apply vst_path_facts in Hp. destruct Hp as (_ & _ & Hp). congruence. }
  rewrite <- Hv, <- Hs, !andb_true_iff. split; [tauto|].
  intros [H1 H2]. repeat split; auto.
  apply Z.gtb_lt. unfold len.
  apply existsb_exists in H1, H2.
  destruct H1 as (l1 & Hl1 & C1), H2 as (l2 & Hl2 & C2).
  assert (l1 <> l2).
  { intros ->. rewrite Forall_forall in Hwf.
    destruct (Hwf _ Hl2) as [Hp | [_ Hc]]; [|congruence].
    apply vst_path_facts in Hp. destruct Hp as (_ & Hp & _). congruence. }
  destruct locations as [|x [|y m]]; simpl in *; try tauto; try lia.
  intuition congruence.
Qed.

(** C3 at a failing input. Two files of the standalone tree, in a
    directory named [vst], hold the same function: the group has one root
    identifier, and [find_duplicate_functions] reports it as cross-boundary
    duplication. *)
Theorem cross_boundary_same_root :
  let issues :=
    snd (find_duplicate_functions Samples.ascii_table [] Samples.standalone_vst_dir [] []) in
  List.map category issues = [of_string "Code Duplication - Cross-boundary"]
  /\ List.map where_ issues
     = [Locations [(of_string "src/vst/adapter_a.c", 1); (of_string "src/vst/adapter_b.c", 1)]]
  /\ root_ids [(of_string "src/vst/adapter_a.c", of_string "foo", 1);
               (of_string "src/vst/adapter_b.c", of_string "foo", 1)]
     = [StandaloneTree].
Proof.
  cbv zeta. split; [|split]; vm_compute; reflexivity.
Qed.

(** The same function in one file of each tree is reported, once. *)
Example cross_boundary_two_roots :
  List.map where_
    (snd (find_duplicate_functions Samples.ascii_table
            Samples.plugin_file Samples.standalone_file [] []))
  = [Locations [(of_string "vst/source/Core.cpp", 1); (of_string "src/core/core.c", 1)]].
Proof. vm_compute. reflexivity. Qed.

End DuplicationIndexFacts.

(* ================================================================== *)
(** ** The quality assessment *)
(* ================================================================== *)

Module MetricsFacts.
Import Metrics.

(** The score and the deductions as a function of the four tests. *)
Lemma scoring_cases m :
  quality_score m
  = 100 - (if complexity_high m then 20 else 0)
        - (if many_complex m then 15 else 0)
        - (if ratio_low m then 10 else if ratio_high m then 5 else 0)
  /\ sum (deductions m) = 100 - quality_score m.
Proof.
  unfold quality_score, deductions, scoring.
  destruct (complexity_high m), (many_complex m), (ratio_low m), (ratio_high m);
    split; reflexivity.
Qed.

(** C5. The quality score lies in [0,100], the deductions made sum to
    100 minus the score, and a corpus for which at least the same
    threshold tests hold scores no higher. *)
Theorem quality_score_bounded_monotone (m m' : metrics) :
  conditions_le m m' ->
  0 <= quality_score m <= 100
  /\ sum (deductions m) = 100 - quality_score m
  /\ quality_score m' <= quality_score m.
Proof.
  intros (H1 & H2 & H3 & H4).
  destruct (scoring_cases m) as [E Hsum], (scoring_cases m') as [E' _].
  rewrite Hsum, E, E'.
  destruct (complexity_high m), (many_complex m), (ratio_low m), (ratio_high m);
    try rewrite (H1 eq_refl); try rewrite (H2 eq_refl);
    try rewrite (H3 eq_refl); try rewrite (H4 eq_refl);
    destruct (complexity_high m'), (many_complex m'), (ratio_low m'), (ratio_high m');
    lia.
Qed.

Lemma quality_score_bounded_monotone_witness :
  conditions_le Samples.no_metrics Samples.complex_metrics
  /\ (0 <= quality_score Samples.no_metrics <= 100
      /\ sum (deductions Samples.no_metrics) = 100 - quality_score Samples.no_metrics
      /\ quality_score Samples.complex_metrics <= quality_score Samples.no_metrics).
Proof.
  assert (H : conditions_le Samples.no_metrics Samples.complex_metrics).
  { unfold conditions_le. repeat split; vm_compute; congruence. }
  split; [exact H | exact (quality_score_bounded_monotone H)].
Defined.

End MetricsFacts.

(* ================================================================== *)
(** ** Commented-out code *)
(* ================================================================== *)

Module AIBiasFacts.
Import Issue Extractor AIBias.

Lemma enumerate_app {A} (l1 l2 : list A) :
  forall i, enumerate i (l1 ++ l2) = enumerate i l1 ++ enumerate (i + len l1) l2.
Proof.
  unfold len. induction l1 as [|x l1 IH]; intros i.
  - simpl. rewrite Z.add_0_r. reflexivity.
  - change (enumerate i ((x :: l1) ++ l2)) with ((i, x) :: enumerate (i + 1) (l1 ++ l2)).
    change (enumerate i (x :: l1)) with ((i, x) :: enumerate (i + 1) l1).
    rewrite IH.
    replace (i + Z.of_nat (List.length (x :: l1)))
      with (i + 1 + Z.of_nat (List.length l1))
      by (change (List.length (x :: l1)) with (S (List.length l1)); lia).
    reflexivity.
Qed.

(** Lines that qualify extend the run and report nothing. *)
Lemma run_keeps_issues file run :
  forall i st, Forall (fun l => qualifies l = true) run ->
  issues (fold_left (step file) (enumerate i run) st) = issues st.
Proof.
  induction run as [|l run IH]; intros i st H; [reflexivity|].
  inversion H as [|? ? Hl Hrun]; subst.
  simpl. rewrite IH by assumption.
  unfold qualifies in Hl. apply andb_true_iff in Hl. destruct Hl as [Hc Hk].
  rewrite Hc, Hk. reflexivity.
Qed.

(** C10. A run of commented-out code-like lines that reaches the last
    line of a file adds no issue: the file is checked as if it ended before
    the run, so the trailing run itself is never reported, whatever its
    length. *)
Theorem trailing_run_not_reported (file : text) (before run : list text) (found : state) :
  Forall (fun l => qualifies l = true) run ->
  (3 <= List.length run)%nat ->
  check_dead_code_file file (before ++ run) found
  = check_dead_code_file file before found.
Proof.
  intros H _. unfold check_dead_code_file.
  rewrite enumerate_app, fold_left_app.
  apply run_keeps_issues, H.
Qed.

Lemma trailing_run_not_reported_witness :
  let run := List.map of_string ["// int a = 1;"; "// int b = 2;"; "// foo(a, b);"]%string in
  Forall (fun l => qualifies l = true) run
  /\ (3 <= List.length run)%nat
  /\ check_dead_code_file (of_string "vst/source/Y.cpp") ([of_string "int c = 3;"] ++ run) []
     = check_dead_code_file (of_string "vst/source/Y.cpp") [of_string "int c = 3;"] [].
Proof.
  cbv zeta.
  assert (H : Forall (fun l => qualifies l = true)
                (List.map of_string ["// int a = 1;"; "// int b = 2;"; "// foo(a, b);"]%string)).
  { repeat constructor. }
  assert (L : (3 <= List.length
                 (List.map of_string ["// int a = 1;"; "// int b = 2;"; "// foo(a, b);"]%string))%nat).
  { simpl. lia. }
  split; [exact H | split; [exact L|]].
  exact (trailing_run_not_reported (of_string "vst/source/Y.cpp") [of_string "int c = 3;"] [] H L).
Defined.

End AIBiasFacts.

(* ================================================================== *)
(** ** The orchestrator *)
(* ================================================================== *)

Module OrchestratorFacts.
Import Issue Orchestrator.

Lemma severity_eqb_eq a b : severity_eqb a b = true <-> a = b.
Proof. destruct a, b; simpl; split; congruence. Qed.

Lemma collect_bucket sev name o i :
  bucket sev (collect name o i)
  = bucket sev o ++ (if severity_eqb (severity_of i) sev then [(name, i)] else []).
Proof.
  unfold collect. destruct (severity_of i), sev; simpl; auto using app_nil_r.
  all: rewrite app_nil_r; reflexivity.
Qed.

Lemma collect_reports name o i :
  individual_reports (collect name o i) = individual_reports o.
Proof. unfold collect. destruct (severity_of i); reflexivity. Qed.

Lemma collect_all_bucket sev name found :
  forall o,
    bucket sev (fold_left (collect name) found o)
    = bucket sev o
      ++ List.map (fun i => (name, i))
           (filter (fun i => severity_eqb (severity_of i) sev) found).
Proof.
  induction found as [|i found IH]; intros o; simpl.
  - rewrite app_nil_r. reflexivity.
  - rewrite IH, collect_bucket, <- app_assoc.
    destruct (severity_eqb (severity_of i) sev); reflexivity.
Qed.

Lemma run_agent_bucket sev o a :
  bucket sev (run_agent o a) = bucket sev o ++ contribution sev a.
Proof.
  unfold run_agent, contribution, report_of, issues_after.
  destruct (run a []) as [[report|] found]; simpl.
  - rewrite collect_all_bucket. destruct sev; reflexivity.
  - rewrite app_nil_r. reflexivity.
Qed.

Lemma run_agents_bucket sev agents :
  forall o,
    bucket sev (fold_left run_agent agents o)
    = bucket sev o ++ flat_map (contribution sev) agents.
Proof.
  induction agents as [|a agents IH]; intros o; simpl.
  - rewrite app_nil_r. reflexivity.
  - rewrite IH, run_agent_bucket, app_assoc. reflexivity.
Qed.

(** Each bucket is the contributions of the agents, in their order. *)
Lemma bucket_run_all_agents sev agents :
  bucket sev (run_all_agents agents) = flat_map (contribution sev) agents.
Proof.
  unfold run_all_agents. rewrite run_agents_bucket. destruct sev; reflexivity.
Qed.

Lemma same_name_same_agent (agents : list agent) (a b : agent) :
  NoDup (List.map agent_name agents) ->
  In a agents -> In b agents -> agent_name a = agent_name b -> a = b.
Proof.
  induction agents as [|x agents IH]; intros Hn Ha Hb E; [destruct Ha|].
  cbn [List.map] in Hn. inversion Hn as [|? ? Hx Hn']; subst.
  destruct Ha as [-> | Ha], Hb as [-> | Hb].
  - reflexivity.
  - exfalso. apply Hx. rewrite E. apply in_map, Hb.
  - exfalso. apply Hx. rewrite <- E. apply in_map, Ha.
  - apply IH; assumption.
Qed.

Lemma collected_from_returned (agents : list agent) sev name i :
  In (name, i) (bucket sev (run_all_agents agents)) ->
  exists b,
    In b agents /\ agent_name b = name /\ report_of b <> None
    /\ In i (issues_after b) /\ severity_of i = sev.
Proof.
  rewrite bucket_run_all_agents. intros H.
  apply in_flat_map in H. destruct H as (b & Hb & H).
  unfold contribution in H. destruct (report_of b) eqn:Er; [|destruct H].
  apply in_map_iff in H. destruct H as (i' & [= <- <-] & Hi).
  apply filter_In in Hi. destruct Hi as [Hi Hs].
  apply severity_eqb_eq in Hs.
  exists b. repeat split; auto. congruence.
Qed.

(** C6 (amended). Every issue of an agent whose [run()] returned is in
    the bucket of its severity under the agent's name, whatever the other
    agents did, raising included; every item of a bucket is an issue of
    that severity of an agent whose [run()] returned; and with agents of
    different names no bucket holds anything under the name of an agent
    that raised, whatever it had found before. *)
Theorem returned_agent_issues_kept (agents : list agent) (a : agent) :
  In a agents ->
  let o := run_all_agents agents in
  (report_of a <> None ->
   forall i, In i (issues_after a) -> In (agent_name a, i) (bucket (severity_of i) o))
  /\ (forall sev name i,
        In (name, i) (bucket sev o) ->
        exists b,
          In b agents /\ agent_name b = name /\ report_of b <> None
          /\ In i (issues_after b) /\ severity_of i = sev)
  /\ (report_of a = None ->
      NoDup (List.map agent_name agents) ->
      forall sev i, ~ In (agent_name a, i) (bucket sev o)).
Proof.
  intros Ha. cbv zeta. split; [|split].
  - intros Hr i Hi.
    rewrite bucket_run_all_agents. apply in_flat_map. exists a. split; auto.
    unfold contribution. destruct (report_of a); [|congruence].
    apply in_map, filter_In. split; auto.
    apply severity_eqb_eq. reflexivity.
  - intros sev name i. apply collected_from_returned.
  - intros Hr Hn sev i Hin.
    apply collected_from_returned in Hin.
    destruct Hin as (b & Hb & E & Hrb & _).
    assert (b = a) by (apply (same_name_same_agent agents); assumption).
    subst b. contradiction.
Qed.

Lemma returned_agent_issues_kept_witness :
  let a := Samples.sound_scanner in
  let agents := [Samples.failing_scanner; a] in
  let o := run_all_agents agents in
  In a agents
  /\ (report_of a <> None ->
      forall i, In i (issues_after a) -> In (agent_name a, i) (bucket (severity_of i) o))
  /\ (forall sev name i,
        In (name, i) (bucket sev o) ->
        exists b,
          In b agents /\ agent_name b = name /\ report_of b <> None
          /\ In i (issues_after b) /\ severity_of i = sev)
  /\ (report_of a = None ->
      NoDup (List.map agent_name agents) ->
      forall sev i, ~ In (agent_name a, i) (bucket sev o)).
Proof.
  cbv zeta.
  assert (Ha : In Samples.sound_scanner [Samples.failing_scanner; Samples.sound_scanner])
    by (right; left; reflexivity).
  split; [exact Ha|].
  exact (@returned_agent_issues_kept [Samples.failing_scanner; Samples.sound_scanner]
           Samples.sound_scanner Ha).
Defined.

(** C6 as stated fails: the scanner found a block in file Y before file X
    made it raise, and no bucket holds anything of it. *)
Lemma failing_scanner_issues_dropped :
  List.map issue_file (issues_after Samples.failing_scanner) = [of_string "vst/source/Y.cpp"]
  /\ report_of Samples.failing_scanner = None
  /\ let o := run_all_agents [Samples.failing_scanner; Samples.sound_scanner] in
     errors o = []
     /\ List.map item_agent (warnings o) = [of_string "Second Scanner"]
     /\ infos o = [].
Proof.
  cbv zeta. repeat split; vm_compute; reflexivity.
Qed.

(** C7 (amended). Nothing is sorted: each severity bucket of the
    consolidated result lists, agent after agent in the order of
    registration, the issues of every agent whose [run()] returned, in the
    order the agent emitted them. *)
Theorem consolidated_order (agents : list agent) :
  errors (run_all_agents agents) = flat_map (contribution ERROR) agents
  /\ warnings (run_all_agents agents) = flat_map (contribution WARNING) agents
  /\ infos (run_all_agents agents) = flat_map (contribution INFO) agents.
Proof.
  repeat split.
  - apply (bucket_run_all_agents ERROR).
  - apply (bucket_run_all_agents WARNING).
  - apply (bucket_run_all_agents INFO).
Qed.

(** C7 as stated fails: the warnings of one scanner come out with file Y
    before file A, and exchanging two scanners exchanges their issues. *)
Lemma consolidated_not_sorted :
  ~ Sorted key_le (warnings (run_all_agents [Samples.unordered_scanner]))
  /\ run_all_agents [Samples.sound_scanner; Samples.unordered_scanner]
     <> run_all_agents [Samples.unordered_scanner; Samples.sound_scanner].
Proof.
  split.
  - intros H. vm_compute in H.
    inversion H as [|? ? _ Hd]; subst.
    inversion Hd as [|? ? Hle]; subst.
    apply Hle. reflexivity.
  - intros H. apply (f_equal (fun o => List.map item_agent (warnings o))) in H.
    vm_compute in H. discriminate.
Qed.

End OrchestratorFacts.

(* ================================================================== *)
(** ** main and the exit status *)
(* ================================================================== *)

Module MainFacts.
Import Issue Orchestrator.

Section Saved.
Variable reports_dir : text.
Variable writable : text -> bool.
Variable consolidated_text : orchestrator -> text.
Variable summary_json : orchestrator -> text.
Variable str_lower : text -> text.
Hypothesis all_writable : forall p, writable p = true.

Lemma write_text_returns path content fs :
  fst (write_text writable path content fs) = Some tt.
Proof. unfold write_text. rewrite all_writable. reflexivity. Qed.

Lemma write_reports_return (reports : list (text * text)) :
  forall fs,
    fst (Py.for_each reports
           (fun nr => write_text writable (in_reports reports_dir (report_filename str_lower (fst nr)))
                        (snd nr)) fs)
    = Some tt.
Proof.
  induction reports as [|r reports IH]; intros fs; [reflexivity|].
  simpl. unfold Py.bind.
  pose proof (write_text_returns (in_reports reports_dir (report_filename str_lower (fst r))) (snd r) fs) as H.
  destruct (write_text writable _ _ fs) as [[[]|] fs']; [apply IH | discriminate].
Qed.

Lemma save_reports_returns o fs :
  fst (save_reports reports_dir writable consolidated_text summary_json str_lower o fs)
  = Some (in_reports reports_dir (of_string "CONSOLIDATED_REPORT.txt")).
Proof.
  unfold save_reports, Py.bind.
  pose proof (write_reports_return (individual_reports o) fs) as H.
  destruct (Py.for_each _ _ fs) as [[[]|] fs1]; [|discriminate].
  unfold write_text. rewrite !all_writable. reflexivity.
Qed.

End Saved.

(** C9 (amended). When the reports can be written, the exit status is 0,
    whatever issues the agents produced. *)
Theorem exit_code_zero (reports_dir : text) (writable : text -> bool)
  (consolidated_text summary_json : orchestrator -> text) (str_lower : text -> text)
  (agents : list agent) (fs : files) :
  (forall p, writable p = true) ->
  exit_code reports_dir writable consolidated_text summary_json str_lower agents fs = 0.
Proof.
  intros H. unfold exit_code, main, Py.bind.
  pose proof (@save_reports_returns reports_dir writable consolidated_text summary_json
                str_lower H (run_all_agents agents) fs) as E.
  destruct (save_reports _ _ _ _ _ _ fs) as [[p|] fs']; [reflexivity | discriminate].
Qed.

Lemma exit_code_zero_witness :
  (forall p, (fun _ : text => true) p = true)
  /\ exit_code (of_string "scripts/code_review/reports") (fun _ => true)
       (fun o => join_lines (critical_lines o ++ recommendation_lines o))
       (fun _ => []) Naming.ascii_lower
       [Samples.sound_scanner] []
     = 0.
Proof.
  assert (H : forall p, (fun _ : text => true) p = true) by reflexivity.
  split; [exact H|].
  exact (@exit_code_zero (of_string "scripts/code_review/reports") (fun _ => true)
           (fun o => join_lines (critical_lines o ++ recommendation_lines o))
           (fun _ => []) Naming.ascii_lower [Samples.sound_scanner] [] H).
Defined.

(** C9 as stated fails in both directions: with an ERROR issue collected
    the status is 0, and with no issue at all it is 1 when the reports
    cannot be written. *)
Lemma exit_code_ignores_errors :
  (errors (run_all_agents [Samples.architecture_scanner]) <> []
   /\ exit_code (of_string "scripts/code_review/reports") (fun _ => true)
        (fun o => join_lines (critical_lines o ++ recommendation_lines o))
        (fun _ => []) Naming.ascii_lower
        [Samples.architecture_scanner] []
      = 0)
  /\ (errors (run_all_agents []) = []
      /\ exit_code (of_string "scripts/code_review/reports") (fun _ => false)
           (fun o => join_lines (critical_lines o ++ recommendation_lines o))
           (fun _ => []) Naming.ascii_lower
           [] []
         = 1).
Proof.
  split; split.
  - vm_compute. discriminate.
  - vm_compute. reflexivity.
  - reflexivity.
  - vm_compute. reflexivity.
Qed.

End MainFacts.

(* ================================================================== *)
(** ** The audio callback and the recommendations *)
(* ================================================================== *)

Module ArchitectureFacts.
Import Issue Orchestrator Architecture.

(** C8 at a failing input. The lock is on line 4 of the file; the one
    ERROR issue of category RT-Audio Safety names the file and line 2, the
    line of the lock counted from the opening brace of [processBlock];
    line 2 of the file is the signature. *)
Theorem rt_safety_line_is_relative :
  let found := snd (check_rt_audio_safety Samples.ascii_table
                      (Some Samples.processor_source) []) in
  List.map (fun i => (severity_of i, category i, where_ i)) found
  = [(ERROR, of_string "RT-Audio Safety", At processor_path 2)]
  /\ nth_error (split_lines Samples.processor_source) 3
     = Some (of_string "    std::lock_guard<std::mutex> lock(stateMutex);")
  /\ nth_error (split_lines Samples.processor_source) 1
     = Some (of_string "void Sp3ctraAudioProcessor::processBlock(juce::AudioBuffer<float>& buffer, juce::MidiBuffer& midi)").
Proof.
  cbv zeta. split; [|split]; vm_compute; reflexivity.
Qed.

(** The rules on the warnings only append. *)
Lemma warning_rules_append (ws : list item) (rules : list (string * text)) :
  forall recs,
    exists more,
      fold_left
        (fun recs rule =>
           if any_category (fst rule) ws then recs ++ [snd rule] else recs)
        rules recs
      = recs ++ more.
Proof.
  induction rules as [|r rules IH]; intros recs; simpl.
  - exists []. rewrite app_nil_r. reflexivity.
  - destruct (any_category (fst r) ws).
    + destruct (IH (recs ++ [snd r])) as [more E].
      exists (snd r :: more). rewrite E, <- app_assoc. reflexivity.
    + apply IH.
Qed.

(** X7. With an ERROR issue of a category that contains [RT-Audio Safety],
    the fix of the audio callback is the first recommendation. *)
Lemma rt_safety_recommended_first (o : orchestrator) :
  any_category "RT-Audio Safety" (errors o) = true ->
  exists rest, generate_recommendations o = rt_safety_text :: rest.
Proof.
  intros H. unfold generate_recommendations. rewrite H.
  destruct (warning_rules_append (warnings o) warning_rules ([] ++ [rt_safety_text]))
    as [more E].
  rewrite E. exists more. reflexivity.
Qed.

(** With no rule matching, the one recommendation is the positive one. *)
Lemma positive_recommendation (o : orchestrator) :
  any_category "RT-Audio Safety" (errors o) = false ->
  Forall (fun rule => any_category (fst rule) (warnings o) = false) warning_rules ->
  generate_recommendations o = [positive_text].
Proof.
  intros H Hw. unfold generate_recommendations. rewrite H.
  unfold warning_rules in *.
  repeat match goal with
         | Hf : Forall _ (_ :: _) |- _ => inversion Hf; clear Hf; subst
         end.
  simpl fst in *. cbn [fold_left fst snd].
  repeat match goal with
         | Hc : any_category _ _ = false |- _ => rewrite Hc; clear Hc
         end.
  reflexivity.
Qed.

End ArchitectureFacts.

(* ================================================================== *)
(** * Further properties of the agents *)
(* ================================================================== *)

(** ** The canonical text *)

Module CanonicalText.
Import Normalizer NormalizerFacts.

Lemma no_dslash_contains s : no_dslash s = true -> contains [SLASH; SLASH] s = false.
Proof.
  induction s as [|c r IH]; [reflexivity|].
  simpl no_dslash. intros H. split_andb.
  change (contains [SLASH; SLASH] (c :: r))
    with (startswith [SLASH; SLASH] (c :: r) || contains [SLASH; SLASH] r).
  rewrite IH by assumption. rewrite orb_false_r.
  destruct r as [|d r]; cbn [startswith head_is] in *.
  - apply andb_false_r.
  - rewrite andb_true_r. rewrite !(Z.eqb_sym SLASH). exact H.
Qed.

Lemma single_spaced_only_spaces s :
  forall b, single_spaced b s = true -> Forall (fun c => isspace c = true -> c = SPACE) s.
Proof.
  induction s as [|c r IH]; intros b H; constructor.
  - simpl in H. destruct (isspace c); [|discriminate].
    split_andb. intros _. apply Z.eqb_eq. assumption.
  - simpl in H. destruct (isspace c); [split_andb|]; eauto.
Qed.

Lemma single_spaced_no_double s :
  forall b, single_spaced b s = true -> contains [SPACE; SPACE] s = false.
Proof.
  induction s as [|c r IH]; intros b H; [reflexivity|].
  change (contains [SPACE; SPACE] (c :: r))
    with (startswith [SPACE; SPACE] (c :: r) || contains [SPACE; SPACE] r).
  simpl in H. destruct (isspace c) eqn:E.
  - split_andb. rewrite (IH true) by assumption. rewrite orb_false_r.
    destruct r as [|d r]; cbn [startswith].
    + apply andb_false_r.
    + simpl in H0. destruct (isspace d) eqn:Ed.
      * split_andb. discriminate.
      * destruct (Z.eqb_spec SPACE d) as [<-|]; [discriminate|].
        rewrite andb_false_r. reflexivity.
  - rewrite (IH false) by assumption. rewrite orb_false_r.
    cbn [startswith]. destruct (Z.eqb_spec SPACE c) as [<-|]; [discriminate|].
    reflexivity.
Qed.

Lemma find_close_contains s :
  find_close s = None -> contains [STAR; SLASH] s = false.
Proof.
  induction s as [|c r IH]; [reflexivity|].
  intros H. destruct (find_close_cons_inv _ _ H) as [H1 H2].
  change (contains [STAR; SLASH] (c :: r))
    with (startswith [STAR; SLASH] (c :: r) || contains [STAR; SLASH] r).
  rewrite IH by assumption. rewrite orb_false_r.
  destruct r as [|d r]; cbn [startswith head_is] in *.
  - apply andb_false_r.
  - rewrite andb_true_r. rewrite !(Z.eqb_sym _ c), (Z.eqb_sym _ d). exact H1.
Qed.

Lemma no_block_split s :
  no_block s = true ->
  forall u v, s = u ++ SLASH :: STAR :: v -> contains [STAR; SLASH] v = false.
Proof.
  intros H u v ->. apply no_block_app_r in H.
  cbn [no_block opens_block] in H.
  apply andb_true_iff in H. destruct H as [H _].
  destruct (find_close v) eqn:F; [vm_compute in H; discriminate|].
  apply find_close_contains, F.
Qed.

(** X1. The text [normalize_code] returns holds no [//], no white space
    other than single spaces, none of them at either end, and no [/*]
    with a [*/] after it. *)
Theorem normalize_code_canonical (x : text) :
  let n := normalize_code x in
  contains (of_string "//") n = false
  /\ Forall (fun c => isspace c = true -> c = SPACE) n
  /\ contains (of_string "  ") n = false
  /\ strip n = n
  /\ (forall u v, n = u ++ of_string "/*" ++ v -> contains (of_string "*/") v = false).
Proof.
  destruct (normalize_code_shape x) as (Hd & Hb & Hs). cbv zeta in *.
  split; [apply no_dslash_contains, Hd|].
  split; [apply (single_spaced_only_spaces _ false), Hs|].
  split; [apply (single_spaced_no_double _ false), Hs|].
  split; [apply normalize_code_stripped|].
  intros u v E. eapply no_block_split; [exact Hb | exact E].
Qed.

End CanonicalText.

(** ** The quality assessment *)

Module AssessmentFacts.
Import Metrics MetricsFacts.

(** X2. The score is never below 55, so the assessment never says
    Poor. *)
Theorem quality_score_never_poor (m : metrics) :
  55 <= quality_score m /\ verdict_of (quality_score m) <> Poor.
Proof.
  destruct (scoring_cases m) as [E _]. rewrite E.
  destruct (complexity_high m), (many_complex m), (ratio_low m), (ratio_high m);
    split; try lia; vm_compute; discriminate.
Qed.

Lemma Qle_bool_false_lt x y : Qle_bool x y = false -> (y < x)%Q.
Proof.
  intros H. apply Qnot_le_lt. intros Hle.
  apply Qle_bool_iff in Hle. congruence.
Qed.

(** X3. A score of 100 needs a measured comment ratio from 10% to 50%:
    without the key [avg_comment_ratio] ten points are taken off. *)
Theorem perfect_score_needs_ratio (m : metrics) :
  quality_score m = 100 ->
  exists r, avg_comment_ratio m = Some r /\ (1 # 10 <= r)%Q /\ (r <= 1 # 2)%Q.
Proof.
  intros H. destruct (scoring_cases m) as [E _]. rewrite E in H.
  destruct (ratio_low m) eqn:Hl;
    [destruct (complexity_high m), (many_complex m); lia|].
  destruct (ratio_high m) eqn:Hh;
    [destruct (complexity_high m), (many_complex m); lia|].
  unfold ratio_low, ratio_high, Qltb, Qgtb in Hl, Hh.
  apply negb_false_iff in Hl, Hh.
  destruct (avg_comment_ratio m) as [r|]; simpl in Hl, Hh.
  - exists r. repeat split; apply Qle_bool_iff; assumption.
  - vm_compute in Hl. discriminate.
Qed.

Lemma perfect_score_needs_ratio_witness :
  quality_score Samples.fine_metrics = 100
  /\ exists r, avg_comment_ratio Samples.fine_metrics = Some r
               /\ (1 # 10 <= r)%Q /\ (r <= 1 # 2)%Q.
Proof.
  assert (H : quality_score Samples.fine_metrics = 100) by reflexivity.
  split; [exact H | exact (perfect_score_needs_ratio Samples.fine_metrics H)].
Defined.

End AssessmentFacts.

(** ** What the orchestrator collects *)

Module CollectionFacts.
Import Issue Orchestrator OrchestratorFacts.

Lemma collect_all_reports name found :
  forall o, individual_reports (fold_left (collect name) found o) = individual_reports o.
Proof.
  induction found as [|i found IH]; intros o; simpl; auto.
  rewrite IH. apply collect_reports.
Qed.

Lemma run_agents_reports agents :
  forall o,
    individual_reports (fold_left run_agent agents o)
    = individual_reports o ++ returned_reports agents.
Proof.
  unfold returned_reports.
  induction agents as [|a agents IH]; intros o; simpl.
  - rewrite app_nil_r. reflexivity.
  - rewrite IH. unfold run_agent, report_of.
    destruct (run a []) as [[report|] found]; simpl.
    + rewrite collect_all_reports. simpl. rewrite <- app_assoc. reflexivity.
    + reflexivity.
Qed.

(** X4. The reports kept are those of the agents whose [run()] returned,
    under the agents' names and in their order; an agent that raised
    leaves no report. *)
Theorem reports_of_returned_agents (agents : list agent) :
  individual_reports (run_all_agents agents) = returned_reports agents.
Proof. unfold run_all_agents. rewrite run_agents_reports. reflexivity. Qed.

Lemma severity_partition (l : list issue) :
  (List.length (filter (fun i => severity_eqb (severity_of i) ERROR) l)
   + List.length (filter (fun i => severity_eqb (severity_of i) WARNING) l)
   + List.length (filter (fun i => severity_eqb (severity_of i) INFO) l)
   = List.length l)%nat.
Proof.
  induction l as [|i l IH]; simpl; auto.
  destruct (severity_of i); simpl; lia.
Qed.

Lemma contribution_lengths (a : agent) :
  (List.length (contribution ERROR a) + List.length (contribution WARNING a)
   + List.length (contribution INFO a)
   = List.length (match report_of a with Some _ => issues_after a | None => [] end))%nat.
Proof.
  unfold contribution. destruct (report_of a); [|reflexivity].
  rewrite !length_map. apply severity_partition.
Qed.

(** X5. The totals of the summary count every issue of every agent that
    returned, once: errors, warnings and infos add up to the number of
    those issues. *)
Theorem summary_counts_every_issue (agents : list agent) :
  let o := run_all_agents agents in
  len (errors o) + len (warnings o) + len (infos o) = len (returned_issues agents).
Proof.
  cbv zeta.
  pose proof (bucket_run_all_agents ERROR agents) as He.
  pose proof (bucket_run_all_agents WARNING agents) as Hw.
  pose proof (bucket_run_all_agents INFO agents) as Hi.
  simpl in He, Hw, Hi. rewrite He, Hw, Hi. clear He Hw Hi.
  unfold len, returned_issues.
  induction agents as [|a agents IH]; [reflexivity|].
  simpl flat_map. rewrite !length_app.
  pose proof (contribution_lengths a). lia.
Qed.

End CollectionFacts.

(** ** The recommendations *)

Module RecommendationFacts.
Import Issue Orchestrator.

Ltac refute_in H :=
  cbv [In] in H;
  repeat (destruct H as [H | H]; [vm_compute in H; discriminate|]);
  destruct H.

Ltac distinct_texts :=
  repeat (first [apply NoDup_nil | apply NoDup_cons]);
  let H := fresh in intros H; refute_in H.

(** X6. The recommendations are never empty, never repeat a text and
    number at most seven; the positive text is among them exactly when no
    rule matches. *)
Theorem recommendations_shape (o : orchestrator) :
  let recs := generate_recommendations o in
  NoDup recs
  /\ (1 <= List.length recs <= 7)%nat
  /\ (In positive_text recs <->
      any_category "RT-Audio Safety" (errors o) = false
      /\ Forall (fun rule => any_category (fst rule) (warnings o) = false) warning_rules).
Proof.
  cbv zeta. unfold generate_recommendations, warning_rules.
  cbn [fold_left fst snd].
  destruct (any_category "RT-Audio Safety" (errors o)) eqn:E0;
    destruct (any_category "Architecture" (warnings o)) eqn:E1;
    destruct (any_category "Duplication" (warnings o)) eqn:E2;
    destruct (any_category "AI Bias" (warnings o)) eqn:E3;
    destruct (any_category "UI" (warnings o)) eqn:E4;
    destruct (any_category "Config" (warnings o)) eqn:E5;
    destruct (any_category "Instance Isolation" (warnings o)) eqn:E6;
    cbn [app].
  all: split; [distinct_texts | split; [simpl; lia|]].
  all: split.
  all: try (intros Hin; exfalso; refute_in Hin; fail).
  all: try (intros _; split; [reflexivity | repeat constructor; assumption]; fail).
  all: intros [Hrt Hall]; try discriminate Hrt.
  all: repeat match goal with
              | H : Forall _ (_ :: _) |- _ => inversion H; clear H; subst
              end.
  all: cbn [fst] in *; try congruence.
  all: simpl; auto.
Qed.

Lemma rt_safety_recommended_first_witness :
  let o := run_all_agents [Samples.architecture_scanner] in
  any_category "RT-Audio Safety" (errors o) = true
  /\ exists rest, generate_recommendations o = rt_safety_text :: rest.
Proof.
  cbv zeta.
  assert (H : any_category "RT-Audio Safety"
                (errors (run_all_agents [Samples.architecture_scanner])) = true)
    by (vm_compute; reflexivity).
  split; [exact H|].
  exact (ArchitectureFacts.rt_safety_recommended_first
           (run_all_agents [Samples.architecture_scanner]) H).
Defined.

End RecommendationFacts.

(** ** The duplicate groups *)

Module GroupFacts.
Import Issue DuplicationIndex DuplicationIndexFacts.

Lemma reported_iff_two_roots_witness :
  Forall (fun loc =>
            vst_path (loc_file loc)
            \/ (standalone_path (loc_file loc)
                /\ contains (of_string "vst/") (loc_file loc) = false))
    Samples.mixed_group
  /\ (reported Samples.mixed_group = true
      <-> (2 <= List.length (root_ids Samples.mixed_group))%nat).
Proof.
  assert (H : Forall (fun loc =>
                        vst_path (loc_file loc)
                        \/ (standalone_path (loc_file loc)
                            /\ contains (of_string "vst/") (loc_file loc) = false))
                Samples.mixed_group).
  { constructor; [|constructor; [|constructor]].
    - left. exists (of_string "Core.cpp"). split; [reflexivity|].
      vm_compute. intuition discriminate.
    - right. split; [exists (of_string "core/core.c"); reflexivity | reflexivity]. }
  split; [exact H | exact (reported_iff_two_roots H)].
Defined.

Lemma report_groups_from (hash_map : Dict.dict string (list location)) :
  forall found,
    report_groups hash_map found
    = (Some tt,
       found ++ List.map (fun entry => group_issue (snd entry))
                  (filter (fun entry => reported (snd entry)) hash_map)).
Proof.
  unfold report_groups.
  induction hash_map as [|entry hash_map IH]; intros found.
  - simpl. rewrite app_nil_r. reflexivity.
  - cbn [Py.for_each filter]. unfold Py.bind at 1. unfold reported at 1.
    destruct (len (snd entry) >? 1); cbn [andb].
    + destruct (nonempty (vst_locs (snd entry)) && nonempty (src_locs (snd entry))).
      * unfold add_issue, Py.modify. rewrite IH.
        cbn [List.map]. rewrite <- app_assoc. reflexivity.
      * unfold Py.ret. rewrite IH. reflexivity.
    + unfold Py.ret. rewrite IH. reflexivity.
Qed.

(** X9. The loop over the groups never raises, keeps the issues already
    found, and adds one WARNING per reported group, in the order of the
    hash map, that lists every member of the group. *)
Theorem report_groups_issues (hash_map : Dict.dict string (list location)) (found : state) :
  fst (report_groups hash_map found) = Some tt
  /\ snd (report_groups hash_map found)
     = found ++ List.map (fun entry => group_issue (snd entry))
                  (filter (fun entry => reported (snd entry)) hash_map)
  /\ Forall (fun i => severity_of i = WARNING
                      /\ exists locations,
                           (2 <= List.length locations)%nat
                           /\ where_ i
                              = Locations (List.map (fun loc => (loc_file loc, loc_line loc))
                                             locations))
       (List.map (fun entry => group_issue (snd entry))
          (filter (fun entry => reported (snd entry)) hash_map)).
Proof.
  rewrite report_groups_from. repeat split.
  apply Forall_forall. intros i Hi.
  apply in_map_iff in Hi. destruct Hi as (entry & <- & He).
  apply filter_In in He. destruct He as [_ Hr].
  split; [reflexivity|]. exists (snd entry). split; [|reflexivity].
  unfold reported in Hr. apply andb_true_iff in Hr. destruct Hr as [Hr _].
  apply andb_true_iff in Hr. destruct Hr as [Hr _].
  apply Z.gtb_lt in Hr. unfold len in Hr. lia.
Qed.

End GroupFacts.
(** ** The dictionary of functions *)

Module FunctionDictFacts.
Import Extractor ExtractorFacts.

Section Keys.
Variable V : Type.

Abbreviation tset := (@Dict.set text V text_eqb).

Lemma set_keys (d : Dict.dict text V) k v :
  forall x, In x (List.map fst (tset d k v)) -> x = k \/ In x (List.map fst d).
Proof.
  induction d as [|[k' v'] d IH]; simpl; intros x H.
  - destruct H as [<- | []]. auto.
  - destruct (text_eqb k' k) eqn:E; simpl in H.
    + destruct H as [<- | H]; auto.
    + destruct H as [H | H]; [auto|]. destruct (IH _ H); auto.
Qed.

Lemma set_nodup (d : Dict.dict text V) k v :
  NoDup (List.map fst d) -> NoDup (List.map fst (tset d k v)).
Proof.
  induction d as [|[k' v'] d IH]; simpl; intros H.
  - repeat constructor. simpl. tauto.
  - inversion H as [|? ? Hn Hd]; subst.
    destruct (text_eqb k' k) eqn:E; simpl.
    + apply TextFacts.text_eqb_eq in E. subst. constructor; assumption.
    + constructor; [|auto].
      intros Hin. destruct (set_keys _ _ _ _ Hin) as [-> | Hin']; [|tauto].
      assert (text_eqb k k = true) by (apply TextFacts.text_eqb_eq; reflexivity).
      congruence.
Qed.

Lemma set_entries (d : Dict.dict text V) k v :
  forall e, In e (tset d k v) -> e = (k, v) \/ In e d.
Proof.
  induction d as [|[k' v'] d IH]; simpl; intros e H.
  - destruct H as [<- | []]. auto.
  - destruct (text_eqb k' k); simpl in H.
    + destruct H as [<- | H]; auto.
    + destruct H as [H | H]; [auto|]. destruct (IH _ H); auto.
Qed.

Lemma replay_keys (tr : list (text * V)) :
  forall acc, NoDup (List.map fst acc) ->
  let d := fold_left (fun d kv => tset d (fst kv) (snd kv)) tr acc in
  NoDup (List.map fst d) /\ forall e, In e d -> In e acc \/ In e tr.
Proof.
  induction tr as [|[k v] tr IH]; intros acc H; simpl.
  - split; auto.
  - destruct (IH (tset acc k v) (set_nodup _ _ _ H)) as [Hn Hin].
    split; [exact Hn|].
    intros e He. destruct (Hin e He) as [Hs | Ht]; [|tauto].
    destruct (set_entries _ _ _ _ Hs) as [-> | Ha]; tauto.
Qed.

End Keys.

(** X10. Whatever the file, the dictionary [extract_functions] returns
    has one entry per name, and every entry starts at or after line 1, ends
    at or after its first line and has more than 100 characters. *)
Theorem extract_functions_entries (unicode_alnum : char -> bool) (content : option text) :
  let spans := extract_functions unicode_alnum content in
  NoDup (List.map span_name spans) /\ Forall span_ok spans.
Proof.
  cbv zeta. destruct content as [content|]; [|split; constructor].
  unfold extract_functions. rewrite dict_is_replay.
  destruct (retained_sorted (func_match unicode_alnum) (split_lines_nl_free content))
    as [_ Hok].
  match goal with
  | |- context [fold_left _ ?tr []] =>
      destruct (@replay_keys (text * Z) tr [] (NoDup_nil _)) as [Hn Hin]
  end.
  split; [exact Hn|].
  apply Forall_forall. intros s Hs.
  destruct (Hin s Hs) as [[] | Ht].
  rewrite Forall_forall in Hok. apply Hok, Ht.
Qed.

End FunctionDictFacts.

(** ** The text of a span *)

Module SpanTextFacts.
Import Extractor ExtractorFacts Slices.

Lemma lines_between_app done more first last :
  last <= len done ->
  lines_between (done ++ more) first last = lines_between done first last.
Proof.
  unfold lines_between, len. intros H.
  rewrite firstn_app.
  replace (Z.to_nat last - List.length done)%nat with 0%nat by lia.
  rewrite firstn_O, app_nil_r. reflexivity.
Qed.

Lemma lines_between_all done first :
  lines_between done first (len done) = skipn (Z.to_nat (first - 1)) done.
Proof.
  unfold lines_between, len. rewrite Nat2Z.id, firstn_all. reflexivity.
Qed.

Lemma skipn_snoc {A} (l : list A) x n :
  (n <= List.length l)%nat -> skipn n (l ++ [x]) = skipn n l ++ [x].
Proof.
  intros H. rewrite skipn_app.
  replace (n - List.length l)%nat with 0%nat by lia. reflexivity.
Qed.

Lemma Forall_skipn {A} (P : A -> Prop) l n : Forall P l -> Forall P (skipn n l).
Proof.
  revert l. induction n as [|n IH]; intros l H; [exact H|].
  destruct l; [constructor|]. inversion H; subst. simpl. auto.
Qed.

Section Loop.
Variable func_match : text -> option text.

Abbreviation tstore := (fun (tr : list span) name v => tr ++ [(name, v)]).

(** What a span is with respect to the lines read so far. *)
Definition slice_of (done : list text) (s : span) : Prop :=
  1 <= span_start s /\ span_start s < span_end s <= len done
  /\ span_code s = join_lines (lines_between done (span_start s) (span_end s)).

Definition inv2 (done : list text) (st : scan (list span)) : Prop :=
  Forall (slice_of done) (functions st)
  /\ (truthy (current_func st) = true ->
      1 <= current_func_start st <= len done
      /\ func_lines st = skipn (Z.to_nat (current_func_start st - 1)) done).

Lemma slice_of_more done l s : slice_of done s -> slice_of (done ++ [l]) s.
Proof.
  intros (H1 & H2 & H3). unfold slice_of.
  rewrite lines_between_app by lia. rewrite len_snoc.
  repeat split; auto; lia.
Qed.

Lemma step_inv2 done l st :
  Forall nl_free (done ++ [l]) ->
  inv2 done st ->
  inv2 (done ++ [l]) (step func_match tstore st (1 + len done, l)).
Proof.
  intros Hnl [Hall Hcur].
  assert (Hall' : Forall (slice_of (done ++ [l])) (functions st)).
  { eapply Forall_impl; [|exact Hall]. intros s. apply slice_of_more. }
  unfold step.
  destruct (truthy (current_func st)) eqn:Ht.
  - destruct (Hcur eq_refl) as ([H1 H2] & Hl).
    assert (Hlines : func_lines st ++ [l]
                     = skipn (Z.to_nat (current_func_start st - 1)) (done ++ [l])).
    { rewrite skipn_snoc, Hl; [reflexivity|]. unfold len in H2. lia. }
    assert (Hstep :
      inv2 (done ++ [l])
        (let lines' := func_lines st ++ [l] in
         let count' := brace_count st + brace_delta l in
         if count' =? 0
         then {| functions :=
                   match current_func st with
                   | Some name =>
                       if len (join_lines lines') >? 100
                       then functions st ++ [(name, (join_lines lines', current_func_start st))]
                       else functions st
                   | None => functions st
                   end;
                 current_func := None;
                 current_func_start := current_func_start st;
                 brace_count := count';
                 func_lines := [] |}
         else {| functions := functions st;
                 current_func := current_func st;
                 current_func_start := current_func_start st;
                 brace_count := count';
                 func_lines := lines' |})).
    { cbv zeta. destruct (_ =? 0).
      - split; [|simpl; discriminate]. simpl.
        destruct (current_func st) as [name|]; [|exact Hall'].
        destruct (_ >? 100); [|exact Hall'].
        apply Forall_app. split; [exact Hall'|].
        constructor; [|constructor].
        assert (Hend : span_end (name, (join_lines (func_lines st ++ [l]),
                                        current_func_start st))
                       = len (done ++ [l])).
        { unfold span_end, span_start, span_code. simpl.
          rewrite count_join.
          - rewrite Hlines. unfold len. rewrite length_skipn, length_app. simpl.
            unfold len in H2. lia.
          - rewrite Hlines. apply Forall_skipn, Hnl.
          - destruct (func_lines st); discriminate. }
        unfold slice_of. rewrite Hend.
        unfold span_start, span_code. simpl.
        rewrite lines_between_all, Hlines, len_snoc.
        repeat split; auto; lia.
      - split; [exact Hall'|]. simpl. intros _.
        rewrite len_snoc. split; [lia | exact Hlines]. }
    destruct (func_match l); exact Hstep.
  - destruct (func_match l) as [name|].
    + split; [exact Hall'|].
      cbn [current_func current_func_start func_lines]. intros _.
      rewrite len_snoc. split; [unfold len; lia|].
      replace (Z.to_nat (1 + len done - 1)) with (List.length done)
        by (unfold len; lia).
      rewrite skipn_app, skipn_all, Nat.sub_diag. reflexivity.
    + split; [exact Hall'|]. rewrite Ht. discriminate.
Qed.

Lemma scan_inv2 todo :
  forall done st,
    Forall nl_free (done ++ todo) ->
    inv2 done st ->
    inv2 (done ++ todo)
      (fold_left (step func_match tstore) (enumerate (1 + len done) todo) st).
Proof.
  induction todo as [|l todo IH]; intros done st Hnl H.
  - rewrite app_nil_r. exact H.
  - cbn [enumerate fold_left].
    replace (done ++ l :: todo) with ((done ++ [l]) ++ todo) in *
      by (rewrite <- app_assoc; reflexivity).
    replace (1 + len done + 1) with (1 + len (done ++ [l])) by (rewrite len_snoc; lia).
    apply IH; [exact Hnl|].
    apply step_inv2; [|exact H].
    apply Forall_app in Hnl. tauto.
Qed.

Lemma retained_slices lines :
  Forall nl_free lines ->
  Forall (slice_of lines) (functions (scan_lines func_match tstore [] lines)).
Proof.
  intros Hnl. unfold scan_lines.
  match goal with |- context [fold_left _ _ ?s] => set (st0 := s) end.
  assert (H0 : inv2 [] st0).
  { split; [constructor | simpl; discriminate]. }
  destruct (@scan_inv2 lines [] st0 Hnl H0) as [H _]. exact H.
Qed.

End Loop.

(** X11. The text of every span [extract_functions] returns is the
    lines of the file from the span's first line to its last, joined by
    line feeds; the last line lies in the file and after the first, so a
    span covers at least two lines. *)
Theorem extract_functions_text (unicode_alnum : char -> bool) (content : text) (s : span) :
  In s (extract_functions unicode_alnum (Some content)) ->
  span_start s < span_end s <= len (split_lines content)
  /\ span_code s
     = join_lines (lines_between (split_lines content) (span_start s) (span_end s)).
Proof.
  intros Hs. unfold extract_functions in Hs. rewrite dict_is_replay in Hs.
  match type of Hs with
  | context [fold_left _ ?tr []] =>
      destruct (@FunctionDictFacts.replay_keys (text * Z) tr [] (NoDup_nil _)) as [_ Hin]
  end.
  destruct (Hin s Hs) as [[] | Ht].
  pose proof (retained_slices (func_match unicode_alnum) (split_lines_nl_free content)) as H.
  rewrite Forall_forall in H. destruct (H s Ht) as (_ & H2 & H3). auto.
Qed.

Lemma extract_functions_text_witness :
  let s := (of_string "foo", (Samples.one_function, 1)) in
  In s (extract_functions Samples.ascii_table (Some Samples.one_function))
  /\ (span_start s < span_end s <= len (split_lines Samples.one_function)
      /\ span_code s
         = join_lines (lines_between (split_lines Samples.one_function)
                         (span_start s) (span_end s))).
Proof.
  cbv zeta.
  assert (H : In (of_string "foo", (Samples.one_function, 1))
                (extract_functions Samples.ascii_table (Some Samples.one_function))).
  { vm_compute. left. reflexivity. }
  split; [exact H|].
  exact (extract_functions_text Samples.ascii_table Samples.one_function _ H).
Defined.

End SpanTextFacts.

(** ** The name of a function *)

Module FunctionNameFacts.
Import Regex RegexShape Extractor.

Section Run.
Variable unicode_alnum : char -> bool.
Variable R : Type.

Lemma star_greedy_inv (p : char -> bool) (k : option char -> text -> option R) s :
  forall pv x,
    star_greedy p k pv s = Some x ->
    exists pre s' pv',
      s = pre ++ s' /\ Forall (fun c => p c = true) pre /\ k pv' s' = Some x.
Proof.
  induction s as [|c s IH]; intros pv x H; simpl in H.
  - exists [], [], pv. auto.
  - destruct (p c) eqn:Hp.
    + destruct (star_greedy p k (Some c) s) as [y|] eqn:E.
      * injection H as <-. destruct (IH _ _ E) as (pre & s' & pv' & -> & Hpre & Hk).
        exists (c :: pre), s', pv'. auto.
      * exists [], (c :: s), pv. auto.
    + exists [], (c :: s), pv. auto.
Qed.

Lemma star_lazy_inv (p : char -> bool) (k : option char -> text -> option R) s :
  forall pv x,
    star_lazy p k pv s = Some x ->
    exists pre s' pv',
      s = pre ++ s' /\ Forall (fun c => p c = true) pre /\ k pv' s' = Some x.
Proof.
  induction s as [|c s IH]; intros pv x H; simpl in H.
  - destruct (k pv []) eqn:E; [|discriminate].
    exists [], [], pv. injection H as <-. auto.
  - destruct (k pv (c :: s)) eqn:E.
    + injection H as <-. exists [], (c :: s), pv. auto.
    + destruct (p c) eqn:Hp; [|discriminate].
      destruct (IH _ _ H) as (pre & s' & pv' & -> & Hpre & Hk).
      exists (c :: pre), s', pv'. auto.
Qed.

(** A successful match is a success of the continuation. *)
Lemma run_continues (r : regex) :
  forall (k : mstate -> option R) st x,
    run unicode_alnum r k st = Some x -> exists st', k st' = Some x.
Proof.
  induction r as [l | p | p | p | p | | | n r IH | r1 IH1 r2 IH2];
    intros k st x H; cbn [run] in H.
  - destruct (startswith l (rest st)); [eauto | discriminate].
  - destruct (rest st) as [|c s]; [discriminate|].
    destruct (p c); [eauto | discriminate].
  - apply star_greedy_inv in H. destruct H as (_ & s' & pv' & _ & _ & H). eauto.
  - destruct (rest st) as [|c s]; [discriminate|].
    destruct (p c); [|discriminate].
    apply star_greedy_inv in H. destruct H as (_ & s' & pv' & _ & _ & H). eauto.
  - apply star_lazy_inv in H. destruct H as (_ & s' & pv' & _ & _ & H). eauto.
  - destruct (xorb _ _); [eauto | discriminate].
  - destruct (prev st); [discriminate | eauto].
  - apply IH in H. destruct H as [st' H]. eauto.
  - apply IH1 in H. destruct H as [st1 H]. apply IH2 in H. exact H.
Qed.

(** A pattern without groups leaves the captures as they are. *)
Lemma run_groupless (r : regex) :
  groupless r = true ->
  forall (k : mstate -> option R) st x,
    run unicode_alnum r k st = Some x ->
    exists st', caps st' = caps st /\ k st' = Some x.
Proof.
  induction r as [l | p | p | p | p | | | n r IH | r1 IH1 r2 IH2];
    intros Hg k st x H; cbn [run] in H.
  - destruct (startswith l (rest st)); [|discriminate].
    eexists. split; [|exact H]. reflexivity.
  - destruct (rest st) as [|c s]; [discriminate|].
    destruct (p c); [|discriminate].
    eexists. split; [|exact H]. reflexivity.
  - apply star_greedy_inv in H. destruct H as (_ & s' & pv' & _ & _ & H).
    eexists. split; [|exact H]. reflexivity.
  - destruct (rest st) as [|c s]; [discriminate|].
    destruct (p c); [|discriminate].
    apply star_greedy_inv in H. destruct H as (_ & s' & pv' & _ & _ & H).
    eexists. split; [|exact H]. reflexivity.
  - apply star_lazy_inv in H. destruct H as (_ & s' & pv' & _ & _ & H).
    eexists. split; [|exact H]. reflexivity.
  - destruct (xorb _ _); [|discriminate].
    eexists. split; [|exact H]. reflexivity.
  - destruct (prev st); [discriminate|].
    eexists. split; [|exact H]. reflexivity.
  - discriminate.
  - simpl in Hg. apply andb_true_iff in Hg. destruct Hg as [G1 G2].
    apply (IH1 G1) in H. destruct H as (st1 & E1 & H).
    apply (IH2 G2) in H. destruct H as (st2 & E2 & H).
    exists st2. split; [congruence | exact H].
Qed.

(** A group around [p+] captures a non-empty run of the class. *)
Lemma run_group_plus n (p : char -> bool) (k : mstate -> option R) st x :
  run unicode_alnum (Group n (Plus p)) k st = Some x ->
  exists pre st',
    pre <> [] /\ Forall (fun c => p c = true) pre
    /\ caps st' = (n, pre) :: caps st /\ k st' = Some x.
Proof.
  cbn [run]. destruct (rest st) as [|c s] eqn:Er; [discriminate|].
  destruct (p c) eqn:Hp; [|discriminate].
  intros H. apply star_greedy_inv in H.
  destruct H as (pre & s' & pv' & -> & Hpre & H).
  cbn [rest prev caps] in H.
  exists (c :: pre). eexists. split; [discriminate|]. split; [auto|].
  split; [|exact H]. cbn [caps]. repeat f_equal.
  change (c :: pre ++ s') with ((c :: pre) ++ s').
  replace (List.length ((c :: pre) ++ s') - List.length s')%nat
    with (List.length (c :: pre)) by (rewrite length_app; lia).
  rewrite firstn_app, Nat.sub_diag, firstn_all. apply app_nil_r.
Qed.

End Run.

(** X12. The name [extract_functions] reads from a signature line is
    never empty and consists of word characters only. *)
Theorem func_match_word (unicode_alnum : char -> bool) (line name : text) :
  func_match unicode_alnum line = Some name ->
  name <> [] /\ Forall (fun c => isword unicode_alnum c = true) name.
Proof.
  unfold func_match, re_match, func_pattern.
  destruct (run _ _ _ _) as [m|] eqn:E; [|discriminate].
  cbn [seqs] in E.
  change (run unicode_alnum (Seq ?a ?b) ?k ?st) with (run unicode_alnum a (run unicode_alnum b k) st) in E.
  apply run_continues in E. destruct E as [st1 E].
  change (run unicode_alnum (Seq ?a ?b) ?k ?st) with (run unicode_alnum a (run unicode_alnum b k) st) in E.
  apply run_continues in E. destruct E as [st2 E].
  change (run unicode_alnum (Seq ?a ?b) ?k ?st) with (run unicode_alnum a (run unicode_alnum b k) st) in E.
  apply run_continues in E. destruct E as [st3 E].
  change (run unicode_alnum (Seq ?a ?b) ?k ?st) with (run unicode_alnum a (run unicode_alnum b k) st) in E.
  apply run_group_plus in E. destruct E as (pre & st4 & Hne & Hw & Hc & E).
  apply run_groupless in E; [|reflexivity].
  destruct E as (st5 & Hc5 & E). injection E as <-.
  rewrite Hc5, Hc. simpl. intros H. injection H as <-. auto.
Qed.

Lemma func_match_word_witness :
  func_match Samples.ascii_table (of_string "static int foo(int a) {") = Some (of_string "foo")
  /\ (of_string "foo" <> []
      /\ Forall (fun c => isword Samples.ascii_table c = true) (of_string "foo")).
Proof.
  assert (H : func_match Samples.ascii_table (of_string "static int foo(int a) {")
              = Some (of_string "foo")) by (vm_compute; reflexivity).
  split; [exact H | exact (func_match_word _ _ H)].
Defined.

End FunctionNameFacts.

(** ** Blocks of commented-out code *)

Module DeadCodeFacts.
Import Issue Extractor AIBias AIBiasFacts DeadCodeSpec.

Definition scan_file (file : text) (lines : list text) (i : Z) (st : dead_code) : dead_code :=
  fold_left (step file) (enumerate i lines) st.

Lemma qualifies_false_step file st i l :
  qualifies l = false ->
  step file st (i, l)
  = {| commented_code_start := None; commented_lines := 0;
       issues := report_block file st |}.
Proof.
  unfold qualifies, step. intros H.
  destruct (is_comment l); [|reflexivity].
  destruct (looks_like_code l); [discriminate | reflexivity].
Qed.

Lemma qualifies_true_step file st i l :
  qualifies l = true ->
  step file st (i, l)
  = {| commented_code_start :=
         match commented_code_start st with None => Some i | Some s => Some s end;
       commented_lines := commented_lines st + 1;
       issues := issues st |}.
Proof.
  unfold qualifies, step. intros H.
  apply andb_true_iff in H. destruct H as [-> ->]. reflexivity.
Qed.

(** After a line that does not qualify, or at the start, no run is open. *)
Lemma closed_state file lines found :
  run_closed lines ->
  let st := scan_file file lines 1
              {| commented_code_start := None; commented_lines := 0; issues := found |} in
  commented_code_start st = None /\ commented_lines st = 0.
Proof.
  intros [-> | (before & l & -> & Hl)]; cbv zeta; [auto|].
  unfold scan_file. rewrite enumerate_app, fold_left_app.
  cbn [enumerate fold_left]. rewrite qualifies_false_step by assumption. auto.
Qed.

Lemma open_run_state file more :
  forall j st s,
    Forall (fun l => qualifies l = true) more ->
    commented_code_start st = Some s ->
    let st' := scan_file file more j st in
    commented_code_start st' = Some s
    /\ commented_lines st' = commented_lines st + len more
    /\ issues st' = issues st.
Proof.
  unfold scan_file.
  induction more as [|m more IH]; intros j st s Hm Hs; cbv zeta.
  - simpl. unfold len. simpl. rewrite Z.add_0_r. auto.
  - inversion Hm as [|? ? Hq Hmore]; subst. cbn [enumerate fold_left].
    rewrite qualifies_true_step by assumption. rewrite Hs.
    destruct (IH (j + 1)
                {| commented_code_start := Some s;
                   commented_lines := commented_lines st + 1;
                   issues := issues st |} s Hmore eq_refl) as (A & B & C).
    cbv zeta in A, B, C. rewrite A, B, C. cbn [commented_lines issues].
    repeat split; auto. unfold len. simpl List.length. lia.
Qed.

(** A run from a closed state: it starts at its first line and counts
    its lines. *)
Lemma run_state file run :
  forall i st,
    Forall (fun l => qualifies l = true) run ->
    run <> [] ->
    commented_code_start st = None ->
    let st' := scan_file file run i st in
    commented_code_start st' = Some i
    /\ commented_lines st' = commented_lines st + len run
    /\ issues st' = issues st.
Proof.
  intros i st H Hne Hs. destruct run as [|l run]; [congruence|].
  inversion H as [|? ? Hl Hrun]; subst.
  cbv zeta. unfold scan_file. cbn [enumerate fold_left].
  rewrite qualifies_true_step by assumption. rewrite Hs.
  destruct (@open_run_state file run (i + 1)
              {| commented_code_start := Some i;
                 commented_lines := commented_lines st + 1;
                 issues := issues st |} i Hrun eq_refl) as (A & B & C).
  cbv zeta in A, B, C. unfold scan_file in A, B, C.
  rewrite A, B, C. cbn [commented_lines issues].
  repeat split; auto. unfold len. simpl List.length. lia.
Qed.

(** X13. A run of at least three qualifying lines that begins after a
    line that does not qualify (or at the top of the file) and is followed
    by a line that does not qualify gives one more issue: a WARNING at the
    first line of the run that tells the number of its lines. *)
Theorem closed_run_reported (file : text) (before run : list text) (l : text) (found : state) :
  run_closed before ->
  Forall (fun r => qualifies r = true) run ->
  (3 <= List.length run)%nat ->
  qualifies l = false ->
  check_dead_code_file file (before ++ run ++ [l]) found
  = check_dead_code_file file before found
    ++ [block_issue file (len before + 1) (len run)].
Proof.
  intros Hb Hrun Hlen Hl.
  unfold check_dead_code_file.
  rewrite enumerate_app, fold_left_app, enumerate_app, fold_left_app.
  destruct (closed_state file found Hb) as [Hs Hc]. cbv zeta in Hs, Hc.
  unfold scan_file in Hs, Hc.
  set (st := fold_left (step file) (enumerate 1 before) _) in *.
  assert (Hne : run <> []) by (destruct run; [simpl in Hlen; lia | discriminate]).
  destruct (@run_state file run (1 + len before) st Hrun Hne Hs) as (A & B & C).
  cbv zeta in A, B, C. unfold scan_file in A, B, C.
  set (st' := fold_left (step file) (enumerate (1 + len before) run) st) in *.
  cbn [enumerate fold_left]. rewrite qualifies_false_step by assumption.
  cbn [issues]. unfold report_block. rewrite A, B, C, Hc.
  replace (0 + len run >=? 3) with true
    by (symmetry; apply Z.geb_le; unfold len; lia).
  unfold add_issue, block_issue, Metrics.get.
  replace (1 + len before) with (len before + 1) by lia.
  replace (0 + len run) with (len run) by lia.
  reflexivity.
Qed.

Lemma closed_run_reported_witness :
  let run := List.map of_string ["// int a = 1;"; "// int b = 2;"; "// foo(a, b);"]%string in
  run_closed [of_string "int z = 0;"]
  /\ Forall (fun r => qualifies r = true) run
  /\ (3 <= List.length run)%nat
  /\ qualifies (of_string "int c = 3;") = false
  /\ check_dead_code_file (of_string "vst/source/Y.cpp")
       ([of_string "int z = 0;"] ++ run ++ [of_string "int c = 3;"]) []
     = check_dead_code_file (of_string "vst/source/Y.cpp") [of_string "int z = 0;"] []
       ++ [block_issue (of_string "vst/source/Y.cpp") (len [of_string "int z = 0;"] + 1) (len run)].
Proof.
  cbv zeta.
  assert (Hb : run_closed [of_string "int z = 0;"]).
  { right. exists [], (of_string "int z = 0;"). split; reflexivity. }
  assert (Hr : Forall (fun r => qualifies r = true)
                 (List.map of_string ["// int a = 1;"; "// int b = 2;"; "// foo(a, b);"]%string))
    by (repeat constructor).
  assert (Hn : (3 <= List.length
                  (List.map of_string ["// int a = 1;"; "// int b = 2;"; "// foo(a, b);"]%string))%nat)
    by (simpl; lia).
  assert (Hl : qualifies (of_string "int c = 3;") = false) by reflexivity.
  repeat (split; [assumption|]).
  exact (@closed_run_reported (of_string "vst/source/Y.cpp") _ _ _ [] Hb Hr Hn Hl).
Defined.

(** The loop variables agree: no run is open and the count is 0, or the
    run started at a line from 1 on and reaches the line before the
    next. *)
Definition counted (i : Z) (st : dead_code) : Prop :=
  match commented_code_start st with
  | None => commented_lines st = 0
  | Some s => 1 <= s /\ 1 <= commented_lines st /\ s + commented_lines st = i
  end.

Definition block_in (file : text) (bound : Z) (x : issue) : Prop :=
  exists first count,
    x = block_issue file first count /\ 1 <= first /\ 3 <= count /\ first + count <= bound.

Lemma block_in_more file b b' x : b <= b' -> block_in file b x -> block_in file b' x.
Proof.
  intros Hb (first & count & E & H1 & H2 & H3).
  exists first, count. repeat split; auto. lia.
Qed.

Lemma step_counted file found i l st :
  1 <= i ->
  counted i st ->
  (exists new, issues st = found ++ new /\ Forall (block_in file (i - 1)) new) ->
  counted (i + 1) (step file st (i, l))
  /\ exists new, issues (step file st (i, l)) = found ++ new
                 /\ Forall (block_in file i) new.
Proof.
  intros Hi Hc (new & En & Hn).
  assert (Hn' : Forall (block_in file i) new).
  { eapply Forall_impl; [|exact Hn]. intros x. apply block_in_more. lia. }
  destruct (qualifies l) eqn:Hq.
  - rewrite qualifies_true_step by assumption. unfold counted in *. simpl.
    split; [|exists new; auto].
    destruct (commented_code_start st) as [s|]; lia.
  - rewrite qualifies_false_step by assumption. unfold counted at 1. simpl.
    split; [reflexivity|].
    unfold report_block. destruct (commented_lines st >=? 3) eqn:E.
    + apply Z.geb_le in E. unfold counted in Hc.
      destruct (commented_code_start st) as [s|]; [|lia].
      exists (new ++ [block_issue file s (commented_lines st)]).
      unfold add_issue. rewrite En, <- app_assoc.
      split; [reflexivity|].
      apply Forall_app. split; [exact Hn'|].
      constructor; [|constructor].
      exists s, (commented_lines st). repeat split; auto; lia.
    + exists new. auto.
Qed.

Lemma scan_counted file found lines :
  forall i st,
    1 <= i ->
    counted i st ->
    (exists new, issues st = found ++ new /\ Forall (block_in file (i - 1)) new) ->
    exists new,
      issues (scan_file file lines i st) = found ++ new
      /\ Forall (block_in file (i - 1 + len lines)) new.
Proof.
  unfold scan_file.
  induction lines as [|l lines IH]; intros i st Hi Hc Hn.
  - simpl. unfold len. simpl. rewrite Z.add_0_r. exact Hn.
  - cbn [enumerate fold_left].
    destruct (@step_counted file found i l st Hi Hc Hn) as [Hc' Hn'].
    destruct (IH (i + 1) (step file st (i, l))) as (new & E & H); [lia | exact Hc' | |].
    + replace (i + 1 - 1) with i by lia. exact Hn'.
    + exists new. split; [exact E|].
      replace (i - 1 + len (l :: lines)) with (i + 1 - 1 + len lines)
        by (unfold len; simpl List.length; lia).
      exact H.
Qed.

(** X14. Checking a file keeps the issues found before and adds only
    WARNING issues of the dead-code category for that file, each for a
    block of at least three lines that starts at line 1 or later and is
    followed by a line of the file. *)
Theorem dead_code_issues_shape (file : text) (lines : list text) (found : state) :
  exists new,
    check_dead_code_file file lines found = found ++ new
    /\ Forall (fun x => exists first count,
                          x = block_issue file first count
                          /\ 1 <= first /\ 3 <= count /\ first + count <= len lines)
         new.
Proof.
  unfold check_dead_code_file.
  destruct (@scan_counted file found lines 1
              {| commented_code_start := None; commented_lines := 0; issues := found |})
    as (new & E & H).
  - lia.
  - reflexivity.
  - exists []. simpl. rewrite app_nil_r. auto.
  - exists new. split; [exact E|].
    replace (1 - 1 + len lines) with (len lines) in H by lia. exact H.
Qed.

Lemma check_dead_code_cons f files found :
  check_dead_code (f :: files) found
  = match snd f with
    | Some lines => check_dead_code files (check_dead_code_file (fst f) lines found)
    | None => (None, found)
    end.
Proof.
  unfold check_dead_code. cbn [Py.for_each]. unfold Py.bind at 1 2.
  destruct (snd f); reflexivity.
Qed.

(** X15. A file that cannot be read makes [check_dead_code] raise: the
    issues of the files before it stay in the agent's list and the files
    after it are not looked at. *)
Theorem unreadable_file_stops_check
  (readable later : list (text * option (list text))) (path : text) (found : state) :
  Forall (fun f => snd f <> None) readable ->
  fst (check_dead_code readable found) = Some tt
  /\ check_dead_code (readable ++ (path, None) :: later) found
     = (None, snd (check_dead_code readable found)).
Proof.
  revert found. induction readable as [|f readable IH]; intros found H.
  - split; [reflexivity|]. simpl app. rewrite check_dead_code_cons. reflexivity.
  - inversion H as [|? ? Hf Hr]; subst.
    simpl app. rewrite !check_dead_code_cons.
    destruct (snd f) as [lines|]; [|congruence].
    apply IH, Hr.
Qed.

Lemma unreadable_file_stops_check_witness :
  Forall (fun f : text * option (list text) => snd f <> None) [Samples.commented_file]
  /\ (fst (check_dead_code [Samples.commented_file] []) = Some tt
      /\ check_dead_code ([Samples.commented_file]
                            ++ (of_string "vst/source/X.cpp", None) :: [Samples.commented_file_a]) []
         = (None, snd (check_dead_code [Samples.commented_file] []))).
Proof.
  assert (H : Forall (fun f : text * option (list text) => snd f <> None)
                [Samples.commented_file]).
  { repeat constructor. discriminate. }
  split; [exact H|].
  exact (@unreadable_file_stops_check [Samples.commented_file] [Samples.commented_file_a]
           (of_string "vst/source/X.cpp") [] H).
Defined.

End DeadCodeFacts.

(** ** Comments and the digest *)

Module DigestFacts.
Import Normalizer NormalizerFacts Encoding.

Lemma sub_line_comments_inside c v :
  Forall (fun x => x <> NL) c ->
  sub_line_comments true (c ++ v) = sub_line_comments true v.
Proof.
  induction 1 as [|x c Hx _ IH]; [reflexivity|].
  simpl. destruct (Z.eqb_spec x NL); [contradiction | exact IH].
Qed.

Lemma head_is_same x u a r r' :
  head_is x (u ++ a :: r) = head_is x (u ++ a :: r').
Proof. destruct u; reflexivity. Qed.

Lemma sub_line_comments_text u c v :
  Forall (fun x => x <> NL) c ->
  forall f,
    sub_line_comments f (u ++ SLASH :: SLASH :: c ++ v)
    = sub_line_comments f (u ++ SLASH :: SLASH :: v).
Proof.
  intros Hc. induction u as [|x u IH]; intros f.
  - simpl app. destruct f; cbn [sub_line_comments head_is].
    + change (SLASH =? NL) with false. cbv iota.
      apply sub_line_comments_inside, Hc.
    + rewrite Z.eqb_refl. cbn [andb].
      cbn [sub_line_comments]. change (SLASH =? NL) with false. cbv iota.
      apply sub_line_comments_inside, Hc.
  - simpl app. cbn [sub_line_comments]. destruct f.
    + destruct (x =? NL); rewrite IH; reflexivity.
    + rewrite (head_is_same SLASH u SLASH (SLASH :: c ++ v) (SLASH :: v)).
      destruct ((x =? SLASH) && _); rewrite IH; reflexivity.
Qed.

(** X16. What a line comment says does not reach the digest: two texts
    that differ only in the text between a [//] and the end of its line
    get the same digest. *)
Theorem line_comment_text_ignored (u c1 c2 v : text) :
  Forall (fun x => x <> NL) c1 ->
  Forall (fun x => x <> NL) c2 ->
  get_code_hash (u ++ of_string "//" ++ c1 ++ v)
  = get_code_hash (u ++ of_string "//" ++ c2 ++ v).
Proof.
  intros H1 H2. unfold get_code_hash, normalize_code.
  change (of_string "//" ++ c1 ++ v) with (SLASH :: SLASH :: c1 ++ v).
  change (of_string "//" ++ c2 ++ v) with (SLASH :: SLASH :: c2 ++ v).
  rewrite (sub_line_comments_text u v H1), (sub_line_comments_text u v H2).
  reflexivity.
Qed.

Lemma line_comment_text_ignored_witness :
  Forall (fun x => x <> NL) (of_string " old note")
  /\ Forall (fun x => x <> NL) (of_string " a newer note")
  /\ get_code_hash (of_string "int x; " ++ of_string "//" ++ of_string " old note"
                      ++ NL :: of_string "int y;")
     = get_code_hash (of_string "int x; " ++ of_string "//" ++ of_string " a newer note"
                        ++ NL :: of_string "int y;").
Proof.
  assert (H1 : Forall (fun x => x <> NL) (of_string " old note"))
    by (repeat constructor; discriminate).
  assert (H2 : Forall (fun x => x <> NL) (of_string " a newer note"))
    by (repeat constructor; discriminate).
  split; [exact H1 | split; [exact H2|]].
  exact (@line_comment_text_ignored (of_string "int x; ") _ _ (NL :: of_string "int y;") H1 H2).
Defined.

(** *** The digest is always there *)

Section Kept.
Variable P : char -> Prop.
Hypothesis P_space : P SPACE.

Lemma kept_sub_line_comments s :
  Forall P s -> forall f, Forall P (sub_line_comments f s).
Proof.
  induction 1 as [|c s Hc _ IH]; intros f; simpl; [constructor|].
  destruct f.
  - destruct (c =? NL); auto.
  - destruct ((c =? SLASH) && head_is SLASH s); auto.
Qed.

Lemma kept_sub_block_comments n :
  forall s f, (List.length s <= n)%nat -> Forall P s -> Forall P (sub_block_comments f s).
Proof.
  induction n as [|n IH]; intros s f Hlen H.
  - destruct s; [destruct f; constructor | simpl in Hlen; lia].
  - destruct s as [|c s]; [destruct f; constructor|].
    inversion H as [|? ? Hc Hs]; subst. simpl in Hlen.
    destruct f.
    + rewrite sub_block_inside.
      destruct (find_close (c :: s)) as [rest|] eqn:F; [|constructor].
      destruct (find_close_suffix _ F) as (pre & E & L).
      apply IH; [simpl in L; lia|].
      rewrite E in H. apply Forall_app in H. tauto.
    + rewrite sub_block_outside_opens.
      destruct ((c =? SLASH) && opens_block s).
      * destruct s as [|d s]; [constructor|]. simpl tl.
        inversion Hs; subst. apply IH; [simpl in Hlen; lia | assumption].
      * constructor; [assumption|]. apply IH; [lia | assumption].
Qed.

Lemma kept_sub_whitespace s :
  Forall P s -> forall f, Forall P (sub_whitespace f s).
Proof.
  induction 1 as [|c s Hc _ IH]; intros f; simpl; [constructor|].
  destruct (isspace c); [destruct f|]; auto.
Qed.

Lemma kept_lstrip s : Forall P s -> Forall P (lstrip s).
Proof.
  induction 1 as [|c s Hc Hs IH]; simpl; [constructor|].
  destruct (isspace c); auto.
Qed.

Lemma kept_strip s : Forall P s -> Forall P (strip s).
Proof.
  intros H. unfold strip, rstrip.
  apply Forall_rev, kept_lstrip, Forall_rev, kept_lstrip, H.
Qed.

Lemma kept_normalize_code s : Forall P s -> Forall P (normalize_code s).
Proof.
  intros H. unfold normalize_code.
  apply kept_strip, kept_sub_whitespace.
  eapply kept_sub_block_comments; [apply le_n|].
  apply kept_sub_line_comments, H.
Qed.

End Kept.

Lemma encode_scalar s : Forall scalar s -> exists bytes, MD5.encode s = Some bytes.
Proof.
  induction 1 as [|c s [[H0 H1] H2] _ [bytes IH]]; [exists []; reflexivity|].
  simpl. rewrite IH. unfold MD5.encode_char.
  destruct (Z.ltb_spec c 0); [lia|].
  destruct (c <? 128); [eauto|].
  destruct (c <? 2048); [eauto|].
  destruct ((55296 <=? c) && (c <=? 57343)) eqn:E.
  { apply andb_true_iff in E. destruct E as [E1 E2].
    apply Z.leb_le in E1, E2. lia. }
  destruct (c <? 65536); [eauto|].
  destruct (Z.ltb_spec c 1114112); [eauto | lia].
Qed.

Lemma le_bytes_length n : forall x, List.length (MD5.le_bytes n x) = n.
Proof. induction n as [|n IH]; intros x; simpl; auto. Qed.

Lemma hex_length bs : String.length (MD5.hex bs) = (2 * List.length bs)%nat.
Proof. induction bs as [|b bs IH]; simpl; [reflexivity | rewrite IH; lia]. Qed.

Lemma hexdigest_length msg : String.length (MD5.hexdigest msg) = 32%nat.
Proof.
  unfold MD5.hexdigest, MD5.digest. rewrite hex_length.
  cbv zeta. rewrite !length_app, !le_bytes_length. reflexivity.
Qed.

(** X17. For a text of Unicode scalar values, as decoding a file gives,
    [get_code_hash] never raises and returns 32 characters. *)
Theorem get_code_hash_defined (code : text) :
  Forall scalar code ->
  exists digest, get_code_hash code = Some digest /\ String.length digest = 32%nat.
Proof.
  intros H. unfold get_code_hash.
  assert (Hs : scalar SPACE) by (unfold scalar, SPACE; lia).
  destruct (encode_scalar (kept_normalize_code Hs H)) as [bytes E].
  rewrite E. simpl. eexists. split; [reflexivity | apply hexdigest_length].
Qed.

Lemma get_code_hash_defined_witness :
  Forall scalar (of_string "x = 1;")
  /\ exists digest, get_code_hash (of_string "x = 1;") = Some digest
                    /\ String.length digest = 32%nat.
Proof.
  assert (H : Forall scalar (of_string "x = 1;")).
  { repeat constructor; unfold scalar; simpl; lia. }
  split; [exact H | exact (get_code_hash_defined H)].
Defined.

End DigestFacts.

(** ** The issues of the audio callback check *)

Module CallbackFacts.
Import Issue Regex Extractor Architecture CallbackSpec.

(** A loop whose body only appends issues returns, and what it appends
    comes from its elements. *)
Lemma for_each_appends {X} (l : list X) (body : X -> Py.M state unit)
  (Q : X -> issue -> Prop) :
  (forall x st, exists new, body x st = (Some tt, st ++ new) /\ Forall (Q x) new) ->
  forall st,
    exists new,
      Py.for_each l body st = (Some tt, st ++ new)
      /\ Forall (fun i => exists x, In x l /\ Q x i) new.
Proof.
  intros Hbody. induction l as [|x l IH]; intros st.
  - exists []. simpl. unfold Py.ret. rewrite app_nil_r. auto.
  - destruct (Hbody x st) as (n1 & E1 & H1).
    destruct (IH (st ++ n1)) as (n2 & E2 & H2).
    exists (n1 ++ n2). cbn [Py.for_each]. unfold Py.bind. rewrite E1, E2.
    rewrite app_assoc. split; [reflexivity|].
    apply Forall_app. split.
    + eapply Forall_impl; [|exact H1]. intros i Hi. exists x. simpl. auto.
    + eapply Forall_impl; [|exact H2]. intros i (y & Hy & Hi). exists y. simpl. auto.
Qed.

Lemma enumerate_nth {A} (l : list A) :
  forall start i x,
    In (i, x) (enumerate start l) ->
    exists n, i = start + Z.of_nat n /\ nth_error l n = Some x.
Proof.
  induction l as [|y l IH]; intros start i x H; [destruct H|].
  cbn [enumerate] in H. destruct H as [H | H].
  - injection H as <- <-. exists 0%nat. split; [lia | reflexivity].
  - destruct (IH _ _ _ H) as (n & -> & Hn).
    exists (S n). split; [lia | exact Hn].
Qed.

Section Shape.
Variable unicode_alnum : char -> bool.

(** X18. When [PluginProcessor.cpp] can be read the check returns and
    keeps the issues found before; each issue it adds is an ERROR of
    category RT-Audio Safety for that file, numbered by a line of the body
    of [processBlock] that is not a [//] comment and that one of the seven
    patterns matches, with that pattern's description and the stripped
    line as message. *)
Theorem rt_safety_issues_shape (content : text) (earlier : state) :
  let body :=
    match re_search unicode_alnum processblock_pattern content with
    | Some m => split_lines (Metrics.get (group m 1) [])
    | None => []
    end in
  exists new,
    check_rt_audio_safety unicode_alnum (Some content) earlier = (Some tt, earlier ++ new)
    /\ Forall (flags unicode_alnum body) new.
Proof.
  cbv zeta. unfold check_rt_audio_safety, Py.of_option.
  unfold Py.bind at 1. unfold Py.ret at 1.
  destruct (re_search unicode_alnum processblock_pattern content) as [m|];
    [|exists []; unfold Py.ret; rewrite app_nil_r; auto].
  set (body := split_lines (Metrics.get (group m 1) [])).
  match goal with
  | |- context [Py.for_each (enumerate 1 body) ?f] =>
      destruct (@for_each_appends _ (enumerate 1 body) f
                  (fun il x =>
                     severity_of x = ERROR
                     /\ category x = of_string "RT-Audio Safety"
                     /\ exists pd,
                          where_ x = At processor_path (fst il)
                          /\ startswith (of_string "//") (strip (snd il)) = false
                          /\ In pd (unsafe_patterns unicode_alnum)
                          /\ found unicode_alnum (fst pd) (snd il) = true
                          /\ message x = snd pd ++ of_string " in processBlock: "
                                           ++ strip (snd il)))
        with (st := earlier) as (new & E & H)
  end.
  - intros il st.
    match goal with
    | |- context [Py.for_each (unsafe_patterns unicode_alnum) ?g] =>
        destruct (@for_each_appends _ (unsafe_patterns unicode_alnum) g
                    (fun pd x =>
                       x = {| severity_of := ERROR;
                              category := of_string "RT-Audio Safety";
                              where_ := At processor_path (fst il);
                              message := snd pd ++ of_string " in processBlock: "
                                           ++ strip (snd il) |}
                       /\ found unicode_alnum (fst pd) (snd il) = true
                       /\ startswith (of_string "//") (strip (snd il)) = false))
          with (st := st) as (new & E & H)
    end.
    + intros pd st'.
      destruct (found unicode_alnum (fst pd) (snd il)
                && negb (startswith (of_string "//") (strip (snd il)))) eqn:C.
      * eexists. split; [reflexivity|]. constructor; [|constructor].
        split; [reflexivity|].
        apply andb_true_iff in C. destruct C as [Cf C].
        apply negb_true_iff in C. split; [exact Cf | exact C].
      * exists []. unfold Py.ret. rewrite app_nil_r. auto.
    + exists new. split; [exact E|].
      eapply Forall_impl; [|exact H].
      intros x (pd & Hpd & -> & Hf & Hc). cbn [severity_of category where_ message].
      split; [reflexivity|]. split; [reflexivity|].
      exists pd. auto.
  - exists new. split; [exact E|].
    eapply Forall_impl; [|exact H].
    intros x ([i l] & Hil & Hs & Hc & pd & Hw & Hn & Hd & Hf & Hm).
    destruct (enumerate_nth _ _ _ _ Hil) as (n & -> & Hnth).
    split; [exact Hs|]. split; [exact Hc|].
    exists n, l, pd. cbn [fst snd] in *.
    replace (Z.of_nat n + 1) with (1 + Z.of_nat n) by lia.
    repeat (split; [assumption|]). assumption.
Qed.

End Shape.

(** The check raises when the file cannot be read. *)
Example rt_safety_unreadable :
  forall unicode_alnum earlier,
    check_rt_audio_safety unicode_alnum None earlier = (None, earlier).
Proof. reflexivity. Qed.

End CallbackFacts.

(** ** Writing the reports *)

Module PersistenceFacts.
Import Issue Orchestrator.

Section Store.
Variable V : Type.

Lemma get_set_same (d : Dict.dict text V) k v :
  Dict.get text_eqb (Dict.set text_eqb d k v) k = Some v.
Proof.
  assert (Hk : text_eqb k k = true) by (apply TextFacts.text_eqb_eq; reflexivity).
  induction d as [|[k' v'] d IH]; simpl.
  - rewrite Hk. reflexivity.
  - destruct (text_eqb k' k) eqn:E; simpl.
    + rewrite Hk. reflexivity.
    + rewrite E. exact IH.
Qed.

Lemma get_set_other (d : Dict.dict text V) k k' v :
  k <> k' ->
  Dict.get text_eqb (Dict.set text_eqb d k v) k' = Dict.get text_eqb d k'.
Proof.
  intros Hne.
  assert (Hk : text_eqb k k' = false).
  { destruct (text_eqb k k') eqn:E; [|reflexivity].
    apply TextFacts.text_eqb_eq in E. contradiction. }
  induction d as [|[k0 v0] d IH]; simpl.
  - rewrite Hk. reflexivity.
  - destruct (text_eqb k0 k) eqn:E; simpl.
    + apply TextFacts.text_eqb_eq in E. subst k0. rewrite Hk. reflexivity.
    + destruct (text_eqb k0 k'); [reflexivity | exact IH].
Qed.

End Store.

Section Saved.
Variable reports_dir : text.
Variable writable : text -> bool.
Variable consolidated_text : orchestrator -> text.
Variable summary_json : orchestrator -> text.
Variable str_lower : text -> text.

Abbreviation consolidated_path := (in_reports reports_dir (of_string "CONSOLIDATED_REPORT.txt")).
Abbreviation summary_path := (in_reports reports_dir (of_string "summary.json")).

Lemma paths_differ : consolidated_path <> summary_path.
Proof.
  unfold in_reports. intros H. apply app_inv_head in H.
  vm_compute in H. discriminate.
Qed.

(** X19. When every path can be written, [save_reports] returns the path
    of the consolidated report, and afterwards that path holds the
    consolidated text and [summary.json] holds the summary. *)
Theorem saved_reports_hold_texts (o : orchestrator) (fs : files) :
  (forall p, writable p = true) ->
  let r := save_reports reports_dir writable consolidated_text summary_json str_lower o fs in
  fst r = Some consolidated_path
  /\ Dict.get text_eqb (snd r) consolidated_path = Some (consolidated_text o)
  /\ Dict.get text_eqb (snd r) summary_path = Some (summary_json o).
Proof.
  intros Hw. cbv zeta. unfold save_reports, Py.bind.
  pose proof (@MainFacts.write_reports_return reports_dir writable str_lower Hw
                (individual_reports o) fs) as H.
  destruct (Py.for_each _ _ fs) as [[[]|] fs1]; [|discriminate].
  unfold write_text. rewrite !Hw. cbn [fst snd Py.ret].
  split; [reflexivity|]. split.
  - rewrite get_set_other by (apply not_eq_sym, paths_differ).
    apply get_set_same.
  - apply get_set_same.
Qed.

(** X20. When the consolidated report cannot be written, [main] ends
    with an exception and the exit status is 1, whatever the agents
    found. *)
Theorem unwritable_report_fails (agents : list agent) (fs : files) :
  writable consolidated_path = false ->
  exit_code reports_dir writable consolidated_text summary_json str_lower agents fs = 1.
Proof.
  intros Hw. unfold exit_code, main, save_reports, Py.bind.
  destruct (Py.for_each _ _ fs) as [[[]|] fs1]; [|reflexivity].
  unfold write_text. rewrite Hw. reflexivity.
Qed.

End Saved.

Lemma saved_reports_hold_texts_witness :
  let dir := of_string "scripts/code_review/reports" in
  let o := run_all_agents [Samples.sound_scanner] in
  let r := save_reports dir (fun _ => true)
             (fun o => join_lines (critical_lines o ++ recommendation_lines o))
             (fun _ => []) Naming.ascii_lower o [] in
  (forall p, (fun _ : text => true) p = true)
  /\ (fst r = Some (in_reports dir (of_string "CONSOLIDATED_REPORT.txt"))
      /\ Dict.get text_eqb (snd r) (in_reports dir (of_string "CONSOLIDATED_REPORT.txt"))
         = Some (join_lines (critical_lines o ++ recommendation_lines o))
      /\ Dict.get text_eqb (snd r) (in_reports dir (of_string "summary.json")) = Some []).
Proof.
  cbv zeta.
  assert (H : forall p, (fun _ : text => true) p = true) by reflexivity.
  split; [exact H|].
  exact (@saved_reports_hold_texts (of_string "scripts/code_review/reports") (fun _ => true)
           (fun o => join_lines (critical_lines o ++ recommendation_lines o))
           (fun _ => []) Naming.ascii_lower (run_all_agents [Samples.sound_scanner]) [] H).
Defined.

Lemma unwritable_report_fails_witness :
  let dir := of_string "scripts/code_review/reports" in
  let writable := fun p => negb (text_eqb p (in_reports dir (of_string "CONSOLIDATED_REPORT.txt"))) in
  writable (in_reports dir (of_string "CONSOLIDATED_REPORT.txt")) = false
  /\ exit_code dir writable (fun _ => []) (fun _ => []) Naming.ascii_lower
       [Samples.sound_scanner] [] = 1.
Proof.
  cbv zeta.
  assert (H : (fun p => negb (text_eqb p (in_reports (of_string "scripts/code_review/reports")
                                            (of_string "CONSOLIDATED_REPORT.txt"))))
                (in_reports (of_string "scripts/code_review/reports")
                   (of_string "CONSOLIDATED_REPORT.txt")) = false)
    by (vm_compute; reflexivity).
  split; [exact H|].
  exact (@unwritable_report_fails (of_string "scripts/code_review/reports") _
           (fun _ => []) (fun _ => []) Naming.ascii_lower [Samples.sound_scanner] [] H).
Defined.

End PersistenceFacts.

(** ** The index of digests *)

Module IndexFacts.
Import Issue Normalizer Extractor ExtractorFacts DuplicationIndex Encoding IndexSpec.

(** Dictionaries over any key with a decidable equality. *)
Section Store.
Variables (K V : Type) (eqb : K -> K -> bool).
Hypothesis eqb_eq : forall a b, eqb a b = true <-> a = b.

Abbreviation kget := (@Dict.get K V eqb).
Abbreviation kset := (@Dict.set K V eqb).

Lemma eqb_same k : eqb k k = true.
Proof. apply eqb_eq. reflexivity. Qed.

Lemma eqb_differ k k' : k <> k' -> eqb k k' = false.
Proof.
  intros Hne. destruct (eqb k k') eqn:E; [|reflexivity].
  apply eqb_eq in E. contradiction.
Qed.

Lemma get_after_set (d : Dict.dict K V) k v : kget (kset d k v) k = Some v.
Proof.
  induction d as [|[k' v'] d IH]; simpl.
  - rewrite eqb_same. reflexivity.
  - destruct (eqb k' k) eqn:E; simpl.
    + rewrite eqb_same. reflexivity.
    + rewrite E. exact IH.
Qed.

Lemma get_after_other (d : Dict.dict K V) k k' v :
  k <> k' -> kget (kset d k v) k' = kget d k'.
Proof.
  intros Hne. pose proof (eqb_differ Hne) as Hk.
  induction d as [|[k0 v0] d IH]; simpl.
  - rewrite Hk. reflexivity.
  - destruct (eqb k0 k) eqn:E; simpl.
    + apply eqb_eq in E. subst k0. rewrite Hk. reflexivity.
    + destruct (eqb k0 k'); [reflexivity | exact IH].
Qed.

Lemma keys_after_set (d : Dict.dict K V) k v :
  forall x, In x (List.map fst (kset d k v)) -> x = k \/ In x (List.map fst d).
Proof.
  induction d as [|[k' v'] d IH]; simpl; intros x H.
  - destruct H as [<- | []]. auto.
  - destruct (eqb k' k) eqn:E; simpl in H.
    + destruct H as [<- | H]; auto.
    + destruct H as [H | H]; [auto|]. destruct (IH _ H); auto.
Qed.

Lemma nodup_after_set (d : Dict.dict K V) k v :
  NoDup (List.map fst d) -> NoDup (List.map fst (kset d k v)).
Proof.
  induction d as [|[k' v'] d IH]; simpl; intros H.
  - repeat constructor. simpl. tauto.
  - inversion H as [|? ? Hn Hd]; subst.
    destruct (eqb k' k) eqn:E; simpl.
    + apply eqb_eq in E. subst. constructor; assumption.
    + constructor; [|auto].
      intros Hin. destruct (keys_after_set _ _ _ _ Hin) as [-> | Hin']; [|tauto].
      rewrite eqb_same in E. discriminate.
Qed.

Lemma get_of_entry (d : Dict.dict K V) k v :
  NoDup (List.map fst d) -> In (k, v) d -> kget d k = Some v.
Proof.
  induction d as [|[k' v'] d IH]; simpl; intros Hn Hin; [destruct Hin|].
  inversion Hn as [|? ? Hk Hd]; subst.
  destruct Hin as [[= -> ->] | Hin].
  - rewrite eqb_same. reflexivity.
  - destruct (eqb k' k) eqn:E; [|auto].
    apply eqb_eq in E. subst k'.
    exfalso. apply Hk. apply (in_map fst) in Hin. exact Hin.
Qed.

Lemma entry_of_get (d : Dict.dict K V) k v : kget d k = Some v -> In (k, v) d.
Proof.
  induction d as [|[k' v'] d IH]; simpl; [discriminate|].
  destruct (eqb k' k) eqn:E.
  - intros [= ->]. apply eqb_eq in E. subst. auto.
  - auto.
Qed.

End Store.

Lemma digest_eqb_eq a b : digest_eqb a b = true <-> a = b.
Proof. apply String.eqb_eq. Qed.

(** The entries appended so far with their digests, and the group of a
    digest among them. *)
Definition grouped (entries : list (string * location)) (h : string) : list location :=
  List.map snd (filter (fun e => digest_eqb (fst e) h) entries).

Definition groups_of (hash_map : Dict.dict string (list location))
  (entries : list (string * location)) : Prop :=
  NoDup (List.map fst hash_map)
  /\ forall h, Dict.get digest_eqb hash_map h
               = match grouped entries h with
                 | [] => None
                 | l => Some l
                 end.

Lemma grouped_app es es' h : grouped (es ++ es') h = grouped es h ++ grouped es' h.
Proof. unfold grouped. rewrite filter_app, map_app. reflexivity. Qed.

Lemma grouped_same h loc : grouped [(h, loc)] h = [loc].
Proof.
  unfold grouped. simpl. rewrite (eqb_same _ digest_eqb_eq). reflexivity.
Qed.

Lemma grouped_other h h' loc : h <> h' -> grouped [(h, loc)] h' = [].
Proof.
  intros Hne. unfold grouped. simpl.
  rewrite (eqb_differ _ digest_eqb_eq Hne). reflexivity.
Qed.

Lemma append_loc_groups hm es h loc :
  groups_of hm es -> groups_of (append_loc hm h loc) (es ++ [(h, loc)]).
Proof.
  intros [Hn Hg]. unfold append_loc.
  assert (E : exists l, (match Dict.get digest_eqb hm h with
                         | Some locs => Dict.set digest_eqb hm h (locs ++ [loc])
                         | None => Dict.set digest_eqb hm h [loc]
                         end) = Dict.set digest_eqb hm h l
                        /\ l = grouped es h ++ [loc]).
  { rewrite (Hg h). destruct (grouped es h) as [|x l]; eexists; split; reflexivity. }
  destruct E as (l & -> & ->).
  split; [apply (nodup_after_set _ digest_eqb_eq), Hn|].
  intros h'. rewrite grouped_app.
  destruct (string_dec h h') as [<- | Hne].
  - rewrite (get_after_set _ digest_eqb_eq), grouped_same.
    destruct (grouped es h); reflexivity.
  - rewrite (get_after_other _ digest_eqb_eq _ _ Hne), grouped_other by exact Hne.
    rewrite app_nil_r. apply Hg.
Qed.

Section Index.
Variable unicode_alnum : char -> bool.

(** What a file adds to the index. *)
Definition entries_of (f : source_file) : list (string * location) :=
  List.map
    (fun fn : span =>
       (match get_code_hash (span_code fn) with Some h => h | None => EmptyString end,
        (fst f, span_name fn, span_start fn)))
    (extract_functions unicode_alnum (snd f)).

Lemma index_spans (f : source_file) (spans : list span) :
  Forall (fun fn => get_code_hash (span_code fn) <> None) spans ->
  forall hm es,
    groups_of hm es ->
    exists hm',
      fold_left
        (fun acc (fn : span) =>
           match acc, get_code_hash (span_code fn) with
           | Some hm, Some code_hash =>
               Some (append_loc hm code_hash (fst f, span_name fn, span_start fn))
           | _, _ => None
           end)
        spans (Some hm) = Some hm'
      /\ groups_of hm'
           (es ++ List.map
                    (fun fn : span =>
                       (match get_code_hash (span_code fn) with
                        | Some h => h
                        | None => EmptyString
                        end,
                        (fst f, span_name fn, span_start fn)))
                    spans).
Proof.
  induction 1 as [|fn spans Hfn _ IH]; intros hm es Hg.
  - exists hm. simpl. rewrite app_nil_r. auto.
  - cbn [fold_left List.map].
    destruct (get_code_hash (span_code fn)) as [h|] eqn:E; [|congruence].
    destruct (IH _ _ (append_loc_groups h (fst f, span_name fn, span_start fn) Hg))
      as (hm' & E' & Hg').
    exists hm'. split; [exact E'|].
    rewrite <- app_assoc in Hg'. exact Hg'.
Qed.


(** The text of a span is made of characters of the file and line
    feeds. *)
Section Kept.
Variable P : char -> Prop.
Hypothesis P_nl : P NL.

Lemma kept_split_lines s : Forall P s -> Forall (Forall P) (split_lines s).
Proof.
  induction 1 as [|c s Hc _ IH]; [repeat constructor|].
  cbn [split_lines]. destruct (c =? NL); [constructor; [constructor | exact IH]|].
  destruct (split_lines s) as [|l ls]; [repeat constructor; exact Hc|].
  inversion IH; subst. constructor; [constructor|]; assumption.
Qed.

Lemma kept_join_lines ls : Forall (Forall P) ls -> Forall P (join_lines ls).
Proof.
  induction 1 as [|l ls Hl Hls IH]; [constructor|].
  cbn [join_lines]. destruct ls as [|l' ls']; [exact Hl|].
  apply Forall_app. split; [exact Hl|]. constructor; [exact P_nl | exact IH].
Qed.

Lemma kept_firstn {A} (Q : A -> Prop) n l : Forall Q l -> Forall Q (firstn n l).
Proof.
  intros H. rewrite <- (firstn_skipn n l) in H.
  apply Forall_app in H. tauto.
Qed.

Lemma kept_span content (s : span) :
  Forall P content ->
  In s (extract_functions unicode_alnum (Some content)) ->
  Forall P (span_code s).
Proof.
  intros Hc Hs. unfold extract_functions in Hs. rewrite dict_is_replay in Hs.
  match type of Hs with
  | context [fold_left _ ?tr []] =>
      destruct (@FunctionDictFacts.replay_keys (text * Z) tr [] (NoDup_nil _)) as [_ Hin]
  end.
  destruct (Hin s Hs) as [[] | Ht].
  pose proof (SpanTextFacts.retained_slices (func_match unicode_alnum)
                (split_lines_nl_free content)) as H.
  rewrite Forall_forall in H. destruct (H s Ht) as (_ & _ & ->).
  apply kept_join_lines. unfold Slices.lines_between.
  apply SpanTextFacts.Forall_skipn, kept_firstn, kept_split_lines, Hc.
Qed.

End Kept.

Lemma scalar_nl : scalar NL.
Proof. unfold scalar, NL. lia. Qed.

Lemma scalar_space : scalar SPACE.
Proof. unfold scalar, SPACE. lia. Qed.

Lemma digest_of_scalar code : Forall scalar code -> get_code_hash code <> None.
Proof.
  intros H. unfold get_code_hash.
  destruct (DigestFacts.encode_scalar (DigestFacts.kept_normalize_code scalar_space H))
    as [bytes ->].
  discriminate.
Qed.

Lemma spans_of_decoded (f : source_file) :
  decoded f ->
  Forall (fun fn => get_code_hash (span_code fn) <> None)
    (extract_functions unicode_alnum (snd f)).
Proof.
  unfold decoded. destruct (snd f) as [content|]; intros H; [|constructor].
  apply Forall_forall. intros s Hs.
  apply digest_of_scalar. eapply kept_span; [exact scalar_nl | exact H | exact Hs].
Qed.

Lemma index_file_groups (f : source_file) hm es :
  decoded f ->
  groups_of hm es ->
  exists hm', index_file unicode_alnum hm f = Some hm'
              /\ groups_of hm' (es ++ entries_of f).
Proof.
  intros Hd Hg. apply index_spans; [apply spans_of_decoded, Hd | exact Hg].
Qed.

Lemma index_files_groups (files : list source_file) :
  Forall decoded files ->
  forall hm es,
    groups_of hm es ->
    exists hm', index_files unicode_alnum files hm = Some hm'
                /\ groups_of hm' (es ++ flat_map entries_of files).
Proof.
  unfold index_files.
  induction 1 as [|f files Hf _ IH]; intros hm es Hg.
  - exists hm. simpl. rewrite app_nil_r. auto.
  - cbn [fold_left flat_map].
    destruct (@index_file_groups f hm es Hf Hg) as (hm1 & -> & Hg1).
    destruct (IH _ _ Hg1) as (hm' & E & Hg').
    exists hm'. split; [exact E|]. rewrite <- app_assoc in Hg'. exact Hg'.
Qed.

Lemma entry_indexed (files : list source_file) h loc :
  Forall decoded files ->
  In (h, loc) (flat_map entries_of files) ->
  indexed unicode_alnum files h loc.
Proof.
  intros Hd Hin. apply in_flat_map in Hin. destruct Hin as (f & Hf & Hin).
  unfold entries_of in Hin. apply in_map_iff in Hin. destruct Hin as (fn & E & Hfn).
  rewrite Forall_forall in Hd.
  pose proof (@spans_of_decoded f (Hd f Hf)) as Hh.
  rewrite Forall_forall in Hh. specialize (Hh fn Hfn).
  destruct (get_code_hash (span_code fn)) as [h'|] eqn:Eh; [|congruence].
  injection E as <- <-.
  exists f, fn. auto.
Qed.

Lemma grouped_in es h loc : In loc (grouped es h) <-> In (h, loc) es.
Proof.
  unfold grouped. rewrite in_map_iff. split.
  - intros ([h' loc'] & E & Hin). simpl in E. subst loc'.
    apply filter_In in Hin. destruct Hin as [Hin Hh].
    apply digest_eqb_eq in Hh. simpl in Hh. subst. exact Hin.
  - intros Hin. exists (h, loc). split; [reflexivity|].
    apply filter_In. split; [exact Hin|]. apply digest_eqb_eq. reflexivity.
Qed.

Lemma empty_groups : groups_of [] [].
Proof. split; [constructor | reflexivity]. Qed.

(** X21. When the files that can be read hold decoded text, the scan
    never raises (a file that cannot be read is skipped), keeps the issues
    found before, and every issue it adds is the one of a group of at
    least two functions extracted from the scanned files that have one and
    the same digest. *)
Theorem duplicate_groups_sound (vst_cpp src_c src_cpp : list source_file) (found : state) :
  Forall decoded (scanned vst_cpp src_c src_cpp) ->
  exists new,
    find_duplicate_functions unicode_alnum vst_cpp src_c src_cpp found
    = (Some tt, found ++ new)
    /\ Forall (fun i =>
                 exists h locations,
                   i = group_issue locations
                   /\ (2 <= List.length locations)%nat
                   /\ Forall (indexed unicode_alnum (scanned vst_cpp src_c src_cpp) h)
                        locations)
         new.
Proof.
  intros Hd. unfold find_duplicate_functions.
  fold (scanned vst_cpp src_c src_cpp).
  destruct (@index_files_groups _ Hd [] [] empty_groups) as (hm & E & Hn & Hg).
  rewrite E. unfold Py.bind, Py.of_option, Py.ret.
  rewrite GroupFacts.report_groups_from.
  eexists. split; [reflexivity|].
  apply Forall_forall. intros i Hi.
  apply in_map_iff in Hi. destruct Hi as ([h l] & <- & He).
  apply filter_In in He. destruct He as [Hin Hr]. cbn [snd] in *.
  exists h, l. split; [reflexivity|].
  split.
  - unfold reported in Hr. apply andb_true_iff in Hr. destruct Hr as [Hr _].
    apply andb_true_iff in Hr. destruct Hr as [Hr _].
    apply Z.gtb_lt in Hr. unfold len in Hr. lia.
  - pose proof (get_of_entry _ digest_eqb_eq _ _ _ Hn Hin) as Hget.
    rewrite Hg in Hget. cbn [app] in Hget.
    assert (El : l = grouped (flat_map entries_of (scanned vst_cpp src_c src_cpp)) h).
    { destruct (grouped _ h); [discriminate | congruence]. }
    apply Forall_forall. intros loc Hloc. rewrite El in Hloc.
    apply grouped_in in Hloc. apply entry_indexed; assumption.
Qed.


(** X22. Two functions with the same canonical text, one in a scanned
    file whose path contains [vst/] and one in a file of the standalone
    tree whose path contains [src/], are reported: one issue lists both. *)
Theorem cross_tree_duplicate_reported
  (vst_cpp src_c src_cpp : list source_file) (f1 f2 : source_file) (s1 s2 : span)
  (found : state) :
  Forall decoded (scanned vst_cpp src_c src_cpp) ->
  In f1 vst_cpp ->
  file_name (fst f1) <> of_string "global_stubs.c" ->
  contains (of_string "vst/") (fst f1) = true ->
  In f2 (src_c ++ src_cpp) ->
  contains (of_string "src/") (fst f2) = true ->
  In s1 (extract_functions unicode_alnum (snd f1)) ->
  In s2 (extract_functions unicode_alnum (snd f2)) ->
  normalize_code (span_code s1) = normalize_code (span_code s2) ->
  exists locations,
    In (group_issue locations)
      (snd (find_duplicate_functions unicode_alnum vst_cpp src_c src_cpp found))
    /\ In (fst f1, span_name s1, span_start s1) locations
    /\ In (fst f2, span_name s2, span_start s2) locations.
Proof.
  intros Hd Hf1 Hname Hv Hf2 Hs Hs1 Hs2 Hnorm.
  unfold find_duplicate_functions. fold (scanned vst_cpp src_c src_cpp).
  destruct (@index_files_groups _ Hd [] [] empty_groups) as (hm & E & Hn & Hg).
  rewrite E. unfold Py.bind, Py.of_option, Py.ret.
  rewrite GroupFacts.report_groups_from. cbn [snd app] in *.
  set (vst' := filter (fun f => negb (text_eqb (file_name (fst f))
                                        (of_string "global_stubs.c"))) vst_cpp) in *.
  assert (Hf1' : In f1 vst').
  { apply filter_In. split; [exact Hf1|].
    destruct (text_eqb (file_name (fst f1)) (of_string "global_stubs.c")) eqn:Et;
      [|reflexivity].
    apply TextFacts.text_eqb_eq in Et. contradiction. }
  assert (Hd1 : decoded f1).
  { rewrite Forall_forall in Hd. apply Hd. unfold scanned. fold vst'.
    apply in_or_app. left. exact Hf1'. }
  pose proof (@spans_of_decoded f1 Hd1) as Hh1.
  rewrite Forall_forall in Hh1. specialize (Hh1 s1 Hs1).
  destruct (get_code_hash (span_code s1)) as [h|] eqn:E1; [clear Hh1 | congruence].
  assert (E2 : get_code_hash (span_code s2) = Some h).
  { unfold get_code_hash in *. rewrite <- Hnorm. exact E1. }
  set (loc1 := (fst f1, span_name s1, span_start s1)).
  set (loc2 := (fst f2, span_name s2, span_start s2)).
  assert (H1 : In loc1 (grouped (flat_map entries_of vst') h)).
  { apply grouped_in, in_flat_map. exists f1. split; [exact Hf1'|].
    unfold entries_of. apply in_map_iff. exists s1. rewrite E1. auto. }
  assert (H2 : In loc2 (grouped (flat_map entries_of (src_c ++ src_cpp)) h)).
  { apply grouped_in, in_flat_map. exists f2. split; [exact Hf2|].
    unfold entries_of. apply in_map_iff. exists s2. rewrite E2. auto. }
  remember (grouped (flat_map entries_of vst') h
            ++ grouped (flat_map entries_of (src_c ++ src_cpp)) h) as l eqn:El.
  assert (Hin1 : In loc1 l) by (rewrite El; apply in_or_app; left; exact H1).
  assert (Hin2 : In loc2 l) by (rewrite El; apply in_or_app; right; exact H2).
  assert (Hl : Dict.get digest_eqb hm h = Some l).
  { rewrite Hg. unfold scanned. fold vst'. rewrite flat_map_app, grouped_app.
    match goal with
    | |- match ?x with _ => _ end = _ => replace x with l by (rewrite El; reflexivity)
    end.
    destruct l as [|x l']; [destruct Hin1 | reflexivity]. }
  exists l. split; [|split; assumption].
  apply in_or_app. right. apply in_map_iff. exists (h, l). split; [reflexivity|].
  apply filter_In. split; [apply (entry_of_get _ digest_eqb_eq _ _ Hl)|].
  cbn [snd]. unfold reported, vst_locs, src_locs.
  rewrite !DuplicationIndexFacts.nonempty_filter.
  apply andb_true_iff. split; [apply andb_true_iff; split|].
  - apply Z.gtb_lt. unfold len. rewrite El, length_app.
    destruct (grouped (flat_map entries_of vst') h); [destruct H1|].
    destruct (grouped (flat_map entries_of (src_c ++ src_cpp)) h); [destruct H2|].
    simpl. lia.
  - apply existsb_exists. exists loc1. split; [exact Hin1 | exact Hv].
  - apply existsb_exists. exists loc2. split; [exact Hin2 | exact Hs].
Qed.

End Index.

(** A text of code points below the surrogates holds scalar values. *)
Lemma scalar_check (s : text) :
  forallb (fun c => (0 <=? c) && (c <? 55296)) s = true -> Forall scalar s.
Proof.
  intros H. apply Forall_forall. intros c Hc.
  rewrite forallb_forall in H. specialize (H c Hc).
  apply andb_true_iff in H. destruct H as [H0 H1].
  apply Z.leb_le in H0. apply Z.ltb_lt in H1. unfold scalar. lia.
Qed.

Lemma duplicate_groups_sound_witness :
  Forall decoded (scanned Samples.reformatted_plugin_file Samples.standalone_file [])
  /\ exists new,
       find_duplicate_functions Samples.ascii_table
         Samples.reformatted_plugin_file Samples.standalone_file [] []
       = (Some tt, [] ++ new)
       /\ Forall (fun i =>
                    exists h locations,
                      i = group_issue locations
                      /\ (2 <= List.length locations)%nat
                      /\ Forall (indexed Samples.ascii_table
                                   (scanned Samples.reformatted_plugin_file
                                      Samples.standalone_file []) h)
                           locations)
            new.
Proof.
  assert (Hd : Forall decoded
                 (scanned Samples.reformatted_plugin_file Samples.standalone_file [])).
  { apply Forall_forall. intros f Hf. vm_compute in Hf.
    destruct Hf as [<- | [<- | []]];
      unfold decoded; cbn [snd]; apply scalar_check; vm_compute; reflexivity. }
  split; [exact Hd|].
  exact (@duplicate_groups_sound Samples.ascii_table
           Samples.reformatted_plugin_file Samples.standalone_file [] [] Hd).
Defined.

Lemma cross_tree_duplicate_reported_witness :
  let f1 := (of_string "vst/source/Core.cpp", Some Samples.one_function_reformatted) in
  let f2 := (of_string "src/core/core.c", Some Samples.one_function) in
  let s1 := (of_string "foo", (Samples.one_function_reformatted, 1)) in
  let s2 := (of_string "foo", (Samples.one_function, 1)) in
  Forall decoded (scanned Samples.reformatted_plugin_file Samples.standalone_file [])
  /\ In f1 Samples.reformatted_plugin_file
  /\ file_name (fst f1) <> of_string "global_stubs.c"
  /\ contains (of_string "vst/") (fst f1) = true
  /\ In f2 (Samples.standalone_file ++ [])
  /\ contains (of_string "src/") (fst f2) = true
  /\ In s1 (extract_functions Samples.ascii_table (snd f1))
  /\ In s2 (extract_functions Samples.ascii_table (snd f2))
  /\ normalize_code (span_code s1) = normalize_code (span_code s2)
  /\ exists locations,
       In (group_issue locations)
         (snd (find_duplicate_functions Samples.ascii_table
                 Samples.reformatted_plugin_file Samples.standalone_file [] []))
       /\ In (fst f1, span_name s1, span_start s1) locations
       /\ In (fst f2, span_name s2, span_start s2) locations.
Proof.
  cbv zeta.
  assert (Hd : Forall decoded
                 (scanned Samples.reformatted_plugin_file Samples.standalone_file [])).
  { apply Forall_forall. intros f Hf. vm_compute in Hf.
    destruct Hf as [<- | [<- | []]];
      unfold decoded; cbn [snd]; apply scalar_check; vm_compute; reflexivity. }
  assert (Hf1 : In (of_string "vst/source/Core.cpp", Some Samples.one_function_reformatted)
                  Samples.reformatted_plugin_file) by (left; reflexivity).
  assert (Hname : file_name (of_string "vst/source/Core.cpp") <> of_string "global_stubs.c")
    by (vm_compute; discriminate).
  assert (Hv : contains (of_string "vst/") (of_string "vst/source/Core.cpp") = true)
    by (vm_compute; reflexivity).
  assert (Hf2 : In (of_string "src/core/core.c", Some Samples.one_function)
                  (Samples.standalone_file ++ [])) by (left; reflexivity).
  assert (Hs : contains (of_string "src/") (of_string "src/core/core.c") = true)
    by (vm_compute; reflexivity).
  assert (Hs1 : In (of_string "foo", (Samples.one_function_reformatted, 1))
                  (extract_functions Samples.ascii_table
                     (Some Samples.one_function_reformatted))).
  { vm_compute. left. reflexivity. }
  assert (Hs2 : In (of_string "foo", (Samples.one_function, 1))
                  (extract_functions Samples.ascii_table (Some Samples.one_function))).
  { vm_compute. left. reflexivity. }
  assert (Hnorm : normalize_code Samples.one_function_reformatted
                  = normalize_code Samples.one_function).
  { vm_compute. reflexivity. }
  split; [exact Hd|]. split; [exact Hf1|]. split; [exact Hname|]. split; [exact Hv|].
  split; [exact Hf2|]. split; [exact Hs|]. split; [exact Hs1|]. split; [exact Hs2|].
  split; [exact Hnorm|].
  exact (@cross_tree_duplicate_reported Samples.ascii_table
           Samples.reformatted_plugin_file Samples.standalone_file []
           (of_string "vst/source/Core.cpp", Some Samples.one_function_reformatted)
           (of_string "src/core/core.c", Some Samples.one_function)
           (of_string "foo", (Samples.one_function_reformatted, 1))
           (of_string "foo", (Samples.one_function, 1))
           [] Hd Hf1 Hname Hv Hf2 Hs Hs1 Hs2 Hnorm).
Defined.

End IndexFacts.

(** ** The naming styles *)

Module NamingFacts.
Import Issue Regex Finder Naming.

Example identifiers_sample :
  identifiers Samples.ascii_table
    (of_string "int _MAX = 3; fooBar(x); my_var  = fooBar (2); if (x == Y) z(=1);")
  = List.map of_string ["_MAX"; "fooBar"; "my_var"; "fooBar"; "if"; "x"; "z"]%string.
Proof. vm_compute. reflexivity. Qed.

Example identifiers_sample2 :
  identifiers (fun c => c =? 233)
    [97; 233; 95; 98; 61; 49; 59; 32; 233; 97; 61; 50; 59; 32; 97; 32; 61; 51; 59; 32; 95; 95; 120; 95; 95; 40; 59; 32; 57; 97; 61; 59; 32; 97; 57; 61; 40; 61; 59; 32; 120; 89; 95; 122; 10; 9; 61; 49]
  = List.map of_string ["a"; "__x__"; "a9"; "xY_z"]%string.
Proof. vm_compute. reflexivity. Qed.

Example styles_sample :
  List.map (fun s => style_of Samples.ascii_table ascii_lower ascii_upper (of_string s))
    ["a"; "__x__"; "a9"; "xY_z"; "_MAX"; "fooBar"; "my_var"; "if"; "x"; "_X"; "__"; "___";
     "_9"; "_a9"; "aBc_"; "a_B"; "_1A"]%string
  = [None; Some snake_case; None; Some camelCase; Some UPPER_CASE; Some camelCase;
     Some snake_case; None; None; None; Some snake_case; Some snake_case;
     Some snake_case; Some snake_case; Some camelCase; None; Some UPPER_CASE].
Proof. vm_compute. reflexivity. Qed.


Section Shape.
Variable unicode_alnum : char -> bool.

(** A group around one character of a class and a starred class
    captures that character and a run of the second class. *)
Lemma run_group_cls_star (R : Type) n (p q : char -> bool) (k : mstate -> option R) st x :
  run unicode_alnum (Group n (Seq (Cls p) (Star q))) k st = Some x ->
  exists c pre st',
    p c = true /\ Forall (fun d => q d = true) pre
    /\ caps st' = (n, c :: pre) :: caps st /\ k st' = Some x.
Proof.
  cbn [run]. destruct (rest st) as [|c s] eqn:Er; [discriminate|].
  destruct (p c) eqn:Hp; [|discriminate].
  cbn [rest prev caps]. intros H.
  apply FunctionNameFacts.star_greedy_inv in H.
  destruct H as (pre & s' & pv' & -> & Hpre & H).
  cbn [rest prev caps] in H.
  exists c, pre. eexists. split; [exact Hp|]. split; [exact Hpre|].
  split; [|exact H]. cbn [caps]. repeat f_equal.
  change (c :: pre ++ s') with ((c :: pre) ++ s').
  replace (List.length ((c :: pre) ++ s') - List.length s')%nat
    with (List.length (c :: pre)) by (rewrite length_app; lia).
  rewrite firstn_app, Nat.sub_diag, firstn_all. apply app_nil_r.
Qed.

Lemma match_at_shaped pv s m n :
  match_at unicode_alnum identifier_pattern pv s = Some (m, n) ->
  shaped (Metrics.get (group m 1) []).
Proof.
  unfold match_at, identifier_pattern. cbn [seqs]. intros E.
  change (run unicode_alnum (Seq ?a ?b) ?k ?st)
    with (run unicode_alnum a (run unicode_alnum b k) st) in E.
  apply FunctionNameFacts.run_groupless in E; [|reflexivity].
  destruct E as (st1 & C1 & E). cbn [caps] in C1.
  change (run unicode_alnum (Seq ?a ?b) ?k ?st)
    with (run unicode_alnum a (run unicode_alnum b k) st) in E.
  apply run_group_cls_star in E.
  destruct E as (c & pre & st2 & Hc & Hpre & C2 & E).
  apply FunctionNameFacts.run_groupless in E; [|reflexivity].
  destruct E as (st3 & C3 & E). injection E as <- _.
  rewrite C3, C2, C1. cbn. exists c, pre. auto.
Qed.

Lemma finditer_from_all (P : match_obj -> Prop) (r : regex) :
  (forall pv s m n, match_at unicode_alnum r pv s = Some (m, n) -> P m) ->
  forall s skip pv, Forall P (finditer_from unicode_alnum r skip pv s).
Proof.
  intros H. induction s as [|c s IH]; intros skip pv; cbn [finditer_from];
    [constructor|].
  destruct skip as [|n]; [|apply IH].
  destruct (match_at unicode_alnum r pv (c :: s)) as [[m n]|] eqn:E; [|apply IH].
  constructor; [eapply H; exact E | apply IH].
Qed.

Lemma identifiers_shaped content : Forall shaped (identifiers unicode_alnum content).
Proof.
  unfold identifiers, findall. apply Forall_map.
  apply finditer_from_all. apply match_at_shaped.
Qed.

End Shape.


Section Styles.
Variable unicode_alnum : char -> bool.
Variables str_lower str_upper : text -> text.

Abbreviation style_of' := (style_of unicode_alnum str_lower str_upper).

Lemma ident_start_cases c :
  ident_start c = true -> is_upper c = false /\ (is_lower c = true \/ c = UNDERSCORE).
Proof.
  unfold ident_start, is_upper, is_lower, UNDERSCORE. intros H.
  apply orb_true_iff in H. destruct H as [H | H].
  - split; [|left; exact H].
    apply andb_true_iff in H. destruct H as [H1 H2].
    apply Z.leb_le in H1, H2.
    destruct (Z.leb_spec c 90); [|apply andb_false_r].
    lia.
  - apply Z.eqb_eq in H. subst c. split; [reflexivity | right; reflexivity].
Qed.

Lemma ident_char_ascii c : ident_char c = true -> ascii c.
Proof.
  unfold ident_char, is_lower, is_upper, is_digit, UNDERSCORE, ascii. intros H.
  repeat (apply orb_true_iff in H; destruct H as [H | H]);
    try (apply andb_true_iff in H; destruct H as [H1 H2];
         apply Z.leb_le in H1, H2; lia).
  apply Z.eqb_eq in H. lia.
Qed.

Lemma shaped_ascii identifier : shaped identifier -> Forall ascii identifier.
Proof.
  intros (c & r & -> & Hc & Hr). constructor.
  - apply ident_char_ascii. unfold ident_char.
    unfold ident_start in Hc. apply orb_true_iff in Hc.
    destruct Hc as [-> | ->]; [reflexivity | apply orb_true_r].
  - eapply Forall_impl; [|exact Hr]. intros d. apply ident_char_ascii.
Qed.

(** The test for PascalCase asks for a capital first: it fails on every
    captured identifier. *)
Lemma pascal_pattern_fails identifier :
  shaped identifier -> re_match unicode_alnum pascal_pattern identifier = None.
Proof.
  intros (c & r & -> & Hc & _).
  destruct (ident_start_cases _ Hc) as [Hu _].
  unfold re_match, pascal_pattern. cbn [seqs run prev rest]. rewrite Hu. reflexivity.
Qed.

Lemma style_of_not_pascal identifier :
  shaped identifier -> style_of' identifier <> Some PascalCase.
Proof.
  intros H. unfold style_of. rewrite (pascal_pattern_fails H). cbn [Normalizer.is_some].
  destruct (Normalizer.is_some _); [discriminate|].
  destruct (_ && _); [discriminate|].
  destruct (_ && _); discriminate.
Qed.

Lemma style_of_upper identifier :
  (forall s, Forall ascii s -> str_upper s = ascii_upper s) ->
  shaped identifier ->
  style_of' identifier = Some UPPER_CASE ->
  exists r, identifier = UNDERSCORE :: r.
Proof.
  intros Hup Hs. pose proof (shaped_ascii Hs) as Ha.
  destruct Hs as (c & r & -> & Hc & Hr).
  unfold style_of.
  destruct (Normalizer.is_some _); [discriminate|].
  destruct (Normalizer.is_some _); [discriminate|].
  destruct (_ && _); [discriminate|].
  destruct (text_eqb (str_upper (c :: r)) (c :: r)) eqn:E; [|discriminate].
  intros _. apply TextFacts.text_eqb_eq in E.
  rewrite (Hup _ Ha) in E. cbn [ascii_upper List.map] in E.
  destruct (ident_start_cases _ Hc) as [_ [Hl | ->]]; [|eauto].
  rewrite Hl in E. injection E as E _. lia.
Qed.

(** X23. The identifiers the check collects begin with a lower-case
    letter or an underscore, so none is ever counted as PascalCase, and
    one counted as UPPER_CASE begins with an underscore. *)
Theorem collected_identifier_styles (content identifier : text) :
  (forall s, Forall ascii s -> str_upper s = ascii_upper s) ->
  In identifier (identifiers unicode_alnum content) ->
  shaped identifier
  /\ style_of' identifier <> Some PascalCase
  /\ (style_of' identifier = Some UPPER_CASE -> exists r, identifier = UNDERSCORE :: r).
Proof.
  intros Hup Hin.
  pose proof (identifiers_shaped unicode_alnum content) as H.
  rewrite Forall_forall in H. specialize (H _ Hin).
  split; [exact H|]. split; [apply style_of_not_pascal, H|].
  apply style_of_upper; assumption.
Qed.

End Styles.

Lemma collected_identifier_styles_witness :
  let content := of_string "int _MAX = 3; fooBar(x);" in
  (forall s, Forall ascii s -> ascii_upper s = ascii_upper s)
  /\ In (of_string "_MAX") (identifiers Samples.ascii_table content)
  /\ (shaped (of_string "_MAX")
      /\ style_of Samples.ascii_table ascii_lower ascii_upper (of_string "_MAX")
         <> Some PascalCase
      /\ (style_of Samples.ascii_table ascii_lower ascii_upper (of_string "_MAX")
          = Some UPPER_CASE ->
          exists r, of_string "_MAX" = UNDERSCORE :: r)).
Proof.
  cbv zeta.
  assert (Hup : forall s, Forall ascii s -> ascii_upper s = ascii_upper s)
    by reflexivity.
  assert (Hin : In (of_string "_MAX")
                  (identifiers Samples.ascii_table (of_string "int _MAX = 3; fooBar(x);"))).
  { vm_compute. left. reflexivity. }
  split; [exact Hup|]. split; [exact Hin|].
  exact (@collected_identifier_styles Samples.ascii_table ascii_lower ascii_upper
           (of_string "int _MAX = 3; fooBar(x);") (of_string "_MAX") Hup Hin).
Defined.


Section Issues.
Variable unicode_alnum : char -> bool.
Variables str_lower str_upper : text -> text.
Variable set_order : list text -> list text.

Abbreviation count_identifier' := (count_identifier unicode_alnum str_lower str_upper).
Abbreviation count_files' := (count_files unicode_alnum str_lower str_upper).
Abbreviation check' := (check_inconsistent_naming unicode_alnum str_lower str_upper set_order).

(** The table of PascalCase stays empty. *)
Lemma count_identifier_pascal file ns identifier :
  shaped identifier -> pascal ns = [] -> pascal (count_identifier' file ns identifier) = [].
Proof.
  intros Hs Hp. unfold count_identifier.
  pose proof (@style_of_not_pascal unicode_alnum str_lower str_upper _ Hs) as Hn.
  destruct (style_of _ _ _ identifier) as [[| | |]|]; try exact Hp.
  congruence.
Qed.

Lemma count_identifiers_pascal file identifiers :
  Forall shaped identifiers ->
  forall ns, pascal ns = [] -> pascal (fold_left (count_identifier' file) identifiers ns) = [].
Proof.
  induction 1 as [|identifier l Hs _ IH]; intros ns Hp; [exact Hp|].
  cbn [fold_left]. apply IH, count_identifier_pascal; assumption.
Qed.

Lemma count_files_from files :
  forall ns,
    pascal ns = [] ->
    match fold_left
            (fun acc f =>
               match acc with
               | Some ns => count_file unicode_alnum str_lower str_upper ns f
               | None => None
               end)
            files (Some ns) with
    | Some ns' => pascal ns' = [] /\ Forall (fun f => snd f <> None) files
    | None => Exists (fun f => snd f = None) files
    end.
Proof.
  induction files as [|f files IH]; intros ns Hp; cbn [fold_left].
  - auto.
  - unfold count_file at 2. destruct (snd f) as [content|] eqn:Ef.
    + match goal with
      | |- context [Some (fold_left ?g ?l ns)] =>
          specialize (IH (fold_left g l ns)
                        (count_identifiers_pascal (fst f)
                           (identifiers_shaped unicode_alnum content) ns Hp))
      end.
      destruct (fold_left _ files _) as [ns'|].
      * destruct IH as [IH1 IH2]. split; [exact IH1|].
        constructor; [congruence | exact IH2].
      * apply Exists_cons_tl, IH.
    + assert (E : fold_left
                    (fun acc f =>
                       match acc with
                       | Some ns => count_file unicode_alnum str_lower str_upper ns f
                       | None => None
                       end)
                    files None = None).
      { clear. induction files as [|g files IH]; [reflexivity | exact IH]. }
      rewrite E. apply Exists_cons_hd, Ef.
Qed.

Lemma styles_used_three ns file :
  pascal ns = [] ->
  (len (styles_used ns file) >? 2) = true ->
  styles_used ns file = [camelCase; snake_case; UPPER_CASE].
Proof.
  intros Hp. unfold styles_used, styles. cbn [filter table]. rewrite Hp. cbn [Dict.get].
  destruct (Dict.get text_eqb (camel ns) file) as [a|]; [destruct (a >? 5)|];
    (destruct (Dict.get text_eqb (snake ns) file) as [b|]; [destruct (b >? 5)|]);
    (destruct (Dict.get text_eqb (upper ns) file) as [c|]; [destruct (c >? 5)|]);
    intros H; try reflexivity; vm_compute in H; discriminate.
Qed.

Lemma report_file_issue ns file found :
  pascal ns = [] ->
  exists new,
    report_file ns file found = (Some tt, found ++ new)
    /\ Forall (fun i => i = three_styles_issue file) new.
Proof.
  intros Hp. unfold report_file.
  destruct (len (styles_used ns file) >? 2) eqn:E.
  - rewrite (@styles_used_three ns file Hp E).
    exists [three_styles_issue file]. split; [reflexivity | repeat constructor].
  - exists []. unfold Py.ret. rewrite app_nil_r. auto.
Qed.

(** X24. When every file can be read the check returns, and each issue
    it adds is a WARNING at line 0 of a file that names three styles:
    camelCase, snake_case and UPPER_CASE.  When a file cannot be read the
    check raises and adds no issue. *)
Theorem naming_issues_shape (files : list (text * option text)) (found : AIBias.state) :
  (Forall (fun f => snd f <> None) files ->
   exists new,
     check' files found = (Some tt, found ++ new)
     /\ Forall (fun i => exists file, i = three_styles_issue file) new)
  /\ (Exists (fun f => snd f = None) files -> check' files found = (None, found)).
Proof.
  unfold check_inconsistent_naming, count_files.
  pose proof (count_files_from files no_counts eq_refl) as H.
  destruct (fold_left _ files (Some no_counts)) as [ns|].
  - destruct H as [Hp Hr]. split.
    + intros _. unfold Py.bind, Py.of_option, Py.ret.
      destruct (@CallbackFacts.for_each_appends text (set_order (all_files ns))
                  (report_file ns) (fun file i => i = three_styles_issue file)
                  (fun file st => @report_file_issue ns file st Hp) found)
        as (new & E & Hnew).
      exists new. split; [exact E|].
      eapply Forall_impl; [|exact Hnew].
      intros i (file & _ & ->). exists file. reflexivity.
    + intros Hex. exfalso. rewrite Forall_forall in Hr.
      apply Exists_exists in Hex. destruct Hex as (f & Hf & Hn).
      exact (Hr f Hf Hn).
  - split.
    + intros Hall. exfalso. rewrite Forall_forall in Hall.
      apply Exists_exists in H. destruct H as (f & Hf & Hn).
      exact (Hall f Hf Hn).
    + intros _. reflexivity.
Qed.

End Issues.


(** A file with six identifiers of each of the three styles is reported. *)
Example naming_issue_sample :
  check_inconsistent_naming Samples.ascii_table ascii_lower ascii_upper
    (nodup (list_eq_dec Z.eq_dec))
    [(of_string "vst/source/Mixed.cpp",
      Some (of_string ("aB=1; cD=1; eF=1; gH=1; iJ=1; kL=1; "
                       ++ "a_b=1; c_d=1; e_f=1; g_h=1; i_j=1; k_l=1; "
                       ++ "_AB=1; _CD=1; _EF=1; _GH=1; _IJ=1; _KL=1;")))]
    []
  = (Some tt, [three_styles_issue (of_string "vst/source/Mixed.cpp")]).
Proof. vm_compute. reflexivity. Qed.

End NamingFacts.

(** ** The file metrics *)

Module FileMetricsFacts.
Import Metrics FileMetrics.

(** A blank line is no comment line. *)
Lemma blank_not_comment line : is_blank line = true -> is_comment_line line = false.
Proof.
  unfold is_blank, is_comment_line. destruct (strip line); [reflexivity | discriminate].
Qed.

Lemma count_lines_from (test : text -> bool) lines :
  forall n,
    fold_left (fun n line => if test line then n + 1 else n) lines n
    = n + len (filter test lines).
Proof.
  induction lines as [|l lines IH]; intros n; cbn [fold_left filter].
  - unfold len. simpl. lia.
  - rewrite IH. destruct (test l); [|reflexivity].
    unfold len. cbn [List.length]. lia.
Qed.

Lemma count_lines_filter test lines : count_lines test lines = len (filter test lines).
Proof. unfold count_lines. rewrite count_lines_from. lia. Qed.

Lemma disjoint_counts lines :
  0 <= count_lines is_blank lines
  /\ 0 <= count_lines is_comment_line lines
  /\ count_lines is_blank lines + count_lines is_comment_line lines <= len lines.
Proof.
  rewrite !count_lines_filter. unfold len.
  induction lines as [|l lines IH]; cbn [filter List.length]; [lia|].
  pose proof (blank_not_comment l) as H.
  destruct (is_blank l), (is_comment_line l); cbn [List.length];
    try (specialize (H eq_refl); discriminate); lia.
Qed.

Lemma sum_Z_from (values : list Z) :
  Forall (fun n => 0 <= n) values ->
  forall a, 0 <= a -> 0 <= fold_left Z.add values a.
Proof.
  induction 1 as [|n values Hn _ IH]; intros a Ha; cbn [fold_left]; [exact Ha|].
  apply IH. lia.
Qed.

Section Agent.
Variable count_functions : text -> Z.
Variable lizard_analysis : agent_metrics -> agent_metrics.
Variable int_true_div : Z -> Z -> Q.
Variable float_sum : list Q -> Q.
Variable float_div_int : Q -> Z -> Q.

Abbreviation measure' := (measure count_functions int_true_div).
Abbreviation calculate' :=
  (calculate_file_metrics count_functions int_true_div float_sum float_div_int).

Lemma measure_consistent name lines : consistent (measure' name lines).
Proof.
  destruct (disjoint_counts lines) as (Hb & Hc & Hs).
  unfold consistent, measure.
  cbn [code_lines comment_lines blank_lines total_lines].
  repeat split; lia.
Qed.

Lemma measure_files_readable (files : list (text * option (list text))) :
  Forall (fun f => snd f <> None) files ->
  exists fms,
    measure_files count_functions int_true_div files = Some fms
    /\ List.map fm_file fms = List.map fst files
    /\ Forall consistent fms.
Proof.
  induction 1 as [|[name [lines|]] files Hf _ (fms & E & Hn & Hc)]; cbn [measure_files].
  - exists []. auto.
  - rewrite E. eexists. split; [reflexivity|]. split.
    + cbn [List.map fm_file measure fst]. rewrite Hn. reflexivity.
    + constructor; [apply measure_consistent | exact Hc].
  - simpl in Hf. congruence.
Qed.

(** X25. When every file can be read, [calculate_file_metrics] returns
    with one entry per file, in order; in every entry the blank, comment
    and code lines are counted apart, so that no count is negative and
    they add up to the lines of the file; the totals count the files and
    a number of code lines that is not negative, the average comment
    ratio is set, and the keys read from lizard stay as they were. *)
Theorem file_metrics_consistent
  (files : list (text * option (list text))) (st : agent_metrics) :
  Forall (fun f => snd f <> None) files ->
  exists fms code,
    fst (calculate' files st) = Some tt
    /\ file_metrics (snd (calculate' files st)) = Some fms
    /\ List.map fm_file fms = List.map fst files
    /\ Forall consistent fms
    /\ total_files (snd (calculate' files st)) = Some (len files)
    /\ total_code_lines (snd (calculate' files st)) = Some code
    /\ 0 <= code
    /\ avg_comment_ratio (scored (snd (calculate' files st))) <> None
    /\ avg_ccn (scored (snd (calculate' files st))) = avg_ccn (scored st)
    /\ complex_functions (scored (snd (calculate' files st)))
       = complex_functions (scored st).
Proof.
  intros Hr. destruct (measure_files_readable Hr) as (fms & E & Hn & Hc).
  unfold calculate_file_metrics, Py.bind, Py.of_option, Py.modify, Py.ret.
  rewrite E.
  cbn [fst snd file_metrics scored avg_comment_ratio avg_ccn complex_functions
       total_files total_code_lines].
  exists fms. eexists. split; [reflexivity|]. split; [reflexivity|].
  split; [exact Hn|]. split; [exact Hc|].
  split.
  { f_equal. unfold len. apply (f_equal (@List.length text)) in Hn.
    rewrite !length_map in Hn. rewrite Hn. reflexivity. }
  split; [reflexivity|]. split.
  { unfold sum_Z. apply sum_Z_from; [|lia].
    apply Forall_map. eapply Forall_impl; [|exact Hc].
    intros fm (H & _). exact H. }
  split; [discriminate|]. split; reflexivity.
Qed.

(** X26. Without lizard the metrics hold no complexity figures when the
    report is made: a run that returns gives a quality score of 90, 95 or
    100, which the report calls excellent. *)
Theorem score_without_lizard
  (files : list (text * option (list text))) (st : agent_metrics) :
  run count_functions lizard_analysis int_true_div float_sum float_div_int
    false files no_metrics = (Some tt, st) ->
  In (quality_score (scored st)) [90; 95; 100]
  /\ verdict_of (quality_score (scored st)) = Excellent.
Proof.
  unfold run, run_lizard_analysis, calculate_file_metrics.
  unfold Py.bind, Py.of_option, Py.modify, Py.ret.
  destruct (measure_files count_functions int_true_div files) as [fms|]; [|discriminate].
  intros [= <-]. cbn [scored no_metrics avg_ccn complex_functions].
  match goal with
  | |- context [quality_score ?m] =>
      destruct (MetricsFacts.scoring_cases m) as [E _]; rewrite E;
      change (complexity_high m) with false;
      change (many_complex m) with false
  end.
  destruct (ratio_low _); [|destruct (ratio_high _)];
    (split; [simpl; tauto | reflexivity]).
Qed.

End Agent.

(** A file of one comment line and one statement: the ratio 1/2 is a
    float. *)
Lemma file_metrics_consistent_witness :
  let files := [(of_string "Core.cpp",
                 Some [of_string "// the core"; of_string "int a = 1;"])] in
  let st' := snd (calculate_file_metrics (fun _ => 0) Samples.exact_div Samples.exact_sum Samples.exact_div_int
                    files no_metrics) in
  Forall (fun f : text * option (list text) => snd f <> None) files
  /\ exists fms code,
       fst (calculate_file_metrics (fun _ => 0) Samples.exact_div Samples.exact_sum Samples.exact_div_int
              files no_metrics) = Some tt
       /\ file_metrics st' = Some fms
       /\ List.map fm_file fms = List.map fst files
       /\ Forall consistent fms
       /\ total_files st' = Some (len files)
       /\ total_code_lines st' = Some code
       /\ 0 <= code
       /\ avg_comment_ratio (scored st') <> None
       /\ avg_ccn (scored st') = avg_ccn (scored no_metrics)
       /\ complex_functions (scored st') = complex_functions (scored no_metrics).
Proof.
  cbv zeta.
  assert (H : Forall (fun f : text * option (list text) => snd f <> None)
                [(of_string "Core.cpp",
                  Some [of_string "// the core"; of_string "int a = 1;"])]).
  { constructor; [discriminate | constructor]. }
  split; [exact H|].
  exact (@file_metrics_consistent (fun _ => 0) Samples.exact_div Samples.exact_sum Samples.exact_div_int
           _ no_metrics H).
Defined.

Lemma score_without_lizard_witness :
  let files := [(of_string "Core.cpp",
                 Some [of_string "// the core"; of_string "int a = 1;"])] in
  let st := snd (run (fun _ => 0) (fun m => m) Samples.exact_div Samples.exact_sum Samples.exact_div_int
                   false files no_metrics) in
  run (fun _ => 0) (fun m => m) Samples.exact_div Samples.exact_sum Samples.exact_div_int false files no_metrics
  = (Some tt, st)
  /\ (In (quality_score (scored st)) [90; 95; 100]
      /\ verdict_of (quality_score (scored st)) = Excellent).
Proof.
  cbv zeta.
  assert (H : run (fun _ => 0) (fun m => m) Samples.exact_div Samples.exact_sum Samples.exact_div_int false
                [(of_string "Core.cpp",
                  Some [of_string "// the core"; of_string "int a = 1;"])]
                no_metrics
              = (Some tt,
                 snd (run (fun _ => 0) (fun m => m) Samples.exact_div Samples.exact_sum Samples.exact_div_int false
                        [(of_string "Core.cpp",
                          Some [of_string "// the core"; of_string "int a = 1;"])]
                        no_metrics)))
    by reflexivity.
  split; [exact H|].
  exact (@score_without_lizard (fun _ => 0) (fun m => m) Samples.exact_div Samples.exact_sum Samples.exact_div_int
           _ _ H).
Defined.

End FileMetricsFacts.

(** ** The files of the agents' reports *)

Module IndividualReportFacts.
Import Issue Orchestrator.

(** The file name of an agent's report is neither of the two fixed
    names. *)
Lemma tail_differs (x y : text) (a b : char) (s : text) :
  a <> b -> x ++ a :: s <> y ++ b :: s.
Proof.
  intros Hab H. apply (f_equal (@rev char)) in H.
  rewrite !rev_app_distr in H. cbn [rev] in H. rewrite <- !app_assoc in H.
  apply app_inv_head in H. cbn [app] in H. injection H as H _. contradiction.
Qed.

Lemma not_consolidated (str_lower : text -> text) name :
  report_filename str_lower name <> of_string "CONSOLIDATED_REPORT.txt".
Proof.
  unfold report_filename.
  change (of_string "_report.txt") with (of_string "_repor" ++ 116 :: of_string ".txt").
  change (of_string "CONSOLIDATED_REPORT.txt")
    with (of_string "CONSOLIDATED_REPOR" ++ 84 :: of_string ".txt").
  rewrite app_assoc. apply tail_differs. discriminate.
Qed.

Lemma not_summary (str_lower : text -> text) name :
  report_filename str_lower name <> of_string "summary.json".
Proof.
  unfold report_filename.
  change (of_string "_report.txt") with (of_string "_report.tx" ++ 116 :: []).
  change (of_string "summary.json") with (of_string "summary.jso" ++ 110 :: []).
  rewrite app_assoc. apply tail_differs. discriminate.
Qed.

Section Saved.
Variable reports_dir : text.
Variable writable : text -> bool.
Variable consolidated_text : orchestrator -> text.
Variable summary_json : orchestrator -> text.
Variable str_lower : text -> text.
Hypothesis all_writable : forall p, writable p = true.

Abbreviation path_of name := (in_reports reports_dir (report_filename str_lower name)).
Abbreviation write_reports reports :=
  (Py.for_each reports (fun nr : text * text => write_text writable (path_of (fst nr)) (snd nr))).

Lemma in_reports_inj a b : in_reports reports_dir a = in_reports reports_dir b -> a = b.
Proof.
  unfold in_reports. intros H. apply app_inv_head in H. injection H as H. exact H.
Qed.

Lemma write_text_sets path content fs :
  write_text writable path content fs = (Some tt, Dict.set text_eqb fs path content).
Proof. unfold write_text. rewrite all_writable. reflexivity. Qed.

Lemma write_reports_keep (reports : list (text * text)) path :
  Forall (fun nr => path_of (fst nr) <> path) reports ->
  forall fs,
    Dict.get text_eqb (snd (write_reports reports fs)) path = Dict.get text_eqb fs path.
Proof.
  induction 1 as [|nr reports Hnr _ IH]; intros fs; [reflexivity|].
  cbn [Py.for_each]. unfold Py.bind. rewrite write_text_sets.
  rewrite IH. apply PersistenceFacts.get_set_other. exact Hnr.
Qed.

Lemma write_reports_app (before after : list (text * text)) fs :
  snd (write_reports (before ++ after) fs)
  = snd (write_reports after (snd (write_reports before fs))).
Proof.
  revert fs. induction before as [|nr before IH]; intros fs; [reflexivity|].
  cbn [app Py.for_each]. unfold Py.bind. rewrite !write_text_sets.
  apply IH.
Qed.

(** X27. When every path can be written and no file name of a report
    holds a slash (so that joining it to the directory only puts a slash
    between the two), the report of an agent is in the file named after
    the agent ([str.lower] of the name, spaces as underscores,
    [_report.txt]) once [save_reports] has returned, unless a later agent
    has the same file name. *)
Theorem individual_report_saved (o : orchestrator) (fs : files)
  (before after : list (text * text)) (name report : text) :
  Forall (fun nr => ~ In SLASH (report_filename str_lower (fst nr))) (individual_reports o) ->
  individual_reports o = before ++ (name, report) :: after ->
  Forall (fun nr => report_filename str_lower (fst nr) <> report_filename str_lower name) after ->
  Dict.get text_eqb
    (snd (save_reports reports_dir writable consolidated_text summary_json str_lower o fs))
    (path_of name)
  = Some report.
Proof.
  intros _ Ho Hafter. unfold save_reports, Py.bind.
  pose proof (@MainFacts.write_reports_return reports_dir writable str_lower all_writable
                (individual_reports o) fs) as Hret.
  assert (Hget : Dict.get text_eqb (snd (write_reports (individual_reports o) fs))
                   (path_of name) = Some report).
  { rewrite Ho, write_reports_app.
    cbn [Py.for_each]. unfold Py.bind. rewrite write_text_sets.
    cbn [fst snd]. rewrite write_reports_keep.
    - apply PersistenceFacts.get_set_same.
    - eapply Forall_impl; [|exact Hafter].
      intros nr Hne Heq. apply Hne. apply in_reports_inj. exact Heq. }
  destruct (Py.for_each _ _ fs) as [[[]|] fs1]; [|discriminate].
  cbn [snd] in Hget.
  rewrite !write_text_sets. cbn [fst snd Py.ret].
  rewrite !PersistenceFacts.get_set_other; [exact Hget | |].
  - intros H. apply in_reports_inj in H. symmetry in H. exact (@not_consolidated str_lower name H).
  - intros H. apply in_reports_inj in H. symmetry in H. exact (@not_summary str_lower name H).
Qed.

End Saved.


(** The file names of the four registered agents, where [str.lower] is
    the mapping of ASCII capitals. *)
Example registered_names :
  List.map (fun n => report_filename Naming.ascii_lower (of_string n))
    ["Architecture Review"; "Code Duplication"; "AI Bias Detection"; "UI Consistency"]%string
  = List.map of_string
      ["architecture_review_report.txt"; "code_duplication_report.txt";
       "ai_bias_detection_report.txt"; "ui_consistency_report.txt"]%string.
Proof. vm_compute. reflexivity. Qed.

Lemma individual_report_saved_witness :
  let dir := of_string "scripts/code_review/reports" in
  let after := [(of_string "Code Duplication", of_string "second report");
                (of_string "AI Bias Detection", of_string "third report");
                (of_string "UI Consistency", of_string "fourth report")] in
  let o := {| individual_reports :=
                (of_string "Architecture Review", of_string "first report") :: after;
              errors := []; warnings := []; infos := [] |} in
  (forall p, (fun _ : text => true) p = true)
  /\ Forall (fun nr => ~ In SLASH (report_filename Naming.ascii_lower (fst nr)))
       (individual_reports o)
  /\ individual_reports o
     = [] ++ (of_string "Architecture Review", of_string "first report") :: after
  /\ Forall (fun nr => report_filename Naming.ascii_lower (fst nr)
                       <> report_filename Naming.ascii_lower (of_string "Architecture Review"))
       after
  /\ Dict.get text_eqb
       (snd (save_reports dir (fun _ => true) (fun _ => []) (fun _ => [])
               Naming.ascii_lower o []))
       (in_reports dir (report_filename Naming.ascii_lower (of_string "Architecture Review")))
     = Some (of_string "first report").
Proof.
  cbv zeta.
  assert (Hw : forall p, (fun _ : text => true) p = true) by reflexivity.
  assert (Hs : Forall (fun nr : text * text =>
                         ~ In SLASH (report_filename Naming.ascii_lower (fst nr)))
                 [(of_string "Architecture Review", of_string "first report");
                  (of_string "Code Duplication", of_string "second report");
                  (of_string "AI Bias Detection", of_string "third report");
                  (of_string "UI Consistency", of_string "fourth report")]).
  { repeat constructor; vm_compute; intuition discriminate. }
  assert (Ha : Forall (fun nr : text * text =>
                         report_filename Naming.ascii_lower (fst nr)
                         <> report_filename Naming.ascii_lower
                              (of_string "Architecture Review"))
                 [(of_string "Code Duplication", of_string "second report");
                  (of_string "AI Bias Detection", of_string "third report");
                  (of_string "UI Consistency", of_string "fourth report")]).
  { repeat constructor; vm_compute; discriminate. }
  split; [exact Hw|]. split; [exact Hs|]. split; [reflexivity|]. split; [exact Ha|].
  exact (@individual_report_saved (of_string "scripts/code_review/reports") (fun _ => true)
           (fun _ => []) (fun _ => []) Naming.ascii_lower Hw
           {| individual_reports :=
                [(of_string "Architecture Review", of_string "first report");
                 (of_string "Code Duplication", of_string "second report");
                 (of_string "AI Bias Detection", of_string "third report");
                 (of_string "UI Consistency", of_string "fourth report")];
              errors := []; warnings := []; infos := [] |}
           [] [] _ (of_string "Architecture Review") (of_string "first report")
           Hs eq_refl Ha).
Defined.

End IndividualReportFacts.

(** ** Configuration keys handled in several files *)

Module ConfigHandlingFacts.
Import Issue DuplicationIndex ConfigHandling.

Example config_handling_sample :
  snd (find_duplicate_config_handling Naming.ascii_lower
         [(of_string "vst/source/A.cpp", Some (of_string "int UDP_Port = 1;"));
          (of_string "vst/source/B.cpp", Some (Text.join_lines [of_string "x"; of_string "  udp_port++;  "]));
          (of_string "vst/source/C.cpp", Some (of_string "udp_port = udp_port + 1; // log_level"))]
         [])
  = [config_issue (of_string "udp_port")
       [(of_string "vst/source/A.cpp", 1, of_string "int UDP_Port = 1;");
        (of_string "vst/source/B.cpp", 2, of_string "udp_port++;");
        (of_string "vst/source/C.cpp", 1, of_string "udp_port = udp_port + 1; // log_level")]].
Proof. vm_compute. reflexivity. Qed.


Section Check.
Variable str_lower : text -> text.

(** The table of handlers with respect to the files read so far. *)
Definition handled (paths : list text) (config_handlers : Dict.dict text (list handler))
  : Prop :=
  NoDup (List.map fst config_handlers)
  /\ Forall (fun entry =>
               In (fst entry) config_patterns
               /\ incl (List.map handler_file (snd entry)) paths)
       config_handlers.

Lemma handled_more paths paths' ch :
  incl paths paths' -> handled paths ch -> handled paths' ch.
Proof.
  intros Hi [Hn Hf]. split; [exact Hn|].
  eapply Forall_impl; [|exact Hf].
  intros e [Hk He]. split; [exact Hk|]. intros x Hx. apply Hi, He, Hx.
Qed.

Lemma extend_handled paths ch pattern (new : list handler) :
  In pattern config_patterns ->
  incl (List.map handler_file new) paths ->
  handled paths ch -> handled paths (extend ch pattern new).
Proof.
  intros Hp Hnew [Hn Hf]. unfold extend. split.
  - apply FunctionDictFacts.set_nodup, Hn.
  - apply Forall_forall. intros e He.
    apply FunctionDictFacts.set_entries in He. destruct He as [-> | He].
    + cbn [fst snd]. split; [exact Hp|].
      rewrite map_app. apply incl_app; [|exact Hnew].
      destruct (Dict.get text_eqb ch pattern) as [old|] eqn:E; cbn [Metrics.get].
      * apply (IndexFacts.entry_of_get _ TextFacts.text_eqb_eq) in E.
        rewrite Forall_forall in Hf. apply (Hf _ E).
      * intros x [].
    + rewrite Forall_forall in Hf. apply Hf, He.
Qed.

Lemma scan_file_handled paths ch path content :
  In path paths -> handled paths ch -> handled paths (scan_file str_lower ch path content).
Proof.
  intros Hpath. unfold scan_file.
  assert (Hall : incl config_patterns config_patterns) by apply incl_refl.
  revert ch Hall. generalize config_patterns at 1 3.
  induction l as [|pattern l IH]; intros ch Hall H; cbn [fold_left]; [exact H|].
  apply IH; [intros x Hx; apply Hall; right; exact Hx|].
  destruct (nonempty _); [|exact H].
  apply extend_handled; [apply Hall; left; reflexivity | | exact H].
  intros x Hx. apply in_map_iff in Hx. destruct Hx as (h & <- & Hh).
  apply in_map_iff in Hh. destruct Hh as (m & <- & _). exact Hpath.
Qed.

Lemma scan_files_handled (files : list (text * option text)) :
  forall ch paths,
    handled paths ch ->
    match scan_files str_lower ch files with
    | Some ch' =>
        handled (paths ++ List.map fst files) ch'
        /\ Forall (fun f => snd f <> None) files
    | None => Exists (fun f => snd f = None) files
    end.
Proof.
  induction files as [|[path [content|]] files IH]; intros ch paths H; cbn [scan_files].
  - rewrite app_nil_r. split; [exact H | constructor].
  - specialize (IH (scan_file str_lower ch path content) (paths ++ [path])).
    destruct (scan_files _ _ files) as [ch'|].
    + destruct IH as [IH1 IH2].
      * apply scan_file_handled; [apply in_or_app; right; left; reflexivity|].
        eapply handled_more; [|exact H]. apply incl_appl, incl_refl.
      * split; [|constructor; [discriminate | exact IH2]].
        cbn [List.map fst]. rewrite <- app_assoc in IH1. exact IH1.
    + apply Exists_cons_tl, IH.
      apply scan_file_handled; [apply in_or_app; right; left; reflexivity|].
      eapply handled_more; [|exact H]. apply incl_appl, incl_refl.
  - apply Exists_cons_hd. reflexivity.
Qed.

Lemma report_from (config_handlers : Dict.dict text (list handler)) :
  forall found,
    Py.for_each config_handlers
      (fun entry =>
         if unique_files (snd entry) >? 2 then
           add_issue (of_string "Code Duplication - Config Handling")
             (List.map (fun h => (handler_file h, handler_line h)) (snd entry))
             (of_string "Configuration '" ++ fst entry ++ of_string "' is handled in "
                ++ decimal (unique_files (snd entry))
                ++ of_string " different files. Consider centralizing.")
             WARNING
         else Py.ret tt)
      found
    = (Some tt,
       found ++ List.map (fun entry => config_issue (fst entry) (snd entry))
                  (filter (fun entry => unique_files (snd entry) >? 2) config_handlers)).
Proof.
  induction config_handlers as [|entry ch IH]; intros found.
  - simpl. rewrite app_nil_r. reflexivity.
  - cbn [Py.for_each filter]. unfold Py.bind at 1.
    destruct (unique_files (snd entry) >? 2).
    + unfold add_issue, Py.modify. rewrite IH.
      cbn [List.map]. rewrite <- app_assoc. reflexivity.
    + unfold Py.ret. rewrite IH. reflexivity.
Qed.

Lemma unique_files_bound (handlers : list handler) (paths : list text) :
  incl (List.map handler_file handlers) paths -> unique_files handlers <= len paths.
Proof.
  intros H. unfold unique_files, len. apply inj_le.
  apply NoDup_incl_length; [apply NoDup_nodup|].
  intros x Hx. apply nodup_In in Hx. apply H, Hx.
Qed.

(** X28. When every file can be read the check returns; it adds at most
    four issues, each a WARNING for one of the four keys whose lines come
    from at least three different files of the scan, so that with one or
    two files nothing is reported.  When a file cannot be read the check
    raises and adds no issue. *)
Theorem config_issues_need_three_files
  (files : list (text * option text)) (found : state) :
  (Forall (fun f => snd f <> None) files ->
   exists new,
     find_duplicate_config_handling str_lower files found = (Some tt, found ++ new)
     /\ (List.length new <= 4)%nat
     /\ Forall (spread files) new
     /\ ((List.length files <= 2)%nat -> new = []))
  /\ (Exists (fun f => snd f = None) files ->
      find_duplicate_config_handling str_lower files found = (None, found)).
Proof.
  unfold find_duplicate_config_handling.
  assert (H0 : handled [] []) by (split; constructor).
  pose proof (scan_files_handled files H0) as H. cbn [app] in H.
  destruct (scan_files str_lower [] files) as [ch|].
  - destruct H as [[Hn Hf] Hr]. split.
    + intros _. unfold Py.bind, Py.of_option, Py.ret. rewrite report_from.
      eexists. split; [reflexivity|].
      assert (Hs : Forall (spread files)
                     (List.map (fun entry => config_issue (fst entry) (snd entry))
                        (filter (fun entry => unique_files (snd entry) >? 2) ch))).
      { apply Forall_forall. intros i Hi.
        apply in_map_iff in Hi. destruct Hi as (e & <- & He).
        apply filter_In in He. destruct He as [He Hu].
        rewrite Forall_forall in Hf. destruct (Hf e He) as [Hk Hi].
        exists (fst e), (snd e). split; [reflexivity|]. split; [exact Hk|].
        split; [apply Z.gtb_lt in Hu; lia | exact Hi]. }
      split; [|split; [exact Hs|]].
      * rewrite length_map.
        eapply Nat.le_trans; [apply filter_length_le|].
        rewrite <- (length_map fst ch).
        change 4%nat with (List.length config_patterns).
        apply NoDup_incl_length; [exact Hn|].
        intros k Hk. apply in_map_iff in Hk. destruct Hk as (e & <- & He).
        rewrite Forall_forall in Hf. apply (Hf e He).
      * intros Hlen.
        destruct (List.map _ (filter _ ch)) as [|i new]; [reflexivity|].
        inversion Hs as [|? ? (k & hs & _ & _ & H3 & Hi) _]; subst.
        pose proof (unique_files_bound hs Hi) as Hb.
        unfold len in Hb. rewrite length_map in Hb. lia.
    + intros Hex. exfalso. rewrite Forall_forall in Hr.
      apply Exists_exists in Hex. destruct Hex as (f & Hin & Hnone).
      exact (Hr f Hin Hnone).
  - split.
    + intros Hall. exfalso. rewrite Forall_forall in Hall.
      apply Exists_exists in H. destruct H as (f & Hin & Hnone).
      exact (Hall f Hin Hnone).
    + intros _. reflexivity.
Qed.

End Check.

End ConfigHandlingFacts.

(** ** From an agent's category to the recommendations *)

Module CategoryFacts.
Import Issue Orchestrator ConfigHandling.

Lemma rule_fires (ws : list item) (rule : string * text) (rules : list (string * text)) :
  In rule rules ->
  any_category (fst rule) ws = true ->
  forall recs,
    In (snd rule)
      (fold_left
         (fun recs rule =>
            if any_category (fst rule) ws then recs ++ [snd rule] else recs)
         rules recs).
Proof.
  intros Hin Hany. induction rules as [|r rules IH]; intros recs; [destruct Hin|].
  cbn [fold_left]. destruct Hin as [-> | Hin]; [|apply IH, Hin].
  rewrite Hany.
  destruct (ArchitectureFacts.warning_rules_append ws rules (recs ++ [snd rule]))
    as [more ->].
  apply in_or_app. left. apply in_or_app. right. left. reflexivity.
Qed.

Lemma rule_recommended (o : orchestrator) (rule : string * text) :
  In rule warning_rules ->
  any_category (fst rule) (warnings o) = true ->
  In (snd rule) (generate_recommendations o).
Proof.
  intros Hin Hany. unfold generate_recommendations.
  match goal with
  | |- In _ (match ?l with _ => _ end) =>
      assert (H : In (snd rule) l) by (apply rule_fires; assumption);
      destruct l; [destruct H | exact H]
  end.
Qed.

(** X29. A configuration key reported by the duplication agent brings
    two recommendations: its category holds both [Duplication] and
    [Config], so the advice to refactor duplicated code and the advice on
    APVTS and .ini files are both given. *)
Theorem config_issue_recommendations
  (agents : list agent) (a : agent) (config_key : text) (handlers : list handler) :
  In a agents ->
  report_of a <> None ->
  In (config_issue config_key handlers) (issues_after a) ->
  In duplication_text (generate_recommendations (run_all_agents agents))
  /\ In config_text (generate_recommendations (run_all_agents agents)).
Proof.
  intros Ha Hr Hi.
  assert (Hw : In (agent_name a, config_issue config_key handlers)
                 (warnings (run_all_agents agents))).
  { change (warnings (run_all_agents agents))
      with (bucket WARNING (run_all_agents agents)).
    rewrite OrchestratorFacts.bucket_run_all_agents. apply in_flat_map.
    exists a. split; [exact Ha|].
    unfold contribution. destruct (report_of a); [|congruence].
    apply in_map, filter_In. split; [exact Hi | reflexivity]. }
  split.
  - apply (@rule_recommended _ ("Duplication"%string, duplication_text)).
    + right. left. reflexivity.
    + apply existsb_exists. eexists. split; [exact Hw|]. vm_compute. reflexivity.
  - apply (@rule_recommended _ ("Config"%string, config_text)).
    + do 4 right. left. reflexivity.
    + apply existsb_exists. eexists. split; [exact Hw|]. vm_compute. reflexivity.
Qed.

Lemma config_issue_recommendations_witness :
  let handlers :=
    [(of_string "vst/source/A.cpp", 1, of_string "int UDP_Port = 1;");
     (of_string "vst/source/B.cpp", 2, of_string "udp_port++;");
     (of_string "vst/source/C.cpp", 1, of_string "udp_port = udp_port + 1;")] in
  In Samples.config_scanner [Samples.architecture_scanner; Samples.config_scanner]
  /\ report_of Samples.config_scanner <> None
  /\ In (config_issue (of_string "udp_port") handlers) (issues_after Samples.config_scanner)
  /\ In duplication_text
       (generate_recommendations
          (run_all_agents [Samples.architecture_scanner; Samples.config_scanner]))
  /\ In config_text
       (generate_recommendations
          (run_all_agents [Samples.architecture_scanner; Samples.config_scanner])).
Proof.
  cbv zeta.
  assert (Ha : In Samples.config_scanner
                 [Samples.architecture_scanner; Samples.config_scanner])
    by (right; left; reflexivity).
  assert (Hr : report_of Samples.config_scanner <> None)
    by (vm_compute; discriminate).
  assert (Hi : In (config_issue (of_string "udp_port")
                     [(of_string "vst/source/A.cpp", 1, of_string "int UDP_Port = 1;");
                      (of_string "vst/source/B.cpp", 2, of_string "udp_port++;");
                      (of_string "vst/source/C.cpp", 1, of_string "udp_port = udp_port + 1;")])
                 (issues_after Samples.config_scanner)).
  { vm_compute. left. reflexivity. }
  split; [exact Ha|]. split; [exact Hr|]. split; [exact Hi|].
  exact (@config_issue_recommendations _ _ _ _ Ha Hr Hi).
Defined.

End CategoryFacts.

(** ** The braces of a span *)

Module SpanBraceFacts.
Import Extractor ExtractorFacts SpanSpec.

Lemma count_line c x r :
  c <> NL -> count_char c (x ++ NL :: r) = count_char c x + count_char c r.
Proof.
  intros Hc. rewrite count_char_app. cbn [count_char].
  destruct (Z.eqb_spec NL c); [congruence | lia].
Qed.

Lemma count_join_lines c ls l :
  c <> NL -> ls <> [] ->
  count_char c (join_lines (ls ++ [l])) = count_char c (join_lines ls) + count_char c l.
Proof.
  intros Hc. induction ls as [|x ls IH]; intros Hne; [congruence|].
  destruct ls as [|y ls].
  - cbn [app join_lines]. apply count_line, Hc.
  - change (join_lines ((x :: y :: ls) ++ [l]))
      with (x ++ NL :: join_lines ((y :: ls) ++ [l])).
    change (join_lines (x :: y :: ls)) with (x ++ NL :: join_lines (y :: ls)).
    rewrite !count_line by exact Hc.
    rewrite IH by discriminate. lia.
Qed.

Lemma brace_delta_join ls l :
  ls <> [] ->
  brace_delta (join_lines (ls ++ [l])) = brace_delta (join_lines ls) + brace_delta l.
Proof.
  intros Hne. unfold brace_delta.
  rewrite !count_join_lines by (assumption || (unfold LBRACE, RBRACE, NL; lia)).
  lia.
Qed.

Section Loop.
Variable func_match : text -> option text.

Abbreviation tstore := (fun (tr : list span) name v => tr ++ [(name, v)]).

(** What a span is with respect to the lines read so far: its braces are
    even and its name is read from the line it starts at. *)
Definition signed (done : list text) (s : span) : Prop :=
  even_braces (span_code s)
  /\ exists line,
       nth_error done (Z.to_nat (span_start s - 1)) = Some line
       /\ func_match line = Some (span_name s).

Definition inv3 (done : list text) (st : scan (list span)) : Prop :=
  Forall (signed done) (functions st)
  /\ (truthy (current_func st) = true ->
      exists first more,
        func_lines st = first :: more
        /\ brace_count st = brace_delta (join_lines (func_lines st))
        /\ func_match first = current_func st
        /\ 1 <= current_func_start st
        /\ nth_error done (Z.to_nat (current_func_start st - 1)) = Some first).

Lemma signed_more done l s : signed done s -> signed (done ++ [l]) s.
Proof.
  intros (H1 & line & H2 & H3). split; [exact H1|].
  exists line. split; [|exact H3].
  rewrite nth_error_app1; [exact H2|]. apply nth_error_Some. congruence.
Qed.

Lemma step_inv3 done l st :
  inv3 done st ->
  inv3 (done ++ [l]) (step func_match tstore st (1 + len done, l)).
Proof.
  intros [Hall Hcur].
  assert (Hall' : Forall (signed (done ++ [l])) (functions st)).
  { eapply Forall_impl; [|exact Hall]. intros s. apply signed_more. }
  unfold step.
  destruct (truthy (current_func st)) eqn:Ht.
  - destruct (Hcur eq_refl) as (first & more & Hl & Hb & Hm & Hs & Hn).
    assert (Hn' : nth_error (done ++ [l]) (Z.to_nat (current_func_start st - 1))
                  = Some first).
    { rewrite nth_error_app1; [exact Hn|]. apply nth_error_Some. congruence. }
    assert (Hd : brace_count st + brace_delta l
                 = brace_delta (join_lines (func_lines st ++ [l]))).
    { rewrite brace_delta_join, Hb; [reflexivity|]. rewrite Hl. discriminate. }
    assert (Hstep :
      inv3 (done ++ [l])
        (let lines' := func_lines st ++ [l] in
         let count' := brace_count st + brace_delta l in
         if count' =? 0
         then {| functions :=
                   match current_func st with
                   | Some name =>
                       if len (join_lines lines') >? 100
                       then functions st ++ [(name, (join_lines lines', current_func_start st))]
                       else functions st
                   | None => functions st
                   end;
                 current_func := None;
                 current_func_start := current_func_start st;
                 brace_count := count';
                 func_lines := [] |}
         else {| functions := functions st;
                 current_func := current_func st;
                 current_func_start := current_func_start st;
                 brace_count := count';
                 func_lines := lines' |})).
    { cbv zeta. destruct (Z.eqb_spec (brace_count st + brace_delta l) 0) as [E0 | E0].
      - split; [|simpl; discriminate]. cbn [functions].
        destruct (current_func st) as [name|]; [|exact Hall'].
        destruct (_ >? 100); [|exact Hall'].
        apply Forall_app. split; [exact Hall'|].
        constructor; [|constructor].
        split.
        + unfold even_braces, span_code. cbn [fst snd].
          rewrite Hd in E0. unfold brace_delta in E0. lia.
        + exists first. unfold span_start, span_name. cbn [fst snd].
          split; [exact Hn' | exact Hm].
      - split; [exact Hall'|]. cbn [current_func func_lines brace_count current_func_start].
        intros _. exists first, (more ++ [l]).
        split; [rewrite Hl; reflexivity|].
        split; [exact Hd|]. split; [exact Hm|]. split; [exact Hs | exact Hn']. }
    destruct (func_match l); exact Hstep.
  - destruct (func_match l) as [name|] eqn:El.
    + split; [exact Hall'|].
      cbn [current_func current_func_start func_lines brace_count]. intros _.
      exists l, []. split; [reflexivity|]. split; [reflexivity|].
      split; [exact El|]. split; [unfold len; lia|].
      replace (Z.to_nat (1 + len done - 1)) with (List.length done)
        by (unfold len; lia).
      rewrite nth_error_app2, Nat.sub_diag by lia. reflexivity.
    + split; [exact Hall'|]. rewrite Ht. discriminate.
Qed.

Lemma scan_inv3 todo :
  forall done st,
    inv3 done st ->
    inv3 (done ++ todo)
      (fold_left (step func_match tstore) (enumerate (1 + len done) todo) st).
Proof.
  induction todo as [|l todo IH]; intros done st H.
  - rewrite app_nil_r. exact H.
  - cbn [enumerate fold_left].
    replace (done ++ l :: todo) with ((done ++ [l]) ++ todo)
      by (rewrite <- app_assoc; reflexivity).
    replace (1 + len done + 1) with (1 + len (done ++ [l])) by (rewrite len_snoc; lia).
    apply IH. apply step_inv3. exact H.
Qed.

Lemma retained_signed lines :
  Forall (signed lines) (functions (scan_lines func_match tstore [] lines)).
Proof.
  unfold scan_lines.
  match goal with |- context [fold_left _ _ ?s] => set (st0 := s) end.
  assert (H0 : inv3 [] st0).
  { split; [constructor | simpl; discriminate]. }
  destruct (@scan_inv3 lines [] st0 H0) as [H _]. exact H.
Qed.

End Loop.

(** X30. Every span [extract_functions] returns has as many opening as
    closing braces, and carries the name read from the signature on the
    line it starts at. *)
Theorem extract_functions_braces (unicode_alnum : char -> bool) (content : text) (s : span) :
  In s (extract_functions unicode_alnum (Some content)) ->
  even_braces (span_code s)
  /\ exists line,
       nth_error (split_lines content) (Z.to_nat (span_start s - 1)) = Some line
       /\ func_match unicode_alnum line = Some (span_name s).
Proof.
  intros Hs. unfold extract_functions in Hs. rewrite dict_is_replay in Hs.
  match type of Hs with
  | context [fold_left _ ?tr []] =>
      destruct (@FunctionDictFacts.replay_keys (text * Z) tr [] (NoDup_nil _)) as [_ Hin]
  end.
  destruct (Hin s Hs) as [[] | Ht].
  pose proof (retained_signed (func_match unicode_alnum) (split_lines content)) as H.
  rewrite Forall_forall in H. exact (H s Ht).
Qed.

Lemma extract_functions_braces_witness :
  let s := (of_string "foo", (Samples.one_function, 1)) in
  In s (extract_functions Samples.ascii_table (Some Samples.one_function))
  /\ (even_braces (span_code s)
      /\ exists line,
           nth_error (split_lines Samples.one_function) (Z.to_nat (span_start s - 1))
           = Some line
           /\ func_match Samples.ascii_table line = Some (span_name s)).
Proof.
  cbv zeta.
  assert (H : In (of_string "foo", (Samples.one_function, 1))
                (extract_functions Samples.ascii_table (Some Samples.one_function))).
  { vm_compute. left. reflexivity. }
  split; [exact H|].
  exact (@extract_functions_braces Samples.ascii_table Samples.one_function _ H).
Defined.

End SpanBraceFacts.

(* ================================================================== *)
(** ** extract_functions: order and overlap of the returned spans *)
(* ================================================================== *)

Module SpanOrderFacts.
Import Extractor ExtractorFacts SpanOrder.

Section Lists.
Variable A : Type.

Lemma filter_both (p q : A -> bool) (l : list A) :
  filter p (filter q l) = filter (fun x => q x && p x) l.
Proof.
  induction l as [|x l IH]; simpl; [reflexivity|].
  destruct (q x); simpl; [destruct (p x)|]; rewrite IH; reflexivity.
Qed.

Variable R : A -> A -> Prop.

Lemma sorted_compare (l : list A) (a b : A) :
  StronglySorted R l -> In a l -> In b l -> a = b \/ R a b \/ R b a.
Proof.
  induction 1 as [|x l Hs IH Hx]; simpl; [tauto|].
  rewrite Forall_forall in Hx.
  intros [<- | Ha] [<- | Hb]; auto.
Qed.

End Lists.

Section Keys.
Variable V : Type.

Abbreviation tset := (@Dict.set text V text_eqb).
Abbreviation keys := (@List.map (text * V) text fst).
Abbreviation treplay := (fold_left (fun d (kv : text * V) => tset d (fst kv) (snd kv))).

Definition mem (ks : list text) (x : text) : bool :=
  existsb (fun k => text_eqb k x) ks.

Lemma mem_in ks x : mem ks x = true <-> In x ks.
Proof.
  unfold mem. rewrite existsb_exists. split.
  - intros (k & Hk & E). apply TextFacts.text_eqb_eq in E. subst. exact Hk.
  - intros H. exists x. split; [exact H | apply TextFacts.text_eqb_eq; reflexivity].
Qed.

Lemma set_keys_old (d : Dict.dict text V) k v :
  In k (keys d) -> keys (tset d k v) = keys d.
Proof.
  induction d as [|[k' v'] d IH]; simpl; [tauto|].
  intros H. destruct (text_eqb k' k) eqn:E; simpl.
  - apply TextFacts.text_eqb_eq in E. subst. reflexivity.
  - f_equal. apply IH. destruct H as [H | H]; [|exact H].
    subst. assert (text_eqb k k = true) by (apply TextFacts.text_eqb_eq; reflexivity).
    congruence.
Qed.

Lemma set_keys_new (d : Dict.dict text V) k v :
  ~ In k (keys d) -> keys (tset d k v) = keys d ++ [k].
Proof.
  intros H. rewrite (@DictFacts.set_fresh V d k v H), map_app. reflexivity.
Qed.

(** The keys of a replay: those there already, then the new ones at
    their first assignment. *)
Lemma replay_key_order (tr : list (text * V)) :
  forall acc,
  keys (treplay tr acc)
  = keys acc ++ filter (fun x => negb (mem (keys acc) x)) (first_occurrences (keys tr)).
Proof.
  induction tr as [|[k v] tr IH]; intros acc; simpl.
  - rewrite app_nil_r. reflexivity.
  - rewrite IH. destruct (mem (keys acc) k) eqn:E; simpl.
    + rewrite set_keys_old by (apply mem_in; exact E).
      f_equal. rewrite filter_both. apply filter_ext. intros x.
      destruct (text_eqb k x) eqn:Ex; simpl; [|reflexivity].
      apply TextFacts.text_eqb_eq in Ex. subst. rewrite E. reflexivity.
    + assert (Hn : ~ In k (keys acc)).
      { intros Hin. apply mem_in in Hin. congruence. }
      rewrite set_keys_new by exact Hn.
      rewrite <- app_assoc. simpl. do 2 f_equal.
      rewrite filter_both. apply filter_ext. intros x.
      unfold mem. rewrite existsb_app. simpl.
      rewrite orb_false_r, negb_orb. apply andb_comm.
Qed.

End Keys.

Section Extract.
Variable unicode_alnum : char -> bool.

Abbreviation sreplay :=
  (fold_left (fun d (kv : span) => Dict.set text_eqb d (fst kv) (snd kv))).

(** What a replay holds under a name: the last assignment to it. *)
Lemma replay_get (tr : list span) :
  forall acc name,
  Dict.get text_eqb (sreplay tr acc) name
  = match last_under name tr with
    | Some v => Some v
    | None => Dict.get text_eqb acc name
    end.
Proof.
  induction tr as [|[k v] tr IH]; intros acc name; simpl; [reflexivity|].
  rewrite IH. destruct (last_under name tr); [reflexivity|].
  unfold span_name. simpl.
  destruct (text_eqb k name) eqn:E.
  - apply TextFacts.text_eqb_eq in E. subst. apply PersistenceFacts.get_set_same.
  - apply PersistenceFacts.get_set_other. intros ->.
    assert (text_eqb name name = true) by (apply TextFacts.text_eqb_eq; reflexivity).
    congruence.
Qed.

Lemma entries_apart (retained spans : list span) :
  StronglySorted span_before retained ->
  Forall span_ok retained ->
  NoDup (List.map span_name spans) ->
  (forall e, In e spans -> In e retained) ->
  ForallOrdPairs span_apart spans.
Proof.
  intros Hs Hok. induction spans as [|a spans IH]; intros Hn Hin; [constructor|].
  simpl in Hn. inversion Hn as [|? ? Ha Hd]; subst.
  constructor.
  - apply Forall_forall. intros b Hb.
    destruct (@sorted_compare span span_before retained a b Hs) as [E | H];
      [apply Hin; left; reflexivity | apply Hin; right; exact Hb | | exact H].
    subst. exfalso. apply Ha, in_map, Hb.
  - apply IH; [exact Hd|]. intros e He. apply Hin. right. exact He.
Qed.

(** C4 (amended). Whatever the file, balanced or not: every span
    [extract_functions] returns starts at or after line 1, ends at or
    after its first line and has more than 100 characters of text; any two
    of them share no line; the assignments the scan makes lie each
    strictly before the next; the dictionary lists each name at the place
    of its first assignment and holds under it the text and first line of
    its last assignment.  When no name is assigned twice, the returned
    spans lie each strictly before the next in the order returned. *)
Theorem extract_functions_ordered (content : text) :
  let spans := extract_functions unicode_alnum (Some content) in
  let retained := retained_spans unicode_alnum content in
  Forall span_ok spans
  /\ ForallOrdPairs span_apart spans
  /\ StronglySorted span_before retained
  /\ List.map span_name spans = first_occurrences (List.map span_name retained)
  /\ (forall name, Dict.get text_eqb spans name = last_under name retained)
  /\ (NoDup (List.map span_name retained) -> StronglySorted span_before spans).
Proof.
  cbv zeta.
  destruct (retained_sorted (func_match unicode_alnum) (split_lines_nl_free content))
    as [Hs Hok].
  fold (retained_spans unicode_alnum content) in Hs, Hok.
  assert (Hr : extract_functions unicode_alnum (Some content)
               = sreplay (retained_spans unicode_alnum content) []).
  { unfold extract_functions, retained_spans. apply dict_is_replay. }
  assert (Hn : NoDup (List.map span_name (extract_functions unicode_alnum (Some content)))).
  { rewrite Hr.
    exact (proj1 (@FunctionDictFacts.replay_keys (text * Z)
                    (retained_spans unicode_alnum content) [] (NoDup_nil _))). }
  assert (Hsub : forall e, In e (extract_functions unicode_alnum (Some content)) ->
                           In e (retained_spans unicode_alnum content)).
  { rewrite Hr. intros e He.
    destruct (proj2 (@FunctionDictFacts.replay_keys (text * Z)
                       (retained_spans unicode_alnum content) [] (NoDup_nil _)) e He)
      as [[] | H].
    exact H. }
  split; [|split; [|split; [exact Hs|split; [|split]]]].
  - apply Forall_forall. intros e He. rewrite Forall_forall in Hok. apply Hok, Hsub, He.
  - exact (@entries_apart _ _ Hs Hok Hn Hsub).
  - rewrite Hr.
    change (List.map fst (sreplay (retained_spans unicode_alnum content) [])
            = first_occurrences (List.map fst (retained_spans unicode_alnum content))).
    rewrite replay_key_order. simpl.
    generalize (first_occurrences (List.map fst (retained_spans unicode_alnum content))).
    intros l. induction l as [|x l IH]; unfold mem in *; simpl in *; congruence.
  - intros name. rewrite Hr, replay_get. destruct (last_under _ _); reflexivity.
  - intros Hd. rewrite (@extract_functions_retained unicode_alnum content Hd). exact Hs.
Qed.

End Extract.

Lemma extract_functions_ordered_witness :
  let spans := extract_functions Samples.ascii_table (Some Samples.two_functions) in
  let retained := retained_spans Samples.ascii_table Samples.two_functions in
  NoDup (List.map span_name retained)
  /\ Forall span_ok spans
  /\ ForallOrdPairs span_apart spans
  /\ StronglySorted span_before spans.
Proof.
  cbv zeta.
  assert (H : NoDup (List.map span_name
                       (retained_spans Samples.ascii_table Samples.two_functions))).
  { vm_compute. repeat constructor; simpl; intuition discriminate. }
  destruct (extract_functions_ordered Samples.ascii_table Samples.two_functions)
    as (Hok & Hap & _ & _ & _ & Hs).
  split; [exact H|]. split; [exact Hok|]. split; [exact Hap|]. exact (Hs H).
Defined.

End SpanOrderFacts.

(* ================================================================== *)
(** ** get_code_hash: white space and comments *)
(* ================================================================== *)

Module CommentFacts.
Import Normalizer NormalizerFacts Comments.

Lemma space_not_slash w : isspace w = true -> (w =? SLASH) = false.
Proof. intros H. apply isspace_neq; [exact H | reflexivity]. Qed.

Lemma space_not_star w : isspace w = true -> (w =? STAR) = false.
Proof. intros H. apply isspace_neq; [exact H | reflexivity]. Qed.

Lemma ends_slash_cons c s :
  ends_slash (c :: s) = match s with [] => c =? SLASH | _ :: _ => ends_slash s end.
Proof. reflexivity. Qed.

Lemma ends_slash_tl c s : ends_slash (c :: s) = false -> ends_slash s = false.
Proof. destruct s; [reflexivity | exact (fun H => H)]. Qed.

Lemma one_line_forall c : one_line c = true -> Forall (fun x => x <> NL) c.
Proof.
  unfold one_line. rewrite forallb_forall. intros H.
  apply Forall_forall. intros x Hx E. subst.
  specialize (H _ Hx). discriminate.
Qed.

(** *** A white-space character at the start *)

Lemma lstrip_sub_whitespace s :
  lstrip (sub_whitespace true s) = lstrip (sub_whitespace false s).
Proof.
  destruct s as [|c s]; [reflexivity|].
  cbn [sub_whitespace]. destruct (isspace c) eqn:E; reflexivity.
Qed.

Lemma normalize_code_edge_l w x :
  isspace w = true -> normalize_code (w :: x) = normalize_code x.
Proof.
  intros Hw. unfold normalize_code.
  cbn [sub_line_comments]. rewrite (space_not_slash _ Hw). cbn [andb].
  rewrite sub_block_outside_opens, (space_not_slash _ Hw). cbn [andb].
  cbn [sub_whitespace]. rewrite Hw.
  unfold strip. f_equal.
  change (lstrip (SPACE :: ?s)) with (lstrip s).
  apply lstrip_sub_whitespace.
Qed.

(** *** A white-space character at the end *)

(** Equal, or one more white-space character at the end. *)
Definition tail_blank (s t : text) : Prop :=
  t = s \/ exists w, isspace w = true /\ t = s ++ [w].

Lemma tail_blank_cons c s t : tail_blank s t -> tail_blank (c :: s) (c :: t).
Proof.
  intros [-> | (w & Hw & ->)]; [left; reflexivity|].
  right. exists w. auto.
Qed.

Section Edge.
Variable w : char.
Hypothesis Hw : isspace w = true.

Lemma head_is_edge x r : isspace x = false -> head_is x (r ++ [w]) = head_is x r.
Proof.
  intros Hx. destruct r; [|reflexivity].
  simpl. apply isspace_neq; assumption.
Qed.

Lemma sub_line_comments_edge x :
  forall f, tail_blank (sub_line_comments f x) (sub_line_comments f (x ++ [w])).
Proof.
  induction x as [|c x IH]; intros f.
  - simpl app. cbn [sub_line_comments head_is]. destruct f.
    + destruct (w =? NL); [right; exists w; auto | left; reflexivity].
    + rewrite andb_false_r. right. exists w. auto.
  - simpl app. cbn [sub_line_comments]. destruct f.
    + destruct (c =? NL); auto using tail_blank_cons.
    + rewrite head_is_edge by reflexivity.
      destruct ((c =? SLASH) && head_is SLASH x); auto using tail_blank_cons.
Qed.

Lemma find_close_edge s : find_close s = None -> find_close (s ++ [w]) = None.
Proof.
  induction s as [|c s IH]; [reflexivity|].
  intros H. destruct (find_close_cons_inv _ _ H) as [H1 H2].
  simpl app. rewrite find_close_skip; [auto|].
  rewrite head_is_edge by reflexivity. exact H1.
Qed.

Lemma is_some_find_close_edge s :
  is_some (find_close (s ++ [w])) = is_some (find_close s).
Proof.
  destruct (find_close s) as [rest|] eqn:F.
  - rewrite (find_close_app _ [w] F). reflexivity.
  - rewrite (find_close_edge _ F). reflexivity.
Qed.

Lemma opens_block_edge r : opens_block (r ++ [w]) = opens_block r.
Proof.
  destruct r as [|d r]; simpl.
  - rewrite (space_not_star _ Hw). reflexivity.
  - rewrite is_some_find_close_edge. reflexivity.
Qed.

Lemma sub_block_comments_edge n :
  forall s f, (List.length s <= n)%nat ->
    tail_blank (sub_block_comments f s) (sub_block_comments f (s ++ [w])).
Proof.
  induction n as [|n IH]; intros s f Hlen.
  - destruct s; [|simpl in Hlen; lia].
    destruct f; [left; reflexivity | right; exists w; auto].
  - destruct s as [|c s].
    { destruct f; [left; reflexivity | right; exists w; auto]. }
    simpl in Hlen. simpl app. destruct f.
    + rewrite !sub_block_inside.
      change (c :: s ++ [w]) with ((c :: s) ++ [w]).
      destruct (find_close (c :: s)) as [rest|] eqn:F.
      * rewrite (find_close_app _ [w] F).
        destruct (find_close_suffix _ F) as (pre & _ & L).
        apply IH. simpl in L. lia.
      * rewrite (find_close_edge _ F). left. reflexivity.
    + rewrite !sub_block_outside_opens, opens_block_edge.
      destruct ((c =? SLASH) && opens_block s) eqn:E.
      * destruct s as [|d s]; [simpl in E; rewrite andb_false_r in E; discriminate|].
        simpl. apply IH. simpl in Hlen. lia.
      * apply tail_blank_cons, IH. lia.
Qed.

Lemma sub_whitespace_edge s :
  forall f, tail_blank (sub_whitespace f s) (sub_whitespace f (s ++ [w])).
Proof.
  induction s as [|c s IH]; intros f.
  - simpl. rewrite Hw. destruct f; [left; reflexivity | right; exists SPACE; auto].
  - simpl. destruct (isspace c); [destruct f|]; auto using tail_blank_cons.
Qed.

Lemma rstrip_edge s : rstrip (s ++ [w]) = rstrip s.
Proof.
  unfold rstrip. rewrite rev_app_distr. simpl. rewrite Hw. reflexivity.
Qed.

Lemma lstrip_edge s :
  lstrip (s ++ [w]) = lstrip s ++ [w] \/ (lstrip (s ++ [w]) = [] /\ lstrip s = []).
Proof.
  induction s as [|c s IH]; simpl.
  - rewrite Hw. auto.
  - destruct (isspace c); auto.
Qed.

Lemma strip_edge s : strip (s ++ [w]) = strip s.
Proof.
  unfold strip. destruct (lstrip_edge s) as [-> | [-> ->]]; [|reflexivity].
  apply rstrip_edge.
Qed.

End Edge.

Lemma strip_tail_blank s t : tail_blank s t -> strip t = strip s.
Proof.
  intros [-> | (w & Hw & ->)]; [reflexivity | apply strip_edge, Hw].
Qed.

Lemma sub_whitespace_tail_blank s t :
  tail_blank s t -> tail_blank (sub_whitespace false s) (sub_whitespace false t).
Proof.
  intros [-> | (w & Hw & ->)]; [left; reflexivity | apply sub_whitespace_edge, Hw].
Qed.

Lemma sub_block_comments_tail_blank s t :
  tail_blank s t -> tail_blank (sub_block_comments false s) (sub_block_comments false t).
Proof.
  intros [-> | (w & Hw & ->)]; [left; reflexivity|].
  exact (@sub_block_comments_edge w Hw (List.length s) s false (le_n _)).
Qed.

Lemma normalize_code_edge_r w x :
  isspace w = true -> normalize_code (x ++ [w]) = normalize_code x.
Proof.
  intros Hw. unfold normalize_code.
  apply strip_tail_blank, sub_whitespace_tail_blank, sub_block_comments_tail_blank.
  apply sub_line_comments_edge, Hw.
Qed.

(** *** A line comment *)

Lemma sub_line_comments_ends v :
  ends_line v = true -> sub_line_comments true v = sub_line_comments false v.
Proof.
  destruct v as [|d v]; [reflexivity|].
  simpl ends_line. intros H. apply Z.eqb_eq in H. subst d. reflexivity.
Qed.

Lemma head_is_ends_line v : ends_line v = true -> head_is SLASH v = false.
Proof.
  destruct v as [|d v]; [reflexivity|].
  simpl. intros H. apply Z.eqb_eq in H. subst d. reflexivity.
Qed.

Lemma sub_line_comments_comment u c v :
  one_line c = true -> ends_line v = true ->
  forall f, ends_slash u = false ->
    sub_line_comments f (u ++ SLASH :: SLASH :: c ++ v) = sub_line_comments f (u ++ v).
Proof.
  intros Hc Hv. apply one_line_forall in Hc.
  assert (Hin : sub_line_comments true (SLASH :: SLASH :: c ++ v)
                = sub_line_comments true v).
  { apply (DigestFacts.sub_line_comments_inside (c := SLASH :: SLASH :: c)).
    repeat constructor; try discriminate. exact Hc. }
  induction u as [|x u IH]; intros f Hu.
  - simpl app. destruct f; [exact Hin|].
    rewrite <- (sub_line_comments_ends _ Hv), <- Hin. reflexivity.
  - simpl app. cbn [sub_line_comments].
    pose proof (ends_slash_tl _ _ Hu) as Hu'.
    destruct f.
    + rewrite !(IH _ Hu'). reflexivity.
    + assert (E : (x =? SLASH) && head_is SLASH (u ++ SLASH :: SLASH :: c ++ v)
                  = (x =? SLASH) && head_is SLASH (u ++ v)).
      { destruct u as [|y u]; [|reflexivity].
        simpl in Hu. rewrite Hu. reflexivity. }
      rewrite E, !(IH _ Hu'). reflexivity.
Qed.

(** *** A block comment *)

Lemma sub_line_comments_app u :
  forall f w, ends_slash u = false \/ head_is SLASH w = false ->
    sub_line_comments f (u ++ w)
    = sub_line_comments f u ++ sub_line_comments (line_open f u) w.
Proof.
  induction u as [|x u IH]; intros f w H; [reflexivity|].
  assert (H' : ends_slash u = false \/ head_is SLASH w = false).
  { destruct H as [H | H]; [left; exact (ends_slash_tl _ _ H) | right; exact H]. }
  simpl app. cbn [sub_line_comments line_open]. destruct f.
  - destruct (x =? NL); simpl negb; rewrite (IH _ _ H'); reflexivity.
  - assert (E : (x =? SLASH) && head_is SLASH (u ++ w) = (x =? SLASH) && head_is SLASH u).
    { destruct u as [|y u]; [|reflexivity].
      simpl. destruct H as [H | H]; [simpl in H; rewrite H; reflexivity|].
      rewrite H, andb_false_r. reflexivity. }
    rewrite E. destruct ((x =? SLASH) && head_is SLASH u); rewrite (IH _ _ H'); reflexivity.
Qed.

Lemma sub_line_comments_clean c :
  forall w, no_dslash c = true -> ends_slash c = false \/ head_is SLASH w = false ->
    sub_line_comments false (c ++ w) = c ++ sub_line_comments false w.
Proof.
  induction c as [|x c IH]; intros w Hc H; [reflexivity|].
  assert (H' : ends_slash c = false \/ head_is SLASH w = false).
  { destruct H as [H | H]; [left; exact (ends_slash_tl _ _ H) | right; exact H]. }
  simpl in Hc. split_andb.
  simpl app. cbn [sub_line_comments].
  assert (E : (x =? SLASH) && head_is SLASH (c ++ w) = false).
  { destruct c as [|y c]; [|exact H0].
    simpl. destruct H as [H | H]; [simpl in H; rewrite H; reflexivity|].
    rewrite H, andb_false_r. reflexivity. }
  rewrite E. f_equal. apply IH; assumption.
Qed.

Lemma head_sub_line x r :
  head_is SLASH r = false -> head_is x (sub_line_comments false r) = head_is x r.
Proof.
  destruct r as [|d r]; [reflexivity|].
  simpl. intros ->. reflexivity.
Qed.

Lemma no_open_sub_line_comments u :
  forall f, no_open u = true -> no_open (sub_line_comments f u) = true.
Proof.
  induction u as [|c u IH]; intros f H; [reflexivity|].
  simpl in H. split_andb.
  cbn [sub_line_comments]. destruct f.
  - destruct (c =? NL) eqn:E; [|auto].
    apply Z.eqb_eq in E. subst c. simpl. auto.
  - destruct ((c =? SLASH) && head_is SLASH u) eqn:E; [auto|].
    simpl. rewrite IH, andb_true_r by assumption.
    destruct (c =? SLASH); [|reflexivity].
    simpl in *. rewrite head_sub_line by exact E. rewrite H. reflexivity.
Qed.

Lemma sub_line_comments_nonempty d r :
  (d =? SLASH) = false -> sub_line_comments false (d :: r) <> [].
Proof. intros H. cbn [sub_line_comments]. rewrite H. discriminate. Qed.

Lemma ends_slash_sub_line_comments u :
  forall f, ends_slash u = false -> ends_slash (sub_line_comments f u) = false.
Proof.
  induction u as [|c u IH]; intros f H; [reflexivity|].
  pose proof (ends_slash_tl _ _ H) as H'.
  cbn [sub_line_comments]. destruct f.
  - destruct (c =? NL) eqn:E; [|auto].
    rewrite ends_slash_cons. specialize (IH false H').
    destruct (sub_line_comments false u); [|exact IH].
    apply Z.eqb_eq in E. subst c. reflexivity.
  - destruct ((c =? SLASH) && head_is SLASH u) eqn:E; [auto|].
    rewrite ends_slash_cons. specialize (IH false H').
    destruct (sub_line_comments false u) eqn:L; [|exact IH].
    destruct u as [|d u]; [exact H|].
    destruct (c =? SLASH); [|reflexivity].
    simpl in E. exfalso. exact (@sub_line_comments_nonempty d u E L).
Qed.

Lemma sub_block_comments_prefix x :
  forall w, no_open x = true -> ends_slash x = false \/ head_is STAR w = false ->
    sub_block_comments false (x ++ w) = x ++ sub_block_comments false w.
Proof.
  induction x as [|c x IH]; intros w Hx H; [reflexivity|].
  assert (H' : ends_slash x = false \/ head_is STAR w = false).
  { destruct H as [H | H]; [left; exact (ends_slash_tl _ _ H) | right; exact H]. }
  simpl in Hx. split_andb.
  simpl app. rewrite sub_block_outside_opens.
  assert (E : (c =? SLASH) && opens_block (x ++ w) = false).
  { destruct (c =? SLASH) eqn:Ec; [|reflexivity].
    simpl in *. destruct x as [|d x].
    - simpl. destruct H as [H | H]; [congruence|].
      destruct w as [|d w]; [reflexivity|]. simpl in *. rewrite H. reflexivity.
    - simpl in *. rewrite H0. reflexivity. }
  rewrite E. f_equal. apply IH; assumption.
Qed.

Lemma find_close_comment c :
  forall v, find_close c = None -> find_close (c ++ STAR :: SLASH :: v) = Some v.
Proof.
  induction c as [|x c IH]; intros v H; [reflexivity|].
  destruct (find_close_cons_inv _ _ H) as [H1 H2].
  simpl app. rewrite find_close_skip; [auto|].
  destruct c as [|d c]; [|exact H1].
  simpl. rewrite andb_false_r. reflexivity.
Qed.

Lemma sub_block_comments_comment c v :
  find_close c = None ->
  sub_block_comments false (SLASH :: STAR :: c ++ STAR :: SLASH :: v)
  = sub_block_comments false v.
Proof.
  intros H. rewrite sub_block_outside_eq, (find_close_comment _ v H).
  change ((SLASH =? SLASH) && (STAR =? STAR) && is_some (Some v)) with true. cbv iota.
  rewrite sub_block_inside, (find_close_comment _ v H). reflexivity.
Qed.

Lemma normalize_code_block_comment u c v :
  no_open u = true -> line_open false u = false -> ends_slash u = false ->
  no_dslash c = true -> find_close c = None ->
  head_is SLASH v = false ->
  normalize_code (u ++ SLASH :: STAR :: c ++ STAR :: SLASH :: v) = normalize_code (u ++ v).
Proof.
  intros Hu Hl He Hc Hf Hv. unfold normalize_code. do 2 f_equal.
  rewrite !sub_line_comments_app by (left; exact He). rewrite Hl.
  assert (E : sub_line_comments false (SLASH :: STAR :: c ++ STAR :: SLASH :: v)
              = SLASH :: STAR :: c ++ STAR :: SLASH :: sub_line_comments false v).
  { change (SLASH :: STAR :: c ++ STAR :: SLASH :: v)
      with ([SLASH; STAR] ++ (c ++ [STAR; SLASH] ++ v)).
    rewrite sub_line_comments_clean by (auto).
    rewrite sub_line_comments_clean by (auto).
    rewrite sub_line_comments_clean by (auto).
    reflexivity. }
  rewrite E.
  pose proof (no_open_sub_line_comments u false Hu) as Hx.
  pose proof (ends_slash_sub_line_comments u false He) as Hs.
  rewrite !sub_block_comments_prefix by auto.
  rewrite sub_block_comments_comment by exact Hf. reflexivity.
Qed.

Lemma normalize_code_same_code a b : same_code a b -> normalize_code a = normalize_code b.
Proof.
  induction 1 as [x | x y _ IH | x y z _ IH1 _ IH2 | x y H | w x Hw | w x Hw
                  | u c1 c2 v H1 H2 | u c v Hu Hc Hv | u c v Hu Hl He Hc Hf Hv].
  - reflexivity.
  - symmetry. exact IH.
  - congruence.
  - apply normalize_code_layout, H.
  - apply normalize_code_edge_l, Hw.
  - apply normalize_code_edge_r, Hw.
  - unfold normalize_code.
    rewrite (DigestFacts.sub_line_comments_text u v (one_line_forall _ H1)),
      (DigestFacts.sub_line_comments_text u v (one_line_forall _ H2)).
    reflexivity.
  - unfold normalize_code. rewrite (@sub_line_comments_comment u c v Hc Hv false Hu).
    reflexivity.
  - apply normalize_code_block_comment; assumption.
Qed.

(** C1 (amended). Two texts that differ only in white space and comments,
    in the sense of [same_code], get the same digest from [get_code_hash]:
    a white-space run may be written with more or fewer white-space
    characters (a line feed standing for a pair exactly when the pair has
    one), white space may be added at the start and at the end of the
    text, the text a line has after a [//] may be anything, a line
    comment whose [//] follows no slash may be deleted, and so may a block
    comment that holds the first [/*] of the text, lies outside a line
    comment, follows no slash, has no [//] inside and no slash just after
    it. *)
Theorem get_code_hash_same_code (a b : text) :
  same_code a b -> get_code_hash a = get_code_hash b.
Proof.
  intros H. unfold get_code_hash. rewrite (normalize_code_same_code H). reflexivity.
Qed.

Lemma get_code_hash_same_code_witness :
  same_code (of_string "f(); /* a */ g(); // done") (of_string "f(); /* b */ g();")
  /\ get_code_hash (of_string "f(); /* a */ g(); // done")
     = get_code_hash (of_string "f(); /* b */ g();").
Proof.
  assert (H : same_code (of_string "f(); /* a */ g(); // done")
                        (of_string "f(); /* b */ g();")).
  { apply code_trans with (y := of_string "f(); /* a */ g(); ").
    { exact (@code_line_comment (of_string "f(); /* a */ g(); ") (of_string " done") []
               eq_refl eq_refl eq_refl). }
    apply code_trans with (y := of_string "f(); /* a */ g();").
    { exact (@code_edge_r SPACE (of_string "f(); /* a */ g();") eq_refl). }
    apply code_trans with (y := of_string "f();  g();").
    { exact (@code_block_comment (of_string "f(); ") (of_string " a ") (of_string " g();")
               eq_refl eq_refl eq_refl eq_refl eq_refl eq_refl). }
    apply code_sym.
    exact (@code_block_comment (of_string "f(); ") (of_string " b ") (of_string " g();")
             eq_refl eq_refl eq_refl eq_refl eq_refl eq_refl). }
  split; [exact H | exact (get_code_hash_same_code H)].
Defined.

End CommentFacts.
